(** * OathPlate calculator: price snapshot, report engine, manual set, GP parser

    A shallow embedding of the Go program's core ([ComputeReport],
    [computeArmor], [computeCase], [pickBestByAvgProfit],
    [pickBestByHighSale], [profitForLabel], [ApplyManualSet], [parseGP]) and
    the properties of the written specification that were checked on it.

    Conventions.
    - Go's [int64] (and [int] on a 64-bit target) is a [Z] together with the
      wrap-around of every arithmetic operation written out ([Int64.wrap]).
    - Go strings are byte strings: [String.string].
    - A slice is a [list]; indexing is stdpp's [!!], update is [<[i:=x]>].
    - [time.Since] reads the wall clock.  The clock reading is an explicit
      argument [now] of every function that (transitively) calls it.
    - A function that mutates through a pointer and returns an [error]
      returns the new state together with an optional error. *)

From stdpp Require Import base list gmap strings.
From Stdlib Require Import ZArith Lia Bool Ascii String DecimalString.
From Stdlib Require Import Floats.SpecFloat.
From Stdlib Require DecimalPos DecimalFacts.

Local Open Scope string_scope.
Local Open Scope list_scope.
Local Open Scope Z_scope.

(** ** Machine integers *)

Module Int64.

Definition modulus : Z := 2 ^ 64.
Definition MaxInt64 : Z := 2 ^ 63 - 1.
Definition MinInt64 : Z := - 2 ^ 63.

(** The representative of [z] modulo [2^64] in the signed range. *)
Definition wrap (z : Z) : Z := (z + 2 ^ 63) mod modulus - 2 ^ 63.

Definition in_range (z : Z) : Prop := MinInt64 <= z <= MaxInt64.

Definition add (a b : Z) : Z := wrap (a + b).
Definition sub (a b : Z) : Z := wrap (a - b).
Definition mul (a b : Z) : Z := wrap (a * b).
(** Go's [/] on integers truncates toward zero; the only overflowing case
    is [MinInt64 / -1], which wraps. *)
Definition quo (a b : Z) : Z := wrap (Z.quot a b).

End Int64.

(** ** The [time] package, as far as the report engine uses it *)

Module GoTime.

(** A [time.Duration] is an [int64] count of nanoseconds. *)
Definition Duration : Type := Z.

Definition Nanosecond : Duration := 1.
Definition Second : Duration := 1000000000 * Nanosecond.
Definition Minute : Duration := 60 * Second.

Definition minDuration : Duration := Int64.MinInt64.
Definition maxDuration : Duration := Int64.MaxInt64.

(** An instant (Go: [time.Time]) is represented by the number of
    nanoseconds elapsed since the zero instant, January 1 of year 1,
    00:00:00 UTC. *)
Definition Instant : Type := Z.

Definition zero : Instant := 0.

Definition IsZero (t : Instant) : bool := t =? 0.

(** [t.Sub(u)]: the difference, saturated to the range of [Duration]. *)
Definition Sub (t u : Instant) : Duration :=
  let d := t - u in
  if d <? minDuration then minDuration
  else if maxDuration <? d then maxDuration
  else d.

(** [time.Since(t)] is [time.Now().Sub(t)]; [now] is the clock reading. *)
Definition Since (now t : Instant) : Duration := Sub now t.

End GoTime.

(** ** Constants *)

Definition shardsNeeded : Z := 450.
Definition shaleNeeded : Z := 2520.
Definition cacheTTL : GoTime.Duration := 20 * GoTime.Minute.
Definition version : string := "v1.0.0".

Definition armorID1 : Z := 30750.
Definition armorID2 : Z := 30753.
Definition armorID3 : Z := 30756.

(** ** Data model

    Record fields share one name space here, so the fields of [ArmorReport]
    and [Report] that repeat a field name of another struct carry the prefix
    [R]: [RName], [RItemID], [RMode], [RFetchedAt], [RShale], [RShard],
    [RArmors]. *)

Record PriceTriple : Type := mkPriceTriple {
  High : Z;
  Low : Z;
  Avg : Z
}.

Record ArmorOption : Type := mkArmorOption {
  Name : string;
  ItemID : Z;
  Price : PriceTriple
}.

Record AppState : Type := mkAppState {
  Shale : PriceTriple;
  Shard : PriceTriple;
  Armors : list ArmorOption;
  FetchedAt : GoTime.Instant;
  Mode : string
}.

Record ProfitCase : Type := mkProfitCase {
  SaleLabel : string;
  SalePrice : Z;
  TaxPaid : Z;
  NetAfterTax : Z;
  Profit : Z
}.

Record ArmorReport : Type := mkArmorReport {
  RName : string;
  RItemID : Z;
  Sale : PriceTriple;
  Cases : list ProfitCase;
  BestCase : ProfitCase
}.

Record Report : Type := mkReport {
  Version : string;
  RMode : string;
  RFetchedAt : GoTime.Instant;
  CacheAge : GoTime.Duration;
  CacheFresh : bool;
  RShale : PriceTriple;
  RShard : PriceTriple;
  IngredientCost : PriceTriple;
  RArmors : list ArmorReport;
  BestByAvgProfit : ArmorReport;
  BestByHighSale : ArmorReport
}.

(** Go zero values. *)
Definition zeroPriceTriple : PriceTriple := mkPriceTriple 0 0 0.
Definition zeroProfitCase : ProfitCase := mkProfitCase "" 0 0 0 0.
Definition zeroArmorReport : ArmorReport :=
  mkArmorReport "" 0 zeroPriceTriple [] zeroProfitCase.

Definition defaultState : AppState :=
  {| Shale := zeroPriceTriple;
     Shard := zeroPriceTriple;
     Armors := [ mkArmorOption "Oathplate Helmet" armorID1 zeroPriceTriple;
                 mkArmorOption "Oathplate Chestplate" armorID2 zeroPriceTriple;
                 mkArmorOption "Oathplate Legs" armorID3 zeroPriceTriple ];
     FetchedAt := GoTime.zero;
     Mode := "manual" |}.

(** ** The report engine *)

Definition computeCase (label : string) (salePrice ingredientCost : Z)
  : ProfitCase :=
  let taxPaid := Int64.quo (Int64.mul salePrice 2) 100 in
  let net := Int64.sub salePrice taxPaid in
  let profit := Int64.sub net ingredientCost in
  {| SaleLabel := label;
     SalePrice := salePrice;
     TaxPaid := taxPaid;
     NetAfterTax := net;
     Profit := profit |}.

(** The body of [for _, c := range cases[1:] { if c.Profit > best.Profit
    { best = c } }]. *)
Definition betterCase (best c : ProfitCase) : ProfitCase :=
  if Profit best <? Profit c then c else best.

Definition computeArmor (a : ArmorOption) (ingredientCost : PriceTriple)
  : ArmorReport :=
  let c0 := computeCase "low" (Low (Price a)) (Low ingredientCost) in
  let c1 := computeCase "avg" (Avg (Price a)) (Avg ingredientCost) in
  let c2 := computeCase "high" (High (Price a)) (High ingredientCost) in
  let cases := [c0; c1; c2] in
  let best := fold_left betterCase [c1; c2] c0 in
  {| RName := Name a;
     RItemID := ItemID a;
     Sale := Price a;
     Cases := cases;
     BestCase := best |}.

Fixpoint profitForLabelCases (cs : list ProfitCase) (label : string) : Z :=
  match cs with
  | [] => Int64.MinInt64
  | c :: cs' =>
      if String.eqb (SaleLabel c) label then Profit c
      else profitForLabelCases cs' label
  end.

Definition profitForLabel (a : ArmorReport) (label : string) : Z :=
  profitForLabelCases (Cases a) label.

(** Loop state of [pickBestByAvgProfit]: [(best, bestAvgProfit)]. *)
Definition avgStep (st : ArmorReport * Z) (a : ArmorReport)
  : ArmorReport * Z :=
  let p := profitForLabel a "avg" in
  if snd st <? p then (a, p) else st.

Definition pickBestByAvgProfit (armors : list ArmorReport) : ArmorReport :=
  match armors with
  | [] => zeroArmorReport
  | a0 :: rest => fst (fold_left avgStep rest (a0, profitForLabel a0 "avg"))
  end.

Definition highSaleStep (best a : ArmorReport) : ArmorReport :=
  if High (Sale best) <? High (Sale a) then a else best.

Definition pickBestByHighSale (armors : list ArmorReport) : ArmorReport :=
  match armors with
  | [] => zeroArmorReport
  | a0 :: rest => fold_left highSaleStep rest a0
  end.

Definition ingredientCostOf (state : AppState) : PriceTriple :=
  {| Low := Int64.add (Int64.mul shaleNeeded (Low (Shale state)))
                      (Int64.mul shardsNeeded (Low (Shard state)));
     Avg := Int64.add (Int64.mul shaleNeeded (Avg (Shale state)))
                      (Int64.mul shardsNeeded (Avg (Shard state)));
     High := Int64.add (Int64.mul shaleNeeded (High (Shale state)))
                       (Int64.mul shardsNeeded (High (Shard state))) |}.

(** [ComputeReport] with the time-to-live as a parameter; the program's
    function is the instance at [cacheTTL]. *)
Definition ComputeReportTTL (ttl : GoTime.Duration) (now : GoTime.Instant)
  (state : AppState) : Report :=
  let age :=
    if negb (GoTime.IsZero (FetchedAt state))
    then GoTime.Since now (FetchedAt state)
    else 0 in
  let fresh := negb (GoTime.IsZero (FetchedAt state)) && (age <=? ttl) in
  let ingredientCost := ingredientCostOf state in
  let armorReports :=
    map (fun a => computeArmor a ingredientCost) (Armors state) in
  let bestByAvg := pickBestByAvgProfit armorReports in
  let bestByHighSale := pickBestByHighSale armorReports in
  {| Version := version;
     RMode := Mode state;
     RFetchedAt := FetchedAt state;
     CacheAge := age;
     CacheFresh := fresh;
     RShale := Shale state;
     RShard := Shard state;
     IngredientCost := ingredientCost;
     RArmors := armorReports;
     BestByAvgProfit := bestByAvg;
     BestByHighSale := bestByHighSale |}.

Definition ComputeReport (now : GoTime.Instant) (state : AppState) : Report :=
  ComputeReportTTL cacheTTL now state.

(** ** The [strings] package, as far as the program uses it

    Strings are byte strings.  [ToLower] and [TrimSpace] are given on ASCII:
    bytes above 127 (the encodings of non-ASCII runes) are left untouched
    and are never white space.  The library also lowers non-ASCII letters
    and cuts Unicode white space, so the two agree with it on ASCII text
    only; a statement about [parseGP] on arbitrary text that depends on
    them carries the hypothesis [allBytes isASCII]. *)

Module GoStrings.

Local Open Scope char_scope.

(** [strings.Split(s, sep)] for a one-byte separator: the substrings
    between the separators, one more than there are separators. *)
Fixpoint SplitByte (sep : ascii) (s : string) : list string :=
  match s with
  | EmptyString => [EmptyString]
  | String c s' =>
      if Ascii.eqb c sep then EmptyString :: SplitByte sep s'
      else match SplitByte sep s' with
           | p :: ps => String c p :: ps
           | [] => [String c EmptyString]
           end
  end.

Definition lowerByte (c : ascii) : ascii :=
  let n := nat_of_ascii c in
  if (65 <=? n)%nat && (n <=? 90)%nat then ascii_of_nat (n + 32) else c.

Fixpoint ToLower (s : string) : string :=
  match s with
  | EmptyString => EmptyString
  | String c s' => String (lowerByte c) (ToLower s')
  end.

(** ['\t'], ['\n'], ['\v'], ['\f'], ['\r'], [' ']. *)
Definition isSpace (c : ascii) : bool :=
  let n := nat_of_ascii c in
  ((9 <=? n)%nat && (n <=? 13)%nat) || (n =? 32)%nat.

Fixpoint TrimLeftSpace (s : string) : string :=
  match s with
  | EmptyString => EmptyString
  | String c s' => if isSpace c then TrimLeftSpace s' else s
  end.

Fixpoint TrimRightSpace (s : string) : string :=
  match s with
  | EmptyString => EmptyString
  | String c s' =>
      match TrimRightSpace s' with
      | EmptyString => if isSpace c then EmptyString else String c EmptyString
      | r => String c r
      end
  end.

Definition TrimSpace (s : string) : string :=
  TrimRightSpace (TrimLeftSpace s).

(** [strings.ReplaceAll(s, old, "")] for a one-byte [old]. *)
Fixpoint RemoveByte (old : ascii) (s : string) : string :=
  match s with
  | EmptyString => EmptyString
  | String c s' =>
      if Ascii.eqb c old then RemoveByte old s'
      else String c (RemoveByte old s')
  end.

(** [strings.HasSuffix(s, suffix)] for a one-byte suffix. *)
Fixpoint HasSuffixByte (suffix : ascii) (s : string) : bool :=
  match s with
  | EmptyString => false
  | String c EmptyString => Ascii.eqb c suffix
  | String _ s' => HasSuffixByte suffix s'
  end.

(** All but the last byte. *)
Fixpoint dropLast (s : string) : string :=
  match s with
  | EmptyString => EmptyString
  | String _ EmptyString => EmptyString
  | String c s' => String c (dropLast s')
  end.

(** [strings.TrimSuffix(s, suffix)] for a one-byte suffix. *)
Definition TrimSuffixByte (suffix : ascii) (s : string) : string :=
  if HasSuffixByte suffix s then dropLast s else s.

End GoStrings.

(** ** Manual set *)

(** The [error] values [ApplyManualSet] can return, by the message they are
    built from.  [panicIndex] stands for the run-time panic of an
    out-of-range slice index; the guard on [len(state.Armors)] makes it
    unreachable ([ApplyManualSet_no_panic]). *)
Inductive SetError : Type :=
  | errInvalidFieldFormat
  | errUnknownComponent (component : string)
  | errArmorListNotInitialized
  | errUnknownField
  | panicIndex.

(** The closure [setTriple]: [component] and [val] are the captured
    variables, the pointee of [t] is passed in and returned. *)
Definition setTriple (component : string) (val : Z) (t : PriceTriple)
  : PriceTriple * option SetError :=
  if String.eqb component "" then
    ({| High := val; Low := val; Avg := val |}, None)
  else if String.eqb component "high" then
    ({| High := val; Low := Low t; Avg := Avg t |}, None)
  else if String.eqb component "low" then
    ({| High := High t; Low := val; Avg := Avg t |}, None)
  else if String.eqb component "avg" then
    ({| High := High t; Low := Low t; Avg := val |}, None)
  else (t, Some (errUnknownComponent component)).

Definition setShale (state : AppState) (t : PriceTriple) : AppState :=
  {| Shale := t; Shard := Shard state; Armors := Armors state;
     FetchedAt := FetchedAt state; Mode := Mode state |}.

Definition setShard (state : AppState) (t : PriceTriple) : AppState :=
  {| Shale := Shale state; Shard := t; Armors := Armors state;
     FetchedAt := FetchedAt state; Mode := Mode state |}.

Definition setArmors (state : AppState) (l : list ArmorOption) : AppState :=
  {| Shale := Shale state; Shard := Shard state; Armors := l;
     FetchedAt := FetchedAt state; Mode := Mode state |}.

Definition setPrice (a : ArmorOption) (t : PriceTriple) : ArmorOption :=
  {| Name := Name a; ItemID := ItemID a; Price := t |}.

(** [map[string]int{"armor1": 0, "armor2": 1, "armor3": 2}[target]]; a
    missing key reads as 0. *)
Definition armorIndex (target : string) : nat :=
  if String.eqb target "armor1" then 0%nat
  else if String.eqb target "armor2" then 1%nat
  else if String.eqb target "armor3" then 2%nat
  else 0%nat.

Definition setArmor (state : AppState) (component : string) (val : Z)
  (idx : nat) : AppState * option SetError :=
  if (List.length (Armors state) <? 3)%nat then
    (state, Some errArmorListNotInitialized)
  else
    match Armors state !! idx with
    | Some a =>
        let '(t, err) := setTriple component val (Price a) in
        (setArmors state (<[idx := setPrice a t]> (Armors state)), err)
    | None => (state, Some panicIndex)
    end.

Definition applyTarget (state : AppState) (target component : string)
  (val : Z) : AppState * option SetError :=
  if String.eqb target "shale" then
    let '(t, err) := setTriple component val (Shale state) in
    (setShale state t, err)
  else if String.eqb target "shard" then
    let '(t, err) := setTriple component val (Shard state) in
    (setShard state t, err)
  else if String.eqb target "armor1" || String.eqb target "armor2"
          || String.eqb target "armor3" then
    setArmor state component val (armorIndex target)
  else (state, Some errUnknownField).

Definition ApplyManualSet (state : AppState) (field : string) (val : Z)
  : AppState * option SetError :=
  match GoStrings.SplitByte "."%char field with
  | [] => (state, Some panicIndex)
  | [target] => applyTarget state target "" val
  | [target; component] => applyTarget state target component val
  | _ :: _ :: _ :: _ => (state, Some errInvalidFieldFormat)
  end.

(** ** [float64], [math.Round] and the conversion to [int64]

    A [float64] is a [spec_float] at precision 53 and maximal exponent 1024;
    arithmetic is the IEEE 754 arithmetic of the standard library's
    specification of binary floating point. *)

Module Float64.

Definition prec : Z := 53.
Definition emax : Z := 1024.

Definition mul (x y : spec_float) : spec_float := SFmul prec emax x y.

(** The float nearest to the integer [z] (ties to even). *)
Definition ofZ (z : Z) : spec_float := binary_normalize prec emax z 0 false.

(** The float nearest to [m * 2^e]. *)
Definition ofBinary (neg : bool) (m e : Z) : spec_float :=
  match m with
  | Zpos p => binary_round prec emax neg p e
  | _ => S754_zero neg
  end.

(** The float nearest to [m * 10^e]; [dp] is the position of the decimal
    point relative to the first significant digit, so that the value lies
    in [[10^(dp-1), 10^dp)].  Beyond [dp > 310] the value overflows, below
    [dp < -330] it rounds to zero. *)
Definition ofDecimal (neg : bool) (m e dp : Z) : spec_float :=
  match m with
  | Zpos p =>
      if 310 <? dp then S754_infinity neg
      else if dp <? -330 then S754_zero neg
      else if 0 <=? e then binary_round prec emax neg (Z.to_pos (m * 10 ^ e)) 0
      else
        let '(q, e', l) := SFdiv_core_binary prec emax m 0 (10 ^ (- e)) 0 in
        binary_round_aux prec emax neg q e' l
  | _ => S754_zero neg
  end.

Definition isInf (x : spec_float) : bool :=
  match x with S754_infinity _ => true | _ => false end.

(** The integer nearest to [m / d], halves rounded up ([0 < d]). *)
Definition nearestHalfUp (m d : Z) : Z :=
  let q := m / d in
  let r := m mod d in
  if d <=? 2 * r then q + 1 else q.

(** [math.Round]: the nearest integer, halves away from zero; zeros,
    infinities and NaN are returned as they are. *)
Definition Round (x : spec_float) : spec_float :=
  match x with
  | S754_finite s m e =>
      if 0 <=? e then x
      else
        let n := nearestHalfUp (Zpos m) (2 ^ (- e)) in
        match n with
        | Zpos p => binary_round prec emax s p 0
        | _ => S754_zero s
        end
  | _ => x
  end.

(** The value of a finite float truncated toward zero. *)
Definition truncZ (x : spec_float) : option Z :=
  match x with
  | S754_zero _ => Some 0
  | S754_finite s m e =>
      let v := if 0 <=? e then Zpos m * 2 ^ e else Zpos m / 2 ^ (- e) in
      Some (if s then - v else v)
  | _ => None
  end.

Section Conversion.

(** The language leaves the result of converting a float that [int64]
    cannot represent to the implementation. *)
Variable unrepresentable : spec_float -> Z.

Definition toInt64 (x : spec_float) : Z :=
  match truncZ x with
  | Some v =>
      if (Int64.MinInt64 <=? v) && (v <=? Int64.MaxInt64) then v
      else unrepresentable x
  | None => unrepresentable x
  end.

End Conversion.

End Float64.

(** ** [strconv.ParseFloat] at bit size 64

    The accepted syntax is that of the library: an optional sign, then
    either one of the words [inf], [infinity], [nan] (any case; [nan]
    unsigned), or a decimal mantissa with optional fraction and optional
    decimal exponent, or a [0x] hexadecimal mantissa with a mandatory binary
    exponent; underscores may separate digits.  The result is the float
    nearest to the exact value of the text; a value that rounds to an
    infinity is a range error. *)

Module GoStrconv.

Local Open Scope char_scope.
Local Open Scope Z_scope.

Inductive NumError : Type := ErrSyntax | ErrRange.

Definition isDigit (c : ascii) : bool :=
  let n := nat_of_ascii c in (48 <=? n)%nat && (n <=? 57)%nat.

Definition digitVal (c : ascii) : Z := Z.of_nat (nat_of_ascii c) - 48.

Definition isHexLetter (c : ascii) : bool :=
  let n := nat_of_ascii (GoStrings.lowerByte c) in
  (97 <=? n)%nat && (n <=? 102)%nat.

Definition hexLetterVal (c : ascii) : Z :=
  Z.of_nat (nat_of_ascii (GoStrings.lowerByte c)) - 97 + 10.

(** State of the mantissa loop of [readFloat]: all significant digits
    [mantissa], their number [nd], the decimal point position [dp]. *)
Record scan : Type := mkScan {
  mantissa : Z;
  nd : Z;
  dp : Z;
  sawdot : bool;
  sawdigits : bool;
  underscores : bool
}.

Definition scan0 : scan := mkScan 0 0 0 false false false.

Fixpoint readDigits (base : Z) (s : string) (st : scan) : scan * string :=
  match s with
  | EmptyString => (st, s)
  | String c s' =>
      if Ascii.eqb c "_" then
        readDigits base s'
          (mkScan (mantissa st) (nd st) (dp st) (sawdot st) (sawdigits st) true)
      else if Ascii.eqb c "." then
        if sawdot st then (st, s)
        else readDigits base s'
               (mkScan (mantissa st) (nd st) (nd st) true (sawdigits st)
                       (underscores st))
      else if isDigit c then
        if Ascii.eqb c "0" && (nd st =? 0) then
          readDigits base s'
            (mkScan (mantissa st) (nd st) (dp st - 1) (sawdot st) true
                    (underscores st))
        else
          readDigits base s'
            (mkScan (mantissa st * base + digitVal c) (nd st + 1) (dp st)
                    (sawdot st) true (underscores st))
      else if (base =? 16) && isHexLetter c then
        readDigits base s'
          (mkScan (mantissa st * 16 + hexLetterVal c) (nd st + 1) (dp st)
                  (sawdot st) true (underscores st))
      else (st, s)
  end.

(** The digits of an exponent; the accumulated value stops growing once
    it has reached 10000.  Returns the value, whether an underscore was
    skipped, and the unread rest. *)
Fixpoint readExpDigits (s : string) (e : Z) (us : bool) : Z * bool * string :=
  match s with
  | EmptyString => (e, us, s)
  | String c s' =>
      if Ascii.eqb c "_" then readExpDigits s' e true
      else if isDigit c then
        readExpDigits s' (if e <? 10000 then e * 10 + digitVal c else e) us
      else (e, us, s)
  end.

(** The optional exponent after the mantissa; [None] is a syntax error. *)
Definition readExponent (hex : bool) (s : string)
  : option (Z * bool * string) :=
  let expChar := if hex then "p" else "e" in
  match s with
  | String c s' =>
      if Ascii.eqb (GoStrings.lowerByte c) expChar then
        match s' with
        | EmptyString => None
        | String c2 s'' =>
            let '(esign, t) :=
              if Ascii.eqb c2 "+" then (1, s'')
              else if Ascii.eqb c2 "-" then (-1, s'')
              else (1, s') in
            match t with
            | String d _ =>
                if isDigit d then
                  let '(e, us, rest) := readExpDigits t 0 false in
                  Some (e * esign, us, rest)
                else None
            | EmptyString => None
            end
        end
      else if hex then None
      else Some (0, false, s)
  | EmptyString => if hex then None else Some (0, false, s)
  end.

(** [underscoreOK]: underscores only between digits, or between a base
    prefix and a digit.  [saw] is the kind of the last byte seen. *)
Inductive sawKind : Type := sawStart | sawDigit | sawUnderscore | sawOther.

Fixpoint underscoreLoop (hex : bool) (saw : sawKind) (s : string) : bool :=
  match s with
  | EmptyString => match saw with sawUnderscore => false | _ => true end
  | String c s' =>
      if isDigit c || (hex && isHexLetter c) then underscoreLoop hex sawDigit s'
      else if Ascii.eqb c "_" then
        match saw with
        | sawDigit => underscoreLoop hex sawUnderscore s'
        | _ => false
        end
      else
        match saw with
        | sawUnderscore => false
        | _ => underscoreLoop hex sawOther s'
        end
  end.

Definition stripSign (s : string) : bool * string :=
  match s with
  | String c s' =>
      if Ascii.eqb c "+" then (false, s')
      else if Ascii.eqb c "-" then (true, s')
      else (false, s)
  | EmptyString => (false, s)
  end.

Definition underscoreOK (s : string) : bool :=
  let s := snd (stripSign s) in
  match s with
  | String c0 (String c1 s') =>
      let l := GoStrings.lowerByte c1 in
      if Ascii.eqb c0 "0"
         && (Ascii.eqb l "b" || Ascii.eqb l "o" || Ascii.eqb l "x")
      then underscoreLoop (Ascii.eqb l "x") sawDigit s'
      else underscoreLoop false sawStart s
  | _ => underscoreLoop false sawStart s
  end.

(** The bytes of [s] in front of its suffix [rest]. *)
Definition consumed (s rest : string) : string :=
  String.substring 0 (String.length s - String.length rest) s.

(** The words for the special values; the text must be the whole word. *)
Definition special (s : string) : option spec_float :=
  let '(neg, body) := stripSign s in
  let low := GoStrings.ToLower body in
  if String.eqb low "inf" || String.eqb low "infinity" then
    Some (S754_infinity neg)
  else if String.eqb (GoStrings.ToLower s) "nan" then Some S754_nan
  else None.

(** A base prefix needs at least one more byte behind it. *)
Definition hexPrefix (s : string) : option string :=
  match s with
  | String c0 (String c1 (String c2 s')) =>
      if Ascii.eqb c0 "0" && Ascii.eqb (GoStrings.lowerByte c1) "x"
      then Some (String c2 s') else None
  | _ => None
  end.

Definition ParseFloat (s : string) : spec_float + NumError :=
  match special s with
  | Some f => inl f
  | None =>
      let '(neg, body) := stripSign s in
      let '(hex, digits) :=
        match hexPrefix body with
        | Some t => (true, t)
        | None => (false, body)
        end in
      let '(st, afterMant) :=
        readDigits (if hex then 16 else 10) digits scan0 in
      if negb (sawdigits st) then inr ErrSyntax
      else
        let dp0 := if sawdot st then dp st else nd st in
        match readExponent hex afterMant with
        | None => inr ErrSyntax
        | Some (e, us, rest) =>
            if (underscores st || us) && negb (underscoreOK (consumed s rest))
            then inr ErrSyntax
            else if negb (String.eqb rest "") then inr ErrSyntax
            else
              let f :=
                if hex then
                  Float64.ofBinary neg (mantissa st) (4 * dp0 + e - 4 * nd st)
                else
                  Float64.ofDecimal neg (mantissa st) (dp0 + e - nd st)
                                    (dp0 + e) in
              if Float64.isInf f then inr ErrRange else inl f
        end
  end.

End GoStrconv.

(** ** Input parsing *)

Section ParseGP.

Variable unrepresentable : spec_float -> Z.

(** On failure the program returns 0 together with the error. *)
Definition parseGP (input : string) : Z * option GoStrconv.NumError :=
  let input := GoStrings.TrimSpace (GoStrings.ToLower input) in
  let input := GoStrings.RemoveByte ","%char input in
  let '(multiplier, input) :=
    if GoStrings.HasSuffixByte "k"%char input then
      (Float64.ofZ 1000, GoStrings.TrimSuffixByte "k"%char input)
    else if GoStrings.HasSuffixByte "m"%char input then
      (Float64.ofZ 1000000, GoStrings.TrimSuffixByte "m"%char input)
    else if GoStrings.HasSuffixByte "b"%char input then
      (Float64.ofZ 1000000000, GoStrings.TrimSuffixByte "b"%char input)
    else (Float64.ofZ 1, input) in
  match GoStrconv.ParseFloat input with
  | inr err => (0, Some err)
  | inl number =>
      (Float64.toInt64 unrepresentable
         (Float64.Round (Float64.mul number multiplier)), None)
  end.

End ParseGP.

(** ** Scans that keep the first maximum

    [computeArmor] and the two [pickBest...] functions keep the first
    element of a list and replace it only by one whose key is strictly
    greater. *)

Definition keepGreater {A : Type} (key : A -> Z) (best x : A) : A :=
  if key best <? key x then x else best.

(** [x] sits at index [i] of [l], nothing in [l] has a greater key, and
    everything in front of index [i] has a strictly smaller key. *)
Definition firstMaxAt {A : Type} (key : A -> Z) (l : list A) (i : nat) (x : A)
  : Prop :=
  l !! i = Some x
  /\ (forall j y, l !! j = Some y -> key y <= key x)
  /\ (forall j y, (j < i)%nat -> l !! j = Some y -> key y < key x).

(** ** Tiers

    The program names the three tiers only through the fields [Low], [Avg],
    [High] and the labels of the profit cases. *)

Inductive Tier : Type := TLow | TAvg | THigh.

Definition tierPrice (t : Tier) (p : PriceTriple) : Z :=
  match t with TLow => Low p | TAvg => Avg p | THigh => High p end.

Definition tierLabel (t : Tier) : string :=
  match t with TLow => "low" | TAvg => "avg" | THigh => "high" end.

(** Position of the tier's case in [Cases]. *)
Definition tierIndex (t : Tier) : nat :=
  match t with TLow => 0%nat | TAvg => 1%nat | THigh => 2%nat end.

(** The key [pickBestByAvgProfit] compares. *)
Definition avgProfit (a : ArmorReport) : Z := profitForLabel a "avg".

(** ** Reports up to the clock *)

(** The report with the two fields that depend on the clock blanked. *)
Definition clockFree (r : Report) : Report :=
  {| Version := Version r;
     RMode := RMode r;
     RFetchedAt := RFetchedAt r;
     CacheAge := 0;
     CacheFresh := false;
     RShale := RShale r;
     RShard := RShard r;
     IngredientCost := IngredientCost r;
     RArmors := RArmors r;
     BestByAvgProfit := BestByAvgProfit r;
     BestByHighSale := BestByHighSale r |}.

(** ** Field paths *)

(** [s] has no byte ['.']. *)
Fixpoint noDot (s : string) : bool :=
  match s with
  | EmptyString => true
  | String c s' => negb (Ascii.eqb c ".") && noDot s'
  end.

(** The targets the [switch] of [ApplyManualSet] has a case for. *)
Definition knownTarget (target : string) : bool :=
  String.eqb target "shale" || String.eqb target "shard"
  || String.eqb target "armor1" || String.eqb target "armor2"
  || String.eqb target "armor3".

Definition isArmorTarget (target : string) : bool :=
  String.eqb target "armor1" || String.eqb target "armor2"
  || String.eqb target "armor3".

(** The components the [switch] of [setTriple] has a case for. *)
Definition knownComponent (component : string) : bool :=
  String.eqb component "high" || String.eqb component "low"
  || String.eqb component "avg".

(** The field path [target.component]. *)
Definition dotted (target component : string) : string :=
  String.append target (String "." component).

(** ** Snapshots and items used as examples *)

(** A snapshot with the prices of the specification's example. *)
Definition exampleState : AppState :=
  {| Shale := {| High := 30; Low := 10; Avg := 20 |};
     Shard := {| High := 200; Low := 100; Avg := 150 |};
     Armors := Armors defaultState;
     FetchedAt := GoTime.zero;
     Mode := "manual" |}.

(** A snapshot whose shale low price is [2^62], a value [parseGP] returns
    for the text [4611686018427387904]. *)
Definition hugeShaleState : AppState :=
  {| Shale := {| High := 0; Low := 4611686018427387904; Avg := 0 |};
     Shard := zeroPriceTriple;
     Armors := Armors defaultState;
     FetchedAt := GoTime.zero;
     Mode := "manual" |}.

(** An item sold at 1 (low), 1,000,000 (avg) and 2,000,000 (high). *)
Definition exampleArmor : ArmorOption :=
  {| Name := "Oathplate Helmet"; ItemID := armorID1;
     Price := {| High := 2000000; Low := 1; Avg := 1000000 |} |}.

(** A snapshot fetched at some instant after the zero instant. *)
Definition fetchedState : AppState :=
  {| Shale := Shale exampleState;
     Shard := Shard exampleState;
     Armors := Armors exampleState;
     FetchedAt := 63900000000000000000;
     Mode := "api" |}.

(** A snapshot whose first two items have the same avg price, above the
    third's. *)
Definition tieState : AppState :=
  {| Shale := Shale exampleState;
     Shard := Shard exampleState;
     Armors := [ mkArmorOption "Oathplate Helmet" armorID1
                   {| High := 900000; Low := 700000; Avg := 800000 |};
                 mkArmorOption "Oathplate Chestplate" armorID2
                   {| High := 950000; Low := 650000; Avg := 800000 |};
                 mkArmorOption "Oathplate Legs" armorID3
                   {| High := 600000; Low := 400000; Avg := 500000 |} ];
     FetchedAt := GoTime.zero;
     Mode := "manual" |}.

(** ** Number formatting: [strconv.FormatInt], [comma], [abs] *)

(** [strconv.FormatInt(n, 10)] and [strconv.Itoa]: the decimal digits of
    [n], with a leading minus sign for a negative number. *)
Definition FormatInt (n : Z) : string := NilZero.string_of_int (Z.to_int n).

Definition Itoa (n : Z) : string := FormatInt n.

(** The loop [for i := pre; i < len(s); i += 3] of [comma] over the bytes
    [s[pre:]]: every round writes a comma and the next three bytes
    [s[i:i+3]].  A remainder of one or two bytes would make that slice
    expression panic: [None]. *)
Fixpoint commaGroups (rest : string) : option string :=
  match rest with
  | EmptyString => Some EmptyString
  | String a (String b (String c rest')) =>
      match commaGroups rest' with
      | Some g => Some (String "," (String a (String b (String c g))))
      | None => None
      end
  | _ => None
  end.

(** [comma]; the negation [n = -n] is an [int64] negation.  [None] stands
    for a run-time panic. *)
Definition comma (n : Z) : option string :=
  let sign := if n <? 0 then "-" else "" in
  let n := if n <? 0 then Int64.wrap (- n) else n in
  let s := FormatInt n in
  if (String.length s <=? 3)%nat then Some (String.append sign s)
  else
    let pre := (String.length s mod 3)%nat in
    let pre := if (pre =? 0)%nat then 3%nat else pre in
    match commaGroups (String.substring pre (String.length s - pre) s) with
    | Some g =>
        Some (String.append sign (String.append (String.substring 0 pre s) g))
    | None => None
    end.

Definition abs (n : Z) : Z := if n <? 0 then Int64.wrap (- n) else n.

(** The amount [RenderReportString] prints on a profit line: the sign it
    works out itself, followed by [comma(abs(c.Profit))]. *)
Definition profitText (profit : Z) : option string :=
  let sign := if profit <? 0 then "-" else "" in
  match comma (abs profit) with
  | Some t => Some (String.append sign t)
  | None => None
  end.

(** ** Fetching

    The request, the status check and the JSON decoding of
    [fetchLatestTriple] are an oracle [httpLatest]: for an item id it gives
    either the failure of one of these steps or the decoded [data] object,
    a map from item id to a row whose [high] and [low] may be null. *)

Record latestRow : Type := mkLatestRow {
  rowHigh : option Z;
  rowLow : option Z
}.

Inductive LatestError (T : Type) : Type :=
  | errTransport (cause : T)
  | errMissingHighLow (id : Z).

Arguments errTransport {T} cause.
Arguments errMissingHighLow {T} id.

(** The tail of [fetchLatestTriple], from the lookup of the row on. *)
Definition tripleOfData {T : Type} (data : gmap string latestRow) (id : Z)
  : PriceTriple + LatestError T :=
  match data !! Itoa id with
  | Some {| rowHigh := Some high; rowLow := Some low |} =>
      inl {| High := high; Low := low;
             Avg := Int64.quo (Int64.add high low) 2 |}
  | _ => inr (errMissingHighLow id)
  end.

Definition itemIDShale : Z := 30848.
Definition itemIDShard : Z := 30765.

(** Which of the five lookups an error of [FetchStateFromAPI] wraps. *)
Inductive FetchStage : Type :=
  | stageShale | stageShard | stageArmor1 | stageArmor2 | stageArmor3.

Inductive FetchError (T : Type) : Type :=
  | errSetItemIDs
  | errStage (stage : FetchStage) (cause : LatestError T).

Arguments errSetItemIDs {T}.
Arguments errStage {T} stage cause.

Section Fetch.

Context {T : Type}.
Variable httpLatest : Z -> T + gmap string latestRow.

Definition fetchLatestTriple (id : Z) : PriceTriple + LatestError T :=
  match httpLatest id with
  | inl cause => inr (errTransport cause)
  | inr data => tripleOfData data id
  end.

(** [now] is the value of [time.Now()] taken for [FetchedAt]. *)
Definition FetchStateFromAPI (now : GoTime.Instant)
  : AppState + FetchError T :=
  let ids := [itemIDShale; itemIDShard; armorID1; armorID2; armorID3] in
  if existsb (fun id => id =? 0) ids then inr errSetItemIDs
  else
    match fetchLatestTriple itemIDShale with
    | inr err => inr (errStage stageShale err)
    | inl shale =>
    match fetchLatestTriple itemIDShard with
    | inr err => inr (errStage stageShard err)
    | inl shard =>
    match fetchLatestTriple armorID1 with
    | inr err => inr (errStage stageArmor1 err)
    | inl a1 =>
    match fetchLatestTriple armorID2 with
    | inr err => inr (errStage stageArmor2 err)
    | inl a2 =>
    match fetchLatestTriple armorID3 with
    | inr err => inr (errStage stageArmor3 err)
    | inl a3 =>
        inl {| Shale := shale;
               Shard := shard;
               Armors := [ mkArmorOption "Oathplate Helmet" armorID1 a1;
                           mkArmorOption "Oathplate Chestplate" armorID2 a2;
                           mkArmorOption "Oathplate Legs" armorID3 a3 ];
               FetchedAt := now;
               Mode := "api" |}
    end end end end end.

End Fetch.

(** The item id each stage looks up. *)
Definition stageID (stage : FetchStage) : Z :=
  match stage with
  | stageShale => itemIDShale
  | stageShard => itemIDShard
  | stageArmor1 => armorID1
  | stageArmor2 => armorID2
  | stageArmor3 => armorID3
  end.

(** The stages in the order of the calls. *)
Definition stageRank (stage : FetchStage) : nat :=
  match stage with
  | stageShale => 0
  | stageShard => 1
  | stageArmor1 => 2
  | stageArmor2 => 3
  | stageArmor3 => 4
  end.

(** ** The edit action of the dashboard

    The closure [apply] of [RunTUI], as a transition of the variable
    [state]; the status line it sets is the second component.  The redraw
    ([refresh]) reads the state and changes nothing. *)

Inductive ApplyStatus : Type :=
  | statusInvalidValue
  | statusSetFailed (err : SetError)
  | statusUpdated.

Definition setMode (state : AppState) (mode : string) : AppState :=
  {| Shale := Shale state; Shard := Shard state; Armors := Armors state;
     FetchedAt := FetchedAt state; Mode := mode |}.

Section Apply.

Variable unrepresentable : spec_float -> Z.

Definition applyEdit (state : AppState) (field text : string)
  : AppState * ApplyStatus :=
  match parseGP unrepresentable text with
  | (_, Some _) => (state, statusInvalidValue)
  | (v, None) =>
      match ApplyManualSet state field v with
      | (state', Some err) => (state', statusSetFailed err)
      | (state', None) => (setMode state' "manual", statusUpdated)
      end
  end.

End Apply.

(** ** Reading a field back *)

(** The triple a target of [ApplyManualSet] designates, when there is
    one. *)
Definition targetTriple (state : AppState) (target : string)
  : option PriceTriple :=
  if String.eqb target "shale" then Some (Shale state)
  else if String.eqb target "shard" then Some (Shard state)
  else if isArmorTarget target then
    option_map Price (Armors state !! armorIndex target)
  else None.

(** The member of a triple a component names. *)
Definition componentOf (component : string) (t : PriceTriple) : option Z :=
  if String.eqb component "high" then Some (High t)
  else if String.eqb component "low" then Some (Low t)
  else if String.eqb component "avg" then Some (Avg t)
  else None.

(** ** Notions used in the statements below *)

(** The key of [pickBestByHighSale]. *)
Definition highSale (a : ArmorReport) : Z := High (Sale a).

(** A snapshot whose second and third items share the highest high price:
    the second is chosen, while the best avg profit is the first item's. *)
Definition highTieState : AppState :=
  {| Shale := Shale exampleState;
     Shard := Shard exampleState;
     Armors := [ mkArmorOption "Oathplate Helmet" armorID1
                   {| High := 900000; Low := 700000; Avg := 800000 |};
                 mkArmorOption "Oathplate Chestplate" armorID2
                   {| High := 950000; Low := 100000; Avg := 500000 |};
                 mkArmorOption "Oathplate Legs" armorID3
                   {| High := 950000; Low := 400000; Avg := 600000 |} ];
     FetchedAt := GoTime.zero;
     Mode := "manual" |}.

(** The triple a stage of [FetchStateFromAPI] fills in. *)
Definition fetched (stage : FetchStage) (state : AppState)
  : option PriceTriple :=
  match stage with
  | stageShale => Some (Shale state)
  | stageShard => Some (Shard state)
  | stageArmor1 => option_map Price (Armors state !! 0%nat)
  | stageArmor2 => option_map Price (Armors state !! 1%nat)
  | stageArmor3 => option_map Price (Armors state !! 2%nat)
  end.

(** An oracle that answers every lookup with high 100 and low 50. *)
Definition httpSteady (id : Z) : unit + gmap string latestRow :=
  inr (<[Itoa id := mkLatestRow (Some 100) (Some 50)]> ∅).

(** The state fetched from that oracle at the clock reading [now]. *)
Definition steadyState (now : GoTime.Instant) : AppState :=
  {| Shale := {| High := 100; Low := 50; Avg := 75 |};
     Shard := {| High := 100; Low := 50; Avg := 75 |};
     Armors := [ mkArmorOption "Oathplate Helmet" armorID1
                   {| High := 100; Low := 50; Avg := 75 |};
                 mkArmorOption "Oathplate Chestplate" armorID2
                   {| High := 100; Low := 50; Avg := 75 |};
                 mkArmorOption "Oathplate Legs" armorID3
                   {| High := 100; Low := 50; Avg := 75 |} ];
     FetchedAt := now;
     Mode := "api" |}.

(** The places a field path can designate. *)
Inductive Slot : Type := slotShale | slotShard | slotArmor (idx : nat).

(** The place the [switch] of [ApplyManualSet] selects for a target. *)
Definition slotOf (target : string) : option Slot :=
  if String.eqb target "shale" then Some slotShale
  else if String.eqb target "shard" then Some slotShard
  else if isArmorTarget target then Some (slotArmor (armorIndex target))
  else None.

(** The triple stored at a place; [None] where the item list is too
    short. *)
Definition readSlot (state : AppState) (sl : Slot) : option PriceTriple :=
  match sl with
  | slotShale => Some (Shale state)
  | slotShard => Some (Shard state)
  | slotArmor i => option_map Price (Armors state !! i)
  end.

(** The state with the triple at a place replaced. *)
Definition writeSlot (state : AppState) (sl : Slot) (t : PriceTriple)
  : AppState :=
  match sl with
  | slotShale => setShale state t
  | slotShard => setShard state t
  | slotArmor i =>
      match Armors state !! i with
      | Some a => setArmors state (<[i := setPrice a t]> (Armors state))
      | None => state
      end
  end.

(** The guard on the length of the item list. *)
Definition slotReady (state : AppState) (sl : Slot) : bool :=
  match sl with
  | slotArmor _ => negb (List.length (Armors state) <? 3)%nat
  | _ => true
  end.

(** [parts[0]] of a field path. *)
Definition fieldTarget (field : string) : string :=
  hd "" (GoStrings.SplitByte "." field).

(** State and error of [applyTarget] on a slot. *)
Definition slotWrite (state : AppState) (sl : Slot) (component : string)
  (val : Z) : AppState :=
  if slotReady state sl then
    match readSlot state sl with
    | Some t => writeSlot state sl (fst (setTriple component val t))
    | None => state
    end
  else state.

Definition slotError (state : AppState) (sl : Slot) (component : string)
  (val : Z) : option SetError :=
  if slotReady state sl then
    match readSlot state sl with
    | Some t => snd (setTriple component val t)
    | None => Some panicIndex
    end
  else Some errArmorListNotInitialized.

(** [s] has no byte [b]. *)
Fixpoint noByte (b : ascii) (s : string) : bool :=
  match s with
  | EmptyString => true
  | String c s' => negb (Ascii.eqb c b) && noByte b s'
  end.

(** What [comma] puts behind the sign, for the digits [s]. *)
Definition commaBody (s : string) : option string :=
  if (String.length s <=? 3)%nat then Some s
  else
    let pre := (String.length s mod 3)%nat in
    let pre := if (pre =? 0)%nat then 3%nat else pre in
    match commaGroups (String.substring pre (String.length s - pre) s) with
    | Some g => Some (String.append (String.substring 0 pre s) g)
    | None => None
    end.

(** [s] is empty or starts with a byte that is not white space. *)
Definition headNotSpace (s : string) : bool :=
  match s with
  | EmptyString => true
  | String c _ => negb (GoStrings.isSpace c)
  end.

(** The 53-bit mantissa of a positive integer of at most 53 bits. *)
Definition norm53 (p : positive) : positive :=
  Nat.iter (Z.to_nat (53 - Zpos (digits2_pos p))) xO p.

(** Every byte of [s] satisfies [P]. *)
Fixpoint allBytes (P : ascii -> bool) (s : string) : bool :=
  match s with
  | EmptyString => true
  | String c s' => P c && allBytes P s'
  end.

(** A byte below 128.  [strings.ToLower] and [strings.TrimSpace] are
    embedded for texts made of such bytes. *)
Definition isASCII (c : ascii) : bool := (nat_of_ascii c <? 128)%nat.

(** The value of a string of decimal digits, continuing from [acc]. *)
Fixpoint valDigits (acc : Z) (s : string) : Z :=
  match s with
  | EmptyString => acc
  | String c s' => valDigits (acc * 10 + GoStrconv.digitVal c) s'
  end.

(** The bytes of a decimal integer, and those with the comma added. *)
Definition isDigitOrMinus (c : ascii) : bool :=
  GoStrconv.isDigit c || Ascii.eqb c "-".

Definition isPlain (c : ascii) : bool :=
  GoStrconv.isDigit c || Ascii.eqb c "-" || Ascii.eqb c ",".

(** The decimal digits of a positive number. *)
Definition digitsOf (p : positive) : string :=
  NilEmpty.string_of_uint (Pos.to_uint p).

(** A decimal text: an optional minus sign in front of digits. *)
Definition signed (neg : bool) (digits : string) : string :=
  if neg then String "-" digits else digits.

(** A byte that [strings.ToLower] keeps and [strings.TrimSpace] does not
    cut. *)
Definition quiet (c : ascii) : bool :=
  Ascii.eqb (GoStrings.lowerByte c) c && negb (GoStrings.isSpace c).

(** The suffixes of [parseGP] and their multipliers. *)
Inductive Suffix : Type := noSuffix | suffixK | suffixM | suffixB.

Definition suffixText (sfx : Suffix) : string :=
  match sfx with
  | noSuffix => ""
  | suffixK => "k"
  | suffixM => "m"
  | suffixB => "b"
  end.

Definition scalePos (sfx : Suffix) : positive :=
  match sfx with
  | noSuffix => 1
  | suffixK => 1000
  | suffixM => 1000000
  | suffixB => 1000000000
  end.

Definition suffixScale (sfx : Suffix) : Z := Zpos (scalePos sfx).

(** The multiplier and the number text [parseGP] takes from its normalised
    input. *)
Definition splitSuffix (input : string) : spec_float * string :=
  if GoStrings.HasSuffixByte "k" input then
    (Float64.ofZ 1000, GoStrings.TrimSuffixByte "k" input)
  else if GoStrings.HasSuffixByte "m" input then
    (Float64.ofZ 1000000, GoStrings.TrimSuffixByte "m" input)
  else if GoStrings.HasSuffixByte "b" input then
    (Float64.ofZ 1000000000, GoStrings.TrimSuffixByte "b" input)
  else (Float64.ofZ 1, input).

(** ** The command-line program

    Its [parseGP] is, line for line, the one of the dashboard. *)

Module CLI.

(** [comma] of the command-line program: the text of [n] is grouped as it
    comes out of [FormatInt], a minus sign counted like a digit. *)
Definition comma (n : Z) : option string :=
  let s := FormatInt n in
  if (String.length s <=? 3)%nat then Some s
  else
    let pre := (String.length s mod 3)%nat in
    let pre := if (pre =? 0)%nat then 3%nat else pre in
    match commaGroups (String.substring pre (String.length s - pre) s) with
    | Some g => Some (String.append (String.substring 0 pre s) g)
    | None => None
    end.

End CLI.

(** Whether grouping the text [d] with one more byte in front puts a comma
    right behind that byte. *)
Definition fullGroups (d : string) : bool :=
  (3 <=? String.length d)%nat && (String.length d mod 3 =? 0)%nat.

(** ** The dashboard's input fields *)

(** The field paths the dashboard's five input fields pass to [apply]. *)
Definition dashboardFields : list string :=
  ["shale.avg"; "shard.avg"; "armor1.avg"; "armor2.avg"; "armor3.avg"].

(** What no input field of the dashboard can reach. *)
Definition highLow (t : PriceTriple) : Z * Z := (High t, Low t).

Definition fixedPart (a : ArmorOption) : string * Z * (Z * Z) :=
  (Name a, ItemID a, highLow (Price a)).

(** Same name and same high sale price. *)
Definition sameHighSale (a b : ArmorReport) : Prop :=
  RName a = RName b /\ High (Sale a) = High (Sale b).

(** The states the variable [state] of [RunTUI] can hold when the program
    starts without a cache file and no cache file is loaded: the default
    state, a state a successful fetch returned, and what an edit makes of
    such a state.  A failed fetch and a save leave the variable as it
    is. *)
Inductive reachable (unrepresentable : spec_float -> Z) : AppState -> Prop :=
  | reach_default : reachable unrepresentable defaultState
  | reach_fetch {T : Type} (httpLatest : Z -> T + gmap string latestRow)
      (now : GoTime.Instant) (state : AppState) :
      FetchStateFromAPI httpLatest now = inl state ->
      reachable unrepresentable state
  | reach_edit (state : AppState) (field text : string) :
      reachable unrepresentable state ->
      reachable unrepresentable
        (fst (applyEdit unrepresentable state field text)).

(** The three items of the program, in their order. *)
Definition threeItems (state : AppState) : Prop :=
  map Name (Armors state)
  = ["Oathplate Helmet"; "Oathplate Chestplate"; "Oathplate Legs"]
  /\ map ItemID (Armors state) = [armorID1; armorID2; armorID3].

(** ** The parser's product and its rounding *)

(** The float64 product [number * multiplier] of [parseGP], or the error of
    [strconv.ParseFloat]. *)
Definition floatProduct (input : string) : spec_float + GoStrconv.NumError :=
  let '(multiplier, text) :=
    splitSuffix
      (GoStrings.RemoveByte ","
         (GoStrings.TrimSpace (GoStrings.ToLower input))) in
  match GoStrconv.ParseFloat text with
  | inr err => inr err
  | inl number => inl (Float64.mul number multiplier)
  end.

(** [n] is the integer nearest to [m * 2^e], a half going up. *)
Definition nearestToBinary (m e n : Z) : Prop :=
  (0 <= e -> n = m * 2 ^ e)
  /\ (e < 0 -> 2 * m - 2 ^ (- e) < 2 * n * 2 ^ (- e) <= 2 * m + 2 ^ (- e)).

(** The rounding the specification names: the integer nearest to
    [num / den], for [0 < den], a half going away from zero. *)
Definition roundHalfAway (num den : Z) : Z :=
  Z.sgn num * ((2 * Z.abs num + den) / (2 * den)).

(** * Properties *)

(** Case analysis on every test of a chain of conditionals. *)
Ltac case_ifs :=
  repeat match goal with
         | |- context [if ?b then _ else _] => destruct b
         end.

(** ** Arithmetic modulo [2^64] *)

Section Int64Facts.

Lemma wrap_in_range (z : Z) : Int64.in_range z -> Int64.wrap z = z.
Proof.
  unfold Int64.in_range, Int64.wrap, Int64.modulus, Int64.MinInt64,
    Int64.MaxInt64.
  intros H. rewrite Z.mod_small; lia.
Qed.

Lemma wrap_range (z : Z) : Int64.in_range (Int64.wrap z).
Proof.
  unfold Int64.in_range, Int64.wrap, Int64.modulus, Int64.MinInt64,
    Int64.MaxInt64.
  pose proof (Z.mod_pos_bound (z + 2 ^ 63) (2 ^ 64) ltac:(lia)). lia.
Qed.

(** [wrap z] differs from [z] by a multiple of the modulus. *)
Lemma wrap_eqm (z : Z) : exists k, Int64.wrap z = z + k * Int64.modulus.
Proof.
  exists (- ((z + 2 ^ 63) / Int64.modulus)).
  unfold Int64.wrap. rewrite Z.mod_eq by (unfold Int64.modulus; lia). lia.
Qed.

Lemma wrap_shift (z k : Z) :
  Int64.wrap (z + k * Int64.modulus) = Int64.wrap z.
Proof.
  unfold Int64.wrap.
  replace (z + k * Int64.modulus + 2 ^ 63)
    with (z + 2 ^ 63 + k * Int64.modulus) by lia.
  rewrite Z_mod_plus_full. reflexivity.
Qed.

Lemma wrap_add_wrap (a b : Z) :
  Int64.wrap (Int64.wrap a + Int64.wrap b) = Int64.wrap (a + b).
Proof.
  destruct (wrap_eqm a) as [ka ->]. destruct (wrap_eqm b) as [kb ->].
  replace (a + ka * Int64.modulus + (b + kb * Int64.modulus))
    with (a + b + (ka + kb) * Int64.modulus) by lia.
  apply wrap_shift.
Qed.

Lemma quot_100_bounds (z : Z) :
  Z.abs (Z.quot z 100) <= Z.abs z
  /\ (0 <= z -> 0 <= Z.quot z 100)
  /\ (z <= 0 -> Z.quot z 100 <= 0).
Proof.
  pose proof (Z.quot_rem' z 100) as Hq.
  pose proof (Z.rem_bound_pos z 100) as Hp.
  pose proof (Z.rem_bound_pos_neg z 100) as Hn.
  lia.
Qed.

End Int64Facts.

(** ** First maximum of a scan *)

Section FirstMax.

Context {A : Type} (key : A -> Z).

Lemma firstMaxAt_singleton (x : A) : firstMaxAt key [x] 0 x.
Proof.
  repeat split; intros.
  - destruct j as [|j]; simpl in *; [ | destruct j; discriminate ].
    injection H as ->. lia.
  - lia.
Qed.

Lemma firstMaxAt_snoc (l : list A) (i : nat) (best x : A) :
  firstMaxAt key l i best ->
  exists i', firstMaxAt key (l ++ [x]) i' (keepGreater key best x).
Proof.
  intros (Hi & Hmax & Hfirst). unfold keepGreater.
  destruct (Z.ltb_spec (key best) (key x)) as [Hlt | Hge].
  - exists (List.length l). repeat split.
    + rewrite lookup_app_r by lia. now rewrite Nat.sub_diag.
    + intros j y Hj. destruct (lookup_app_Some l [x] j y) as [Hcases _].
      destruct (Hcases Hj) as [Hl | [_ Hr]].
      * specialize (Hmax _ _ Hl). lia.
      * destruct (j - List.length l)%nat; simpl in Hr; [ | discriminate ].
        injection Hr as ->. lia.
    + intros j y Hj Hy. rewrite lookup_app_l in Hy by lia.
      specialize (Hmax _ _ Hy). lia.
  - exists i. repeat split.
    + apply lookup_app_l_Some. exact Hi.
    + intros j y Hj. destruct (lookup_app_Some l [x] j y) as [Hcases _].
      destruct (Hcases Hj) as [Hl | [_ Hr]].
      * exact (Hmax _ _ Hl).
      * destruct (j - List.length l)%nat; simpl in Hr; [ | discriminate ].
        injection Hr as ->. lia.
    + intros j y Hj Hy.
      assert (i < List.length l)%nat by (eapply lookup_lt_Some; eauto).
      rewrite lookup_app_l in Hy by lia. eauto.
Qed.

Lemma fold_keepGreater_firstMax (rest pre : list A) (i : nat) (best : A) :
  firstMaxAt key pre i best ->
  exists i',
    firstMaxAt key (pre ++ rest) i' (fold_left (keepGreater key) rest best).
Proof.
  revert pre i best. induction rest as [| x rest IH]; intros pre i best H.
  - exists i. now rewrite app_nil_r.
  - simpl. destruct (firstMaxAt_snoc pre i best x H) as [i1 H1].
    destruct (IH (pre ++ [x]) i1 _ H1) as [i2 H2].
    exists i2. now rewrite <- app_assoc in H2.
Qed.

Lemma scan_firstMax (x0 : A) (rest : list A) :
  exists i, firstMaxAt key (x0 :: rest) i (fold_left (keepGreater key) rest x0).
Proof.
  apply (fold_keepGreater_firstMax rest [x0] 0%nat x0).
  apply firstMaxAt_singleton.
Qed.

End FirstMax.

(** ** Ingredient cost *)

Lemma ingredientCost_wrap (now : GoTime.Instant) (state : AppState) (t : Tier) :
  tierPrice t (IngredientCost (ComputeReport now state))
  = Int64.wrap (2520 * tierPrice t (Shale state)
                + 450 * tierPrice t (Shard state)).
Proof.
  destruct t; cbn [ComputeReport ComputeReportTTL IngredientCost
    ingredientCostOf tierPrice Low Avg High];
    unfold Int64.add, Int64.mul, shaleNeeded, shardsNeeded;
    apply wrap_add_wrap.
Qed.

(** C4, as stated, fails: with a shale low price of [2^62] (an [int64]) the
    product [2520 * 2^62] wraps to 0, so the reported low-tier cost is 0 and
    not [2520 * 2^62 + 450 * 0]. *)
Lemma ingredientCost_overflow :
  Int64.in_range (Low (Shale hugeShaleState))
  /\ Low (IngredientCost (ComputeReport 0 hugeShaleState)) = 0
  /\ 2520 * Low (Shale hugeShaleState) + 450 * Low (Shard hugeShaleState)
     = 11621448766437017518080
  /\ Low (IngredientCost (ComputeReport 0 hugeShaleState))
     <> 2520 * Low (Shale hugeShaleState) + 450 * Low (Shard hugeShaleState).
Proof.
  repeat split; vm_compute; intros; easy.
Qed.

(** C4 (amended): for every snapshot and every tier at which
    [2520 * shale + 450 * shard] is representable as an [int64], the
    report's ingredient cost at that tier is exactly that number.  (Without
    the hypothesis the cost is that number modulo [2^64]:
    [ingredientCost_wrap].) *)
Theorem ingredientCost_exact (now : GoTime.Instant) (state : AppState)
  (t : Tier) :
  Int64.in_range (2520 * tierPrice t (Shale state)
                  + 450 * tierPrice t (Shard state)) ->
  tierPrice t (IngredientCost (ComputeReport now state))
  = 2520 * tierPrice t (Shale state) + 450 * tierPrice t (Shard state).
Proof.
  intros H. rewrite ingredientCost_wrap. now apply wrap_in_range.
Qed.

(** The specification's example: shale (10, 20, 30) and shard
    (100, 150, 200) cost (70200, 117900, 165600). *)
Lemma ingredientCost_exact_example :
  Low (IngredientCost (ComputeReport 0 exampleState)) = 70200
  /\ Avg (IngredientCost (ComputeReport 0 exampleState)) = 117900
  /\ High (IngredientCost (ComputeReport 0 exampleState)) = 165600.
Proof.
  split; [ | split ].
  - apply (ingredientCost_exact 0 exampleState TLow). vm_compute.
    split; discriminate.
  - apply (ingredientCost_exact 0 exampleState TAvg). vm_compute.
    split; discriminate.
  - apply (ingredientCost_exact 0 exampleState THigh). vm_compute.
    split; discriminate.
Defined.

(** ** Tax and profit *)

(** The case of a tier pairs the sale price of that tier with the
    ingredient cost of the same tier. *)
Lemma computeArmor_case (a : ArmorOption) (ic : PriceTriple) (t : Tier) :
  Cases (computeArmor a ic) !! tierIndex t
  = Some (computeCase (tierLabel t) (tierPrice t (Price a)) (tierPrice t ic)).
Proof. destruct t; reflexivity. Qed.

Lemma computeCase_no_overflow (label : string) (p cost : Z) :
  - 2 ^ 62 <= p < 2 ^ 62 ->
  Int64.in_range (p - Z.quot (p * 2) 100 - cost) ->
  TaxPaid (computeCase label p cost) = Z.quot (p * 2) 100
  /\ NetAfterTax (computeCase label p cost) = p - Z.quot (p * 2) 100
  /\ Profit (computeCase label p cost) = p - Z.quot (p * 2) 100 - cost.
Proof.
  intros Hp Hprofit.
  pose proof (quot_100_bounds (p * 2)) as (Habs & Hpos & Hneg).
  assert (Hmul : Int64.mul p 2 = p * 2).
  { apply wrap_in_range. unfold Int64.in_range, Int64.MinInt64, Int64.MaxInt64.
    lia. }
  assert (Hquo : Int64.quo (p * 2) 100 = Z.quot (p * 2) 100).
  { apply wrap_in_range. unfold Int64.in_range, Int64.MinInt64, Int64.MaxInt64.
    lia. }
  assert (Hnet : Int64.sub p (Z.quot (p * 2) 100) = p - Z.quot (p * 2) 100).
  { apply wrap_in_range. unfold Int64.in_range, Int64.MinInt64, Int64.MaxInt64.
    lia. }
  cbn [computeCase TaxPaid NetAfterTax Profit].
  rewrite Hmul, Hquo, Hnet. repeat split.
  now apply wrap_in_range.
Qed.

(** C3, as stated, fails: for the sale price [2^62] (an [int64]) the product
    [salePrice * 2] wraps to [-2^63]; the tax comes out negative, not
    [floor(2^63 / 100)], and the net exceeds the sale price. *)
Lemma computeCase_overflow :
  Int64.in_range 4611686018427387904
  /\ TaxPaid (computeCase "avg" 4611686018427387904 0) = -92233720368547758
  /\ 4611686018427387904 * 2 / 100 = 92233720368547758
  /\ Z.quot (4611686018427387904 * 2) 100 = 92233720368547758
  /\ TaxPaid (computeCase "avg" 4611686018427387904 0)
     <> Z.quot (4611686018427387904 * 2) 100
  /\ NetAfterTax (computeCase "avg" 4611686018427387904 0)
     = 4703919738795935662.
Proof.
  repeat split; vm_compute; intros; easy.
Qed.

(** C3 (amended): for every crafted item and tier whose sale price [p] lies
    in [[-2^62, 2^62)] (doubling it does not overflow) and for which
    [p - tax - cost] is representable as an [int64], the case of that tier
    carries the tier's label and sale price, the tax [(p * 2) / 100]
    truncated toward zero (the floor when [p] is not negative), the net
    [p - tax], and the profit [net - cost] with the ingredient cost of the
    same tier. *)
Theorem computeCase_exact (a : ArmorOption) (ic : PriceTriple) (t : Tier) :
  - 2 ^ 62 <= tierPrice t (Price a) < 2 ^ 62 ->
  Int64.in_range (tierPrice t (Price a)
                  - Z.quot (tierPrice t (Price a) * 2) 100
                  - tierPrice t ic) ->
  exists c : ProfitCase,
    Cases (computeArmor a ic) !! tierIndex t = Some c
    /\ SaleLabel c = tierLabel t
    /\ SalePrice c = tierPrice t (Price a)
    /\ TaxPaid c = Z.quot (tierPrice t (Price a) * 2) 100
    /\ (0 <= tierPrice t (Price a) ->
        TaxPaid c = tierPrice t (Price a) * 2 / 100)
    /\ NetAfterTax c = SalePrice c - TaxPaid c
    /\ Profit c = NetAfterTax c - tierPrice t ic.
Proof.
  intros Hp Hprofit.
  destruct (computeCase_no_overflow (tierLabel t) _ _ Hp Hprofit)
    as (Htax & Hnet & Hpro).
  eexists. split; [ apply computeArmor_case | ].
  rewrite Htax, Hnet, Hpro. cbn [SaleLabel SalePrice].
  repeat split.
  intros Hnn. apply Z.quot_div_nonneg; lia.
Qed.

(** The specification's examples: a sale price of 1,000,000 pays 20,000 in
    tax and nets 980,000; a sale price of 1 pays no tax. *)
Lemma computeCase_exact_examples :
  (exists c : ProfitCase,
     Cases (computeArmor exampleArmor (IngredientCost (ComputeReport 0 exampleState)))
       !! 1%nat = Some c
     /\ SalePrice c = 1000000 /\ TaxPaid c = 20000
     /\ NetAfterTax c = 980000 /\ Profit c = 980000 - 117900)
  /\ (exists c : ProfitCase,
     Cases (computeArmor exampleArmor (IngredientCost (ComputeReport 0 exampleState)))
       !! 0%nat = Some c
     /\ SalePrice c = 1 /\ TaxPaid c = 0
     /\ NetAfterTax c = 1 /\ Profit c = 1 - 70200).
Proof.
  split.
  - destruct (computeCase_exact exampleArmor
                (IngredientCost (ComputeReport 0 exampleState)) TAvg)
      as (c & Hc & _ & Hsale & Htax & _ & Hnet & Hpro).
    + vm_compute. split; [ discriminate | reflexivity ].
    + vm_compute. split; discriminate.
    + exists c. rewrite Hpro, Hnet, Hsale, Htax. split; [ exact Hc | ].
      vm_compute. repeat split.
  - destruct (computeCase_exact exampleArmor
                (IngredientCost (ComputeReport 0 exampleState)) TLow)
      as (c & Hc & _ & Hsale & Htax & _ & Hnet & Hpro).
    + vm_compute. split; [ discriminate | reflexivity ].
    + vm_compute. split; discriminate.
    + exists c. rewrite Hpro, Hnet, Hsale, Htax. split; [ exact Hc | ].
      vm_compute. repeat split.
Defined.

(** ** Freshness and the clock *)

Lemma Since_le_iff (now t d : Z) :
  GoTime.minDuration <= d < GoTime.maxDuration ->
  (GoTime.Since now t <= d <-> now - t <= d).
Proof.
  unfold GoTime.Since, GoTime.Sub. intros Hd.
  destruct (Z.ltb_spec (now - t) GoTime.minDuration);
    [ | destruct (Z.ltb_spec GoTime.maxDuration (now - t)) ];
    unfold GoTime.minDuration, GoTime.maxDuration, Int64.MinInt64,
      Int64.MaxInt64 in *; lia.
Qed.

Lemma cacheTTL_value : cacheTTL = 1200000000000.
Proof. reflexivity. Qed.

Lemma cacheTTL_is_duration :
  GoTime.minDuration <= cacheTTL < GoTime.maxDuration.
Proof. vm_compute. split; [ discriminate | reflexivity ]. Qed.

Lemma CacheAge_fetched (ttl : GoTime.Duration) (now : GoTime.Instant)
  (state : AppState) :
  GoTime.IsZero (FetchedAt state) = false ->
  CacheAge (ComputeReportTTL ttl now state) = GoTime.Since now (FetchedAt state)
  /\ CacheFresh (ComputeReportTTL ttl now state)
     = (GoTime.Since now (FetchedAt state) <=? ttl).
Proof.
  intros Hz. cbn [ComputeReportTTL CacheAge CacheFresh]. rewrite Hz.
  split; reflexivity.
Qed.

(** C5: for every snapshot with a non-zero fetch timestamp the report's age
    is the time elapsed since the timestamp, and the report is fresh exactly
    when that age is at most 20 minutes, equivalently when
    [now - FetchedAt <= 20 min]; the bound is inclusive: fresh at exactly
    20 minutes, stale one second (and already one nanosecond) later. *)
Theorem CacheFresh_iff (now : GoTime.Instant) (state : AppState) :
  GoTime.IsZero (FetchedAt state) = false ->
  CacheAge (ComputeReport now state) = GoTime.Since now (FetchedAt state)
  /\ (CacheFresh (ComputeReport now state) = true
      <-> CacheAge (ComputeReport now state) <= 20 * GoTime.Minute)
  /\ (CacheFresh (ComputeReport now state) = true
      <-> now - FetchedAt state <= 20 * GoTime.Minute)
  /\ CacheFresh (ComputeReport (FetchedAt state + 20 * GoTime.Minute) state)
     = true
  /\ CacheFresh
       (ComputeReport (FetchedAt state + 20 * GoTime.Minute + GoTime.Second)
          state) = false
  /\ CacheFresh
       (ComputeReport (FetchedAt state + 20 * GoTime.Minute + GoTime.Nanosecond)
          state) = false.
Proof.
  intros Hz. unfold ComputeReport.
  assert (Hiff : forall n, CacheFresh (ComputeReportTTL cacheTTL n state) = true
                           <-> n - FetchedAt state <= cacheTTL).
  { intros n. destruct (CacheAge_fetched cacheTTL n state Hz) as [_ ->].
    rewrite Z.leb_le. apply Since_le_iff, cacheTTL_is_duration. }
  destruct (CacheAge_fetched cacheTTL now state Hz) as [Hage Hfresh].
  change (20 * GoTime.Minute) with cacheTTL.
  split; [ exact Hage | ].
  split; [ rewrite Hage, Hfresh; apply Z.leb_le | ].
  split; [ apply Hiff | ].
  split; [ apply Hiff; lia | ].
  split; apply not_true_is_false; rewrite Hiff, cacheTTL_value;
    unfold GoTime.Second, GoTime.Nanosecond; lia.
Qed.

Lemma CacheFresh_iff_boundary :
  CacheFresh (ComputeReport (63900000000000000000 + 20 * GoTime.Minute)
                fetchedState) = true
  /\ CacheFresh
       (ComputeReport (63900000000000000000 + 20 * GoTime.Minute + GoTime.Second)
          fetchedState) = false.
Proof.
  destruct (CacheFresh_iff 0 fetchedState) as (_ & _ & _ & Hin & Hout & _).
  - reflexivity.
  - split; [ exact Hin | exact Hout ].
Defined.

(** C10: for every snapshot whose fetch timestamp is zero, whatever the
    time-to-live and the clock, the report is not fresh and has age 0; it
    carries the snapshot's two ingredient triples, and its item reports are
    the reports of the snapshot's items, one per item and in the same
    order, for a list of any length. *)
Theorem never_fetched_report (ttl : GoTime.Duration) (now : GoTime.Instant)
  (state : AppState) :
  GoTime.IsZero (FetchedAt state) = true ->
  CacheFresh (ComputeReportTTL ttl now state) = false
  /\ CacheAge (ComputeReportTTL ttl now state) = 0
  /\ RShale (ComputeReportTTL ttl now state) = Shale state
  /\ RShard (ComputeReportTTL ttl now state) = Shard state
  /\ List.length (RArmors (ComputeReportTTL ttl now state))
     = List.length (Armors state)
  /\ map RName (RArmors (ComputeReportTTL ttl now state))
     = map Name (Armors state)
  /\ map RItemID (RArmors (ComputeReportTTL ttl now state))
     = map ItemID (Armors state)
  /\ map Sale (RArmors (ComputeReportTTL ttl now state))
     = map Price (Armors state)
  /\ (forall i : nat,
        RArmors (ComputeReportTTL ttl now state) !! i
        = option_map
            (fun a => computeArmor a
                        (IngredientCost (ComputeReportTTL ttl now state)))
            (Armors state !! i)).
Proof.
  intros Hz. cbn [ComputeReportTTL CacheFresh CacheAge RShale RShard RArmors
    IngredientCost]. rewrite Hz. cbn [negb andb].
  repeat split.
  - apply length_map.
  - rewrite map_map. reflexivity.
  - rewrite map_map. reflexivity.
  - rewrite map_map. reflexivity.
  - intros i. apply list_lookup_fmap.
Qed.

(** With no item at all both recommendations are the zero-valued item
    report. *)
Lemma empty_list_recommendations (ttl : GoTime.Duration)
  (now : GoTime.Instant) (state : AppState) :
  Armors state = [] ->
  RArmors (ComputeReportTTL ttl now state) = []
  /\ BestByAvgProfit (ComputeReportTTL ttl now state) = zeroArmorReport
  /\ BestByHighSale (ComputeReportTTL ttl now state) = zeroArmorReport.
Proof.
  intros Hnil. cbn [ComputeReportTTL RArmors BestByAvgProfit BestByHighSale].
  rewrite Hnil. repeat split.
Qed.

Lemma never_fetched_report_default :
  CacheFresh (ComputeReportTTL cacheTTL 63900000000000000000 defaultState)
  = false
  /\ CacheAge (ComputeReportTTL cacheTTL 63900000000000000000 defaultState) = 0
  /\ map RName (RArmors (ComputeReportTTL cacheTTL 63900000000000000000
                           defaultState))
     = ["Oathplate Helmet"; "Oathplate Chestplate"; "Oathplate Legs"].
Proof.
  destruct (never_fetched_report cacheTTL 63900000000000000000 defaultState)
    as (Hfresh & Hage & _ & _ & _ & Hnames & _).
  - reflexivity.
  - split; [ exact Hfresh | split; [ exact Hage | exact Hnames ] ].
Defined.

(** ** Determinism *)

(** What does not depend on the clock: two computations on the same
    snapshot agree on every field other than the age and the freshness
    flag; they agree on the whole report when the two clock readings are at
    the same distance from the fetch timestamp, and always when the fetch
    timestamp is zero. *)
Lemma ComputeReport_clock_frame (now1 now2 : GoTime.Instant)
  (state : AppState) :
  clockFree (ComputeReport now1 state) = clockFree (ComputeReport now2 state)
  /\ (GoTime.Since now1 (FetchedAt state) = GoTime.Since now2 (FetchedAt state)
      -> ComputeReport now1 state = ComputeReport now2 state)
  /\ (GoTime.IsZero (FetchedAt state) = true
      -> ComputeReport now1 state = ComputeReport now2 state).
Proof.
  split; [ reflexivity | ]. split.
  - intros Hsame. unfold ComputeReport, ComputeReportTTL.
    rewrite Hsame. reflexivity.
  - intros Hz. unfold ComputeReport, ComputeReportTTL.
    rewrite Hz. reflexivity.
Qed.

(** C1 (the code departs from it): the program files [ComputeReport] under
    "COMPUTE (pure)", and the report is to be the same for the same
    snapshot; but the function reads the clock through [time.Since].  Two
    calls on the same fetched snapshot, taken one and two nanoseconds after
    the fetch, return the ages 1 and 2, hence different reports; taken
    20 minutes after the fetch and one nanosecond later, the first report
    is fresh and the second is not. *)
Theorem ComputeReport_reads_clock :
  GoTime.IsZero (FetchedAt fetchedState) = false
  /\ CacheAge (ComputeReport (FetchedAt fetchedState + 1) fetchedState) = 1
  /\ CacheAge (ComputeReport (FetchedAt fetchedState + 2) fetchedState) = 2
  /\ ComputeReport (FetchedAt fetchedState + 1) fetchedState
     <> ComputeReport (FetchedAt fetchedState + 2) fetchedState
  /\ CacheFresh (ComputeReport (FetchedAt fetchedState + cacheTTL) fetchedState)
     = true
  /\ CacheFresh
       (ComputeReport (FetchedAt fetchedState + cacheTTL + 1) fetchedState)
     = false.
Proof.
  repeat split; try reflexivity.
  intros H. apply (f_equal CacheAge) in H. vm_compute in H. discriminate.
Qed.

(** ** Best case of an item *)

Lemma betterCase_keepGreater : betterCase = keepGreater Profit.
Proof. reflexivity. Qed.

Lemma computeArmor_BestCase (a : ArmorOption) (ic : PriceTriple) :
  exists i : nat,
    firstMaxAt Profit (Cases (computeArmor a ic)) i
      (BestCase (computeArmor a ic)).
Proof.
  cbn [computeArmor Cases BestCase]. rewrite betterCase_keepGreater.
  apply scan_firstMax.
Qed.

Lemma RArmors_lookup (now : GoTime.Instant) (state : AppState) (k : nat)
  (r : ArmorReport) :
  RArmors (ComputeReport now state) !! k = Some r ->
  exists a : ArmorOption,
    Armors state !! k = Some a
    /\ r = computeArmor a (IngredientCost (ComputeReport now state)).
Proof.
  cbn [ComputeReport ComputeReportTTL RArmors IngredientCost].
  rewrite list_lookup_fmap. destruct (Armors state !! k) as [a |]; simpl.
  - intros [= <-]. now exists a.
  - discriminate.
Qed.

(** C7: every item report of a report lists its three cases in the order
    low, avg, high, and its best case is one of them with the greatest
    profit; of several cases with that profit it is the first in this
    order. *)
Theorem BestCase_first_max (now : GoTime.Instant) (state : AppState)
  (k : nat) (r : ArmorReport) :
  RArmors (ComputeReport now state) !! k = Some r ->
  map SaleLabel (Cases r) = ["low"; "avg"; "high"]
  /\ exists i : nat,
       Cases r !! i = Some (BestCase r)
       /\ (forall j c, Cases r !! j = Some c -> Profit c <= Profit (BestCase r))
       /\ (forall j c, (j < i)%nat -> Cases r !! j = Some c ->
                       Profit c < Profit (BestCase r)).
Proof.
  intros Hr. destruct (RArmors_lookup now state k r Hr) as (a & _ & ->).
  split; [ reflexivity | ].
  apply computeArmor_BestCase.
Qed.

(** With all prices zero the three profits are equal and the best case is
    the low one. *)
Lemma BestCase_first_max_tie :
  exists r : ArmorReport,
    RArmors (ComputeReport 0 defaultState) !! 0%nat = Some r
    /\ map Profit (Cases r) = [0; 0; 0]
    /\ SaleLabel (BestCase r) = "low"
    /\ exists i : nat,
         Cases r !! i = Some (BestCase r)
         /\ (forall j c, Cases r !! j = Some c ->
                         Profit c <= Profit (BestCase r))
         /\ (forall j c, (j < i)%nat -> Cases r !! j = Some c ->
                         Profit c < Profit (BestCase r)).
Proof.
  eexists. split; [ reflexivity | ].
  split; [ reflexivity | ]. split; [ reflexivity | ].
  apply (BestCase_first_max 0 defaultState 0). reflexivity.
Defined.

(** ** Best item by average profit *)

Lemma fold_avgStep (rest : list ArmorReport) (best : ArmorReport) :
  fold_left avgStep rest (best, avgProfit best)
  = (fold_left (keepGreater avgProfit) rest best,
     avgProfit (fold_left (keepGreater avgProfit) rest best)).
Proof.
  revert best. induction rest as [| a rest IH]; intros best; [ reflexivity | ].
  cbn [fold_left]. unfold avgStep at 2, keepGreater at 2 4. cbn [snd].
  fold (avgProfit a).
  destruct (avgProfit best <? avgProfit a); apply IH.
Qed.

Lemma pickBestByAvgProfit_first_max (armors : list ArmorReport) :
  armors <> [] ->
  exists i : nat, firstMaxAt avgProfit armors i (pickBestByAvgProfit armors).
Proof.
  destruct armors as [| a0 rest]; [ congruence | intros _ ].
  cbn [pickBestByAvgProfit]. fold (avgProfit a0).
  rewrite fold_avgStep. cbn [fst]. apply scan_firstMax.
Qed.

(** The avg profit the loop compares is the profit of the item's avg-tier
    case. *)
Lemma avgProfit_computeArmor (a : ArmorOption) (ic : PriceTriple) :
  avgProfit (computeArmor a ic)
  = Profit (computeCase "avg" (Avg (Price a)) (Avg ic)).
Proof. reflexivity. Qed.

(** C6: for every snapshot with a non-empty item list, the report's
    best-by-average-profit item is one of the item reports, at some index
    [i]; the profit of its avg-tier case is at least that of every item
    report and strictly greater than that of every item report in front of
    index [i], so that among several items with the greatest avg-tier
    profit it is the first in list order. *)
Theorem BestByAvgProfit_first_max (now : GoTime.Instant) (state : AppState) :
  Armors state <> [] ->
  exists (i : nat) (a : ArmorOption),
    Armors state !! i = Some a
    /\ BestByAvgProfit (ComputeReport now state)
       = computeArmor a (IngredientCost (ComputeReport now state))
    /\ RArmors (ComputeReport now state) !! i
       = Some (BestByAvgProfit (ComputeReport now state))
    /\ Cases (BestByAvgProfit (ComputeReport now state)) !! 1%nat
       = Some (computeCase "avg" (Avg (Price a))
                 (Avg (IngredientCost (ComputeReport now state))))
    /\ (forall j b, Armors state !! j = Some b ->
          Profit (computeCase "avg" (Avg (Price b))
                    (Avg (IngredientCost (ComputeReport now state))))
          <= Profit (computeCase "avg" (Avg (Price a))
                       (Avg (IngredientCost (ComputeReport now state)))))
    /\ (forall j b, (j < i)%nat -> Armors state !! j = Some b ->
          Profit (computeCase "avg" (Avg (Price b))
                    (Avg (IngredientCost (ComputeReport now state))))
          < Profit (computeCase "avg" (Avg (Price a))
                      (Avg (IngredientCost (ComputeReport now state))))).
Proof.
  intros Hne.
  set (ic := IngredientCost (ComputeReport now state)).
  assert (Hrs : RArmors (ComputeReport now state)
                = map (fun a => computeArmor a ic) (Armors state))
    by reflexivity.
  assert (Hbest : BestByAvgProfit (ComputeReport now state)
                  = pickBestByAvgProfit (RArmors (ComputeReport now state)))
    by reflexivity.
  destruct (pickBestByAvgProfit_first_max (RArmors (ComputeReport now state)))
    as (i & Hi & Hmax & Hfirst).
  { rewrite Hrs. destruct (Armors state); [ congruence | discriminate ]. }
  rewrite <- Hbest in Hi, Hmax, Hfirst.
  destruct (RArmors_lookup now state i _ Hi) as (a & Ha & Hra). fold ic in Hra.
  exists i, a. split; [ exact Ha | ]. split; [ exact Hra | ].
  split; [ exact Hi | ]. split; [ rewrite Hra; reflexivity | ].
  assert (Hlook : forall j b, Armors state !! j = Some b ->
            RArmors (ComputeReport now state) !! j = Some (computeArmor b ic)).
  { intros j b Hb. rewrite Hrs, list_lookup_fmap, Hb. reflexivity. }
  split.
  - intros j b Hb. specialize (Hmax j _ (Hlook j b Hb)).
    rewrite Hra, !avgProfit_computeArmor in Hmax. exact Hmax.
  - intros j b Hlt Hb. specialize (Hfirst j _ Hlt (Hlook j b Hb)).
    rewrite Hra, !avgProfit_computeArmor in Hfirst. exact Hfirst.
Qed.

Lemma BestByAvgProfit_first_max_tie :
  RName (BestByAvgProfit (ComputeReport 0 tieState)) = "Oathplate Helmet"
  /\ map avgProfit (RArmors (ComputeReport 0 tieState))
     = [666100; 666100; 372100]
  /\ exists (i : nat) (a : ArmorOption),
       Armors tieState !! i = Some a
       /\ BestByAvgProfit (ComputeReport 0 tieState)
          = computeArmor a (IngredientCost (ComputeReport 0 tieState)).
Proof.
  split; [ reflexivity | ]. split; [ reflexivity | ].
  destruct (BestByAvgProfit_first_max 0 tieState) as (i & a & Ha & Hb & _).
  - discriminate.
  - exists i, a. split; [ exact Ha | exact Hb ].
Defined.

(** ** Manual set: the frame of a successful edit *)

Lemma ApplyManualSet_shale_all (state : AppState) (val : Z) :
  ApplyManualSet state "shale" val
  = (setShale state {| High := val; Low := val; Avg := val |}, None).
Proof. reflexivity. Qed.

Lemma ApplyManualSet_shale_high (state : AppState) (val : Z) :
  ApplyManualSet state "shale.high" val
  = (setShale state
       {| High := val; Low := Low (Shale state); Avg := Avg (Shale state) |},
     None).
Proof. reflexivity. Qed.

(** C2: on every snapshot, setting the field [shale] (the specification's
    ingredient A) to 500 succeeds and makes the shale triple
    high = low = avg = 500; then setting [shale.high] to 700 succeeds and
    makes high = 700 while low = avg = 500.  Both edits leave the shard
    triple, the item list, the fetch timestamp and the mode as they
    were. *)
Theorem ApplyManualSet_all_then_high (state : AppState) :
  exists s1 s2 : AppState,
    ApplyManualSet state "shale" 500 = (s1, None)
    /\ Shale s1 = {| High := 500; Low := 500; Avg := 500 |}
    /\ Shard s1 = Shard state
    /\ Armors s1 = Armors state
    /\ FetchedAt s1 = FetchedAt state
    /\ Mode s1 = Mode state
    /\ ApplyManualSet s1 "shale.high" 700 = (s2, None)
    /\ Shale s2 = {| High := 700; Low := 500; Avg := 500 |}
    /\ Shard s2 = Shard state
    /\ Armors s2 = Armors state
    /\ FetchedAt s2 = FetchedAt state
    /\ Mode s2 = Mode state.
Proof.
  exists (setShale state {| High := 500; Low := 500; Avg := 500 |}).
  exists (setShale state {| High := 700; Low := 500; Avg := 500 |}).
  rewrite ApplyManualSet_shale_all, ApplyManualSet_shale_high.
  repeat split.
Qed.

(** ** Manual set: the error path *)

Lemma setTriple_error (component : string) (val : Z) (t t' : PriceTriple)
  (e : SetError) :
  setTriple component val t = (t', Some e) ->
  t' = t /\ e = errUnknownComponent component.
Proof.
  unfold setTriple.
  case_ifs; intros [= <- <-]; split; reflexivity.
Qed.

Lemma setShale_id (state : AppState) : setShale state (Shale state) = state.
Proof. destruct state; reflexivity. Qed.

Lemma setShard_id (state : AppState) : setShard state (Shard state) = state.
Proof. destruct state; reflexivity. Qed.

Lemma setArmors_id (state : AppState) : setArmors state (Armors state) = state.
Proof. destruct state; reflexivity. Qed.

Lemma setPrice_id (a : ArmorOption) : setPrice a (Price a) = a.
Proof. destruct a; reflexivity. Qed.

Lemma setArmor_error (state state' : AppState) (component : string) (val : Z)
  (idx : nat) (e : SetError) :
  setArmor state component val idx = (state', Some e) -> state' = state.
Proof.
  unfold setArmor. destruct (List.length (Armors state) <? 3)%nat.
  - now intros [= <- _].
  - destruct (Armors state !! idx) as [a |] eqn:Ha; [ | now intros [= <- _] ].
    destruct (setTriple component val (Price a)) as [t [e' |]] eqn:Ht;
      intros [= <- He].
    apply setTriple_error in Ht as [-> _].
    rewrite setPrice_id, list_insert_id by exact Ha. apply setArmors_id.
Qed.

Lemma applyTarget_error (state state' : AppState) (target component : string)
  (val : Z) (e : SetError) :
  applyTarget state target component val = (state', Some e) -> state' = state.
Proof.
  unfold applyTarget.
  destruct (String.eqb target "shale").
  { destruct (setTriple component val (Shale state)) as [t [e' |]] eqn:Ht;
      intros [= <- He].
    apply setTriple_error in Ht as [-> _]. apply setShale_id. }
  destruct (String.eqb target "shard").
  { destruct (setTriple component val (Shard state)) as [t [e' |]] eqn:Ht;
      intros [= <- He].
    apply setTriple_error in Ht as [-> _]. apply setShard_id. }
  destruct (String.eqb target "armor1" || String.eqb target "armor2"
            || String.eqb target "armor3").
  - apply setArmor_error.
  - now intros [= <- _].
Qed.

(** Whatever the field and the value, a call that returns an error leaves
    the snapshot as it was. *)
Lemma ApplyManualSet_error_unchanged (state state' : AppState)
  (field : string) (val : Z) (e : SetError) :
  ApplyManualSet state field val = (state', Some e) -> state' = state.
Proof.
  unfold ApplyManualSet.
  destruct (GoStrings.SplitByte "." field) as [| target [| component [| ? ?]]].
  - now intros [= <- _].
  - apply applyTarget_error.
  - apply applyTarget_error.
  - now intros [= <- _].
Qed.

Lemma armorIndex_lt (target : string) : (armorIndex target < 3)%nat.
Proof.
  unfold armorIndex.
  case_ifs; lia.
Qed.

(** The index expression [state.Armors[idx]] never panics. *)
Lemma ApplyManualSet_no_panic (state : AppState) (field : string) (val : Z) :
  snd (ApplyManualSet state field val) <> Some panicIndex.
Proof.
  assert (Hsplit : GoStrings.SplitByte "." field <> []).
  { destruct field as [| c s]; [ discriminate | ]. simpl.
    destruct (Ascii.eqb c "."); [ discriminate | ].
    destruct (GoStrings.SplitByte "." s); discriminate. }
  assert (Htarget : forall target component,
            snd (applyTarget state target component val) <> Some panicIndex).
  { intros target component. unfold applyTarget.
    assert (Hset : forall t, snd (setTriple component val t)
                             <> Some panicIndex).
    { intros t. unfold setTriple.
      case_ifs; discriminate. }
    destruct (String.eqb target "shale").
    { specialize (Hset (Shale state)).
      destruct (setTriple component val (Shale state)); exact Hset. }
    destruct (String.eqb target "shard").
    { specialize (Hset (Shard state)).
      destruct (setTriple component val (Shard state)); exact Hset. }
    destruct (String.eqb target "armor1" || String.eqb target "armor2"
              || String.eqb target "armor3"); [ | discriminate ].
    unfold setArmor.
    destruct (Nat.ltb_spec (List.length (Armors state)) 3) as [Hlt | Hge];
      [ discriminate | ].
    pose proof (armorIndex_lt target) as Hidx.
    destruct (lookup_lt_is_Some_2 (Armors state) (armorIndex target)
                ltac:(lia)) as [a ->].
    specialize (Hset (Price a)).
    destruct (setTriple component val (Price a)); exact Hset. }
  unfold ApplyManualSet.
  destruct (GoStrings.SplitByte "." field) as [| target [| component [| ? ?]]];
    [ congruence | apply Htarget | apply Htarget | discriminate ].
Qed.

(** ** Manual set: which fields are refused *)

Lemma SplitByte_noDot (s : string) :
  noDot s = true -> GoStrings.SplitByte "." s = [s].
Proof.
  induction s as [| c s IH]; [ reflexivity | ]. simpl.
  destruct (Ascii.eqb c "."); [ discriminate | ]. simpl.
  intros H. rewrite (IH H). reflexivity.
Qed.

Lemma SplitByte_dotted (target rest : string) :
  noDot target = true ->
  GoStrings.SplitByte "." (dotted target rest)
  = target :: GoStrings.SplitByte "." rest.
Proof.
  unfold dotted. induction target as [| c s IH]; [ reflexivity | ]. simpl.
  destruct (Ascii.eqb c "."); [ discriminate | ]. simpl.
  intros H. rewrite (IH H). reflexivity.
Qed.

Lemma ApplyManualSet_dotted (state : AppState) (target component : string)
  (val : Z) :
  noDot target = true -> noDot component = true ->
  ApplyManualSet state (dotted target component) val
  = applyTarget state target component val.
Proof.
  intros Ht Hc. unfold ApplyManualSet.
  rewrite (SplitByte_dotted _ _ Ht), (SplitByte_noDot _ Hc). reflexivity.
Qed.

Lemma ApplyManualSet_plain (state : AppState) (target : string) (val : Z) :
  noDot target = true ->
  ApplyManualSet state target val = applyTarget state target "" val.
Proof.
  intros Ht. unfold ApplyManualSet. rewrite (SplitByte_noDot _ Ht).
  reflexivity.
Qed.

Lemma applyTarget_unknown_target (state : AppState)
  (target component : string) (val : Z) :
  knownTarget target = false ->
  applyTarget state target component val = (state, Some errUnknownField).
Proof.
  unfold knownTarget, applyTarget. intros H.
  destruct (String.eqb target "shale"); [ discriminate | ].
  destruct (String.eqb target "shard"); [ discriminate | ].
  destruct (String.eqb target "armor1"); [ discriminate | ].
  destruct (String.eqb target "armor2"); [ discriminate | ].
  destruct (String.eqb target "armor3"); [ discriminate | reflexivity ].
Qed.

Lemma setTriple_unknown_component (component : string) (val : Z)
  (t : PriceTriple) :
  component <> "" -> knownComponent component = false ->
  setTriple component val t = (t, Some (errUnknownComponent component)).
Proof.
  unfold knownComponent, setTriple. intros Hne H.
  destruct (String.eqb_spec component ""); [ congruence | ].
  destruct (String.eqb component "high"); [ discriminate | ].
  destruct (String.eqb component "low"); [ discriminate | ].
  destruct (String.eqb component "avg"); [ discriminate | reflexivity ].
Qed.

(** An unrecognized target is refused, with or without a component, and the
    snapshot is returned as it was. *)
Lemma ApplyManualSet_unknown_target (state : AppState)
  (target component : string) (val : Z) :
  noDot target = true -> noDot component = true ->
  knownTarget target = false ->
  ApplyManualSet state target val = (state, Some errUnknownField)
  /\ ApplyManualSet state (dotted target component) val
     = (state, Some errUnknownField).
Proof.
  intros Ht Hc Hk. rewrite ApplyManualSet_plain, ApplyManualSet_dotted by auto.
  split; now apply applyTarget_unknown_target.
Qed.

(** A component that is not empty and not one of [high], [low], [avg] is
    refused, and the snapshot is returned as it was. *)
Lemma ApplyManualSet_unknown_component (state : AppState)
  (target component : string) (val : Z) :
  noDot target = true -> noDot component = true ->
  knownTarget target = true ->
  component <> "" -> knownComponent component = false ->
  exists e : SetError,
    ApplyManualSet state (dotted target component) val = (state, Some e).
Proof.
  intros Ht Hc Hk Hne Hcomp. rewrite ApplyManualSet_dotted by auto.
  unfold applyTarget.
  destruct (String.eqb target "shale").
  { rewrite setTriple_unknown_component by auto.
    rewrite setShale_id. eauto. }
  destruct (String.eqb target "shard").
  { rewrite setTriple_unknown_component by auto.
    rewrite setShard_id. eauto. }
  destruct (String.eqb target "armor1" || String.eqb target "armor2"
            || String.eqb target "armor3"); [ | eauto ].
  unfold setArmor. destruct (List.length (Armors state) <? 3)%nat; [ eauto | ].
  destruct (Armors state !! armorIndex target) as [a |] eqn:Ha; [ | eauto ].
  rewrite setTriple_unknown_component by auto.
  rewrite setPrice_id, list_insert_id, setArmors_id by exact Ha. eauto.
Qed.

(** An item slot is refused while the list has fewer than three entries. *)
Lemma ApplyManualSet_short_list (state : AppState)
  (target component : string) (val : Z) :
  noDot component = true ->
  isArmorTarget target = true ->
  (List.length (Armors state) < 3)%nat ->
  ApplyManualSet state target val = (state, Some errArmorListNotInitialized)
  /\ ApplyManualSet state (dotted target component) val
     = (state, Some errArmorListNotInitialized).
Proof.
  intros Hc Harmor Hlen.
  assert (Ht : noDot target = true).
  { unfold isArmorTarget in Harmor.
    destruct (String.eqb_spec target "armor1") as [-> |]; [ reflexivity | ].
    destruct (String.eqb_spec target "armor2") as [-> |]; [ reflexivity | ].
    destruct (String.eqb_spec target "armor3") as [-> |]; [ reflexivity | ].
    discriminate. }
  assert (Hgo : forall c, applyTarget state target c val
                          = (state, Some errArmorListNotInitialized)).
  { intros c. unfold applyTarget, isArmorTarget in *.
    destruct (String.eqb_spec target "shale") as [-> |]; [ discriminate | ].
    destruct (String.eqb_spec target "shard") as [-> |]; [ discriminate | ].
    rewrite Harmor. unfold setArmor.
    destruct (Nat.ltb_spec (List.length (Armors state)) 3); [ reflexivity | lia ]. }
  rewrite ApplyManualSet_plain, ApplyManualSet_dotted by auto.
  split; apply Hgo.
Qed.

Lemma ApplyManualSet_ingredientC (state : AppState) :
  ApplyManualSet state "ingredientC" 1 = (state, Some errUnknownField).
Proof. reflexivity. Qed.

(** C8 (the code departs from it): the field [shale.] carries the component
    suffix [""], which is none of [high], [low], [avg]; the call is not
    refused.  It succeeds on every snapshot and overwrites all three members
    of the shale triple, because the closure [setTriple] reads the empty
    component as "no component given".  On the default snapshot the call
    with value 1 returns no error and a snapshot that differs from the one
    passed in. *)
Theorem ApplyManualSet_empty_component :
  knownComponent "" = false
  /\ (forall (state : AppState) (val : Z),
        ApplyManualSet state "shale." val
        = (setShale state {| High := val; Low := val; Avg := val |}, None))
  /\ snd (ApplyManualSet defaultState "shale." 1) = None
  /\ Shale (fst (ApplyManualSet defaultState "shale." 1))
     = {| High := 1; Low := 1; Avg := 1 |}
  /\ fst (ApplyManualSet defaultState "shale." 1) <> defaultState.
Proof.
  repeat split. discriminate.
Qed.

(** ** The GP parser *)

(** [nearestHalfUp m d] is [floor (m / d + 1/2)]: the nearest integer, a
    half going up.  [Float64.Round] applies it to the magnitude and
    restores the sign, so halves go away from zero. *)
Lemma nearestHalfUp_spec (m d : Z) :
  0 < d -> Float64.nearestHalfUp m d = (2 * m + d) / (2 * d).
Proof.
  intros Hd. unfold Float64.nearestHalfUp.
  pose proof (Z.div_mod m d ltac:(lia)) as Hdm.
  pose proof (Z.mod_pos_bound m d Hd) as Hr.
  destruct (Z.leb_spec d (2 * (m mod d))) as [Hup | Hdown].
  - apply (Z.div_unique_pos _ _ _ (2 * (m mod d) - d)); lia.
  - apply (Z.div_unique_pos _ _ _ (2 * (m mod d) + d)); lia.
Qed.

(** Texts the parser turns into the large values used above: [2^62], and a
    value whose double exceeds [2^63 / 2]. *)
Lemma parseGP_large_values (unrepresentable : spec_float -> Z) :
  parseGP unrepresentable "4611686018427387904"
  = (4611686018427387904, None)
  /\ parseGP unrepresentable "5000000000b" = (5000000000000000000, None).
Proof.
  split; vm_compute; reflexivity.
Qed.

(** Values of [parseGP] on some texts, among them halves that binary
    floating point holds exactly; [abc] and the empty text are refused with
    the syntax error of [strconv.ParseFloat], the value returned with the
    error being 0.  None of this depends on how the platform converts
    unrepresentable floats. *)
Lemma parseGP_examples (unrepresentable : spec_float -> Z) :
  parseGP unrepresentable "125k" = (125000, None)
  /\ parseGP unrepresentable "1.25m" = (1250000, None)
  /\ parseGP unrepresentable "1,250,000" = (1250000, None)
  /\ parseGP unrepresentable "2b" = (2000000000, None)
  /\ parseGP unrepresentable "0.5" = (1, None)
  /\ parseGP unrepresentable "1.5" = (2, None)
  /\ parseGP unrepresentable "2.5" = (3, None)
  /\ parseGP unrepresentable "-0.5" = (-1, None)
  /\ parseGP unrepresentable "-2.5" = (-3, None)
  /\ parseGP unrepresentable "0.0025k" = (3, None)
  /\ parseGP unrepresentable "2.4" = (2, None)
  /\ parseGP unrepresentable "2.6" = (3, None)
  /\ parseGP unrepresentable "abc" = (0, Some GoStrconv.ErrSyntax)
  /\ parseGP unrepresentable "" = (0, Some GoStrconv.ErrSyntax).
Proof.
  repeat split; vm_compute; reflexivity.
Qed.

(** * Further properties of the program *)

(** ** Best item by highest sale *)

Lemma highSaleStep_keepGreater : highSaleStep = keepGreater highSale.
Proof. reflexivity. Qed.

Lemma pickBestByHighSale_first_max (armors : list ArmorReport) :
  armors <> [] ->
  exists i : nat, firstMaxAt highSale armors i (pickBestByHighSale armors).
Proof.
  destruct armors as [| a0 rest]; [ congruence | intros _ ].
  cbn [pickBestByHighSale]. rewrite highSaleStep_keepGreater.
  apply scan_firstMax.
Qed.

(** X1: for every snapshot with a non-empty item list the report's
    highest-sale item is the report of the item at some index [i] whose high
    sale price is at least that of every item and strictly greater than
    that of every item in front of index [i]; the ingredient prices play no
    part in the choice. *)
Theorem BestByHighSale_first_max (now : GoTime.Instant) (state : AppState) :
  Armors state <> [] ->
  exists (i : nat) (a : ArmorOption),
    Armors state !! i = Some a
    /\ BestByHighSale (ComputeReport now state)
       = computeArmor a (IngredientCost (ComputeReport now state))
    /\ (forall j b, Armors state !! j = Some b ->
          High (Price b) <= High (Price a))
    /\ (forall j b, (j < i)%nat -> Armors state !! j = Some b ->
          High (Price b) < High (Price a)).
Proof.
  intros Hne.
  set (ic := IngredientCost (ComputeReport now state)).
  assert (Hrs : RArmors (ComputeReport now state)
                = map (fun a => computeArmor a ic) (Armors state))
    by reflexivity.
  assert (Hbest : BestByHighSale (ComputeReport now state)
                  = pickBestByHighSale (RArmors (ComputeReport now state)))
    by reflexivity.
  destruct (pickBestByHighSale_first_max (RArmors (ComputeReport now state)))
    as (i & Hi & Hmax & Hfirst).
  { rewrite Hrs. destruct (Armors state); [ congruence | discriminate ]. }
  rewrite <- Hbest in Hi, Hmax, Hfirst.
  destruct (RArmors_lookup now state i _ Hi) as (a & Ha & Hra). fold ic in Hra.
  exists i, a. split; [ exact Ha | ]. split; [ exact Hra | ].
  assert (Hlook : forall j b, Armors state !! j = Some b ->
            RArmors (ComputeReport now state) !! j = Some (computeArmor b ic)).
  { intros j b Hb. rewrite Hrs, list_lookup_fmap, Hb. reflexivity. }
  split.
  - intros j b Hb. specialize (Hmax j _ (Hlook j b Hb)).
    rewrite Hra in Hmax. exact Hmax.
  - intros j b Hlt Hb. specialize (Hfirst j _ Hlt (Hlook j b Hb)).
    rewrite Hra in Hfirst. exact Hfirst.
Qed.

Lemma BestByHighSale_first_max_tie :
  RName (BestByHighSale (ComputeReport 0 highTieState)) = "Oathplate Chestplate"
  /\ RName (BestByAvgProfit (ComputeReport 0 highTieState)) = "Oathplate Helmet"
  /\ exists (i : nat) (a : ArmorOption),
       Armors highTieState !! i = Some a
       /\ BestByHighSale (ComputeReport 0 highTieState)
          = computeArmor a (IngredientCost (ComputeReport 0 highTieState)).
Proof.
  split; [ reflexivity | ]. split; [ reflexivity | ].
  destruct (BestByHighSale_first_max 0 highTieState) as (i & a & Ha & Hb & _).
  - discriminate.
  - exists i, a. split; [ exact Ha | exact Hb ].
Defined.

(** ** Looking a profit up by label *)

Lemma profitForLabelCases_missing (cs : list ProfitCase) (label : string) :
  Forall (fun c => SaleLabel c <> label) cs ->
  profitForLabelCases cs label = Int64.MinInt64.
Proof.
  induction 1 as [| c cs Hc _ IH]; [ reflexivity | ]. cbn [profitForLabelCases].
  destruct (String.eqb_spec (SaleLabel c) label); [ contradiction | exact IH ].
Qed.

Lemma profitForLabelCases_first (pre post : list ProfitCase) (c : ProfitCase) :
  Forall (fun c' => SaleLabel c' <> SaleLabel c) pre ->
  profitForLabelCases (pre ++ c :: post) (SaleLabel c) = Profit c.
Proof.
  induction 1 as [| c' pre Hc' _ IH]; cbn [app profitForLabelCases].
  - now rewrite String.eqb_refl.
  - destruct (String.eqb_spec (SaleLabel c') (SaleLabel c));
      [ contradiction | exact IH ].
Qed.

(** X2: [profitForLabel] returns the profit of the first case that carries
    the label, whatever follows it, and [math.MinInt64] when no case
    carries it; on an item report built by [computeArmor] each of the
    labels low, avg, high yields the profit of that tier's case and every
    other label yields [math.MinInt64]. *)
Theorem profitForLabel_lookup :
  (forall (a : ArmorReport) (pre post : list ProfitCase) (c : ProfitCase),
      Cases a = pre ++ c :: post ->
      Forall (fun c' => SaleLabel c' <> SaleLabel c) pre ->
      profitForLabel a (SaleLabel c) = Profit c)
  /\ (forall (a : ArmorReport) (label : string),
        Forall (fun c => SaleLabel c <> label) (Cases a) ->
        profitForLabel a label = Int64.MinInt64)
  /\ (forall (a : ArmorOption) (ic : PriceTriple) (t : Tier),
        profitForLabel (computeArmor a ic) (tierLabel t)
        = Profit (computeCase (tierLabel t) (tierPrice t (Price a))
                    (tierPrice t ic)))
  /\ (forall (a : ArmorOption) (ic : PriceTriple) (label : string),
        label <> "low" -> label <> "avg" -> label <> "high" ->
        profitForLabel (computeArmor a ic) label = Int64.MinInt64).
Proof.
  split; [ | split; [ | split ] ].
  - intros a pre post c Hcases Hpre. unfold profitForLabel. rewrite Hcases.
    now apply profitForLabelCases_first.
  - intros a label H. now apply profitForLabelCases_missing.
  - intros a ic t. destruct t; reflexivity.
  - intros a ic label Hl Ha Hh. apply profitForLabelCases_missing.
    cbn [computeArmor Cases]. repeat constructor; cbn [computeCase SaleLabel];
      congruence.
Qed.

Lemma profitForLabel_lookup_example :
  profitForLabel
    (computeArmor exampleArmor (IngredientCost (ComputeReport 0 exampleState)))
    "avg" = 862100
  /\ profitForLabel
       (computeArmor exampleArmor (IngredientCost (ComputeReport 0 exampleState)))
       "mid" = Int64.MinInt64.
Proof.
  destruct profitForLabel_lookup as (_ & _ & Htier & Hmiss). split.
  - rewrite (Htier exampleArmor _ TAvg). reflexivity.
  - apply Hmiss; discriminate.
Defined.

(** ** Order properties of the arithmetic *)

Lemma net_monotone (p q : Z) :
  p <= q -> p - Z.quot (p * 2) 100 <= q - Z.quot (q * 2) 100.
Proof.
  intros Hpq.
  pose proof (Z.quot_rem' (p * 2) 100) as Hp.
  pose proof (Z.quot_rem' (q * 2) 100) as Hq.
  pose proof (Z.rem_bound_pos (p * 2) 100) as Hp1.
  pose proof (Z.rem_bound_pos_neg (p * 2) 100) as Hp2.
  pose proof (Z.rem_bound_pos (q * 2) 100) as Hq1.
  pose proof (Z.rem_bound_pos_neg (q * 2) 100) as Hq2.
  lia.
Qed.

(** X3: as long as nothing overflows, a higher sale price never yields a
    lower net or a lower profit at the same ingredient cost, and a higher
    ingredient cost never yields a higher profit at the same sale price:
    for sale prices [p <= q] in [[-2^62, 2^62)] and costs [c <= d] whose
    profits are representable, net(p) <= net(q),
    profit(p, c) <= profit(q, c) and profit(p, d) <= profit(p, c). *)
Theorem computeCase_monotone (label label' : string) (p q c d : Z) :
  - 2 ^ 62 <= p -> p <= q -> q < 2 ^ 62 -> c <= d ->
  Int64.in_range (p - Z.quot (p * 2) 100 - c) ->
  Int64.in_range (q - Z.quot (q * 2) 100 - c) ->
  Int64.in_range (p - Z.quot (p * 2) 100 - d) ->
  NetAfterTax (computeCase label p c) <= NetAfterTax (computeCase label' q c)
  /\ Profit (computeCase label p c) <= Profit (computeCase label' q c)
  /\ Profit (computeCase label p d) <= Profit (computeCase label p c).
Proof.
  intros Hp Hpq Hq Hcd Hpc Hqc Hpd.
  destruct (computeCase_no_overflow label p c ltac:(lia) Hpc) as (_ & -> & ->).
  destruct (computeCase_no_overflow label' q c ltac:(lia) Hqc) as (_ & -> & ->).
  destruct (computeCase_no_overflow label p d ltac:(lia) Hpd) as (_ & _ & ->).
  pose proof (net_monotone p q Hpq). lia.
Qed.

Lemma computeCase_monotone_example :
  NetAfterTax (computeCase "low" 49 0) <= NetAfterTax (computeCase "avg" 50 0)
  /\ Profit (computeCase "low" 49 0) <= Profit (computeCase "avg" 50 0)
  /\ Profit (computeCase "low" 49 10) <= Profit (computeCase "low" 49 0).
Proof.
  apply (computeCase_monotone "low" "avg" 49 50 0 10);
    vm_compute; try split; discriminate.
Defined.

(** X4: when the two ingredient triples are ordered low <= avg <= high and
    the three costs are representable as [int64], the ingredient costs of
    the report are ordered the same way. *)
Theorem ingredientCost_ordered (now : GoTime.Instant) (state : AppState) :
  Low (Shale state) <= Avg (Shale state) <= High (Shale state) ->
  Low (Shard state) <= Avg (Shard state) <= High (Shard state) ->
  (forall t : Tier,
      Int64.in_range (2520 * tierPrice t (Shale state)
                      + 450 * tierPrice t (Shard state))) ->
  Low (IngredientCost (ComputeReport now state))
  <= Avg (IngredientCost (ComputeReport now state))
  <= High (IngredientCost (ComputeReport now state)).
Proof.
  intros Hshale Hshard Hrange.
  pose proof (ingredientCost_wrap now state TLow) as Hl.
  pose proof (ingredientCost_wrap now state TAvg) as Ha.
  pose proof (ingredientCost_wrap now state THigh) as Hh.
  rewrite wrap_in_range in Hl, Ha, Hh by apply Hrange.
  cbn [tierPrice] in Hl, Ha, Hh. lia.
Qed.

Lemma ingredientCost_ordered_example :
  Low (IngredientCost (ComputeReport 0 exampleState))
  <= Avg (IngredientCost (ComputeReport 0 exampleState))
  <= High (IngredientCost (ComputeReport 0 exampleState)).
Proof.
  apply (ingredientCost_ordered 0 exampleState).
  - vm_compute. split; discriminate.
  - vm_compute. split; discriminate.
  - intros t. destruct t; vm_compute; split; discriminate.
Defined.

(** Ordered triples need not stay ordered once a product overflows: with
    shale prices low 0 <= avg 1 <= high [2^62] and shard prices 0 the avg
    cost is 2520 while the high cost wraps to 0. *)
Lemma ingredientCost_order_lost :
  Avg (IngredientCost
         (ComputeReport 0
            {| Shale := {| High := 4611686018427387904; Low := 0; Avg := 1 |};
               Shard := zeroPriceTriple;
               Armors := [];
               FetchedAt := 0;
               Mode := "manual" |})) = 2520
  /\ High (IngredientCost
         (ComputeReport 0
            {| Shale := {| High := 4611686018427387904; Low := 0; Avg := 1 |};
               Shard := zeroPriceTriple;
               Armors := [];
               FetchedAt := 0;
               Mode := "manual" |})) = 0.
Proof. split; reflexivity. Qed.

(** ** Fetching *)

Section FetchFacts.

Context {T : Type}.
Variable httpLatest : Z -> T + gmap string latestRow.

Lemma quot2_between (h l : Z) :
  Z.min h l <= Z.quot (h + l) 2 <= Z.max h l.
Proof.
  pose proof (Z.quot_rem' (h + l) 2) as Hq.
  pose proof (Z.rem_bound_pos (h + l) 2) as H1.
  pose proof (Z.rem_bound_pos_neg (h + l) 2) as H2.
  lia.
Qed.

(** X5: [fetchLatestTriple] fails with "missing high/low" when the decoded
    data has no row under the item id or the row's high or low is null,
    and passes a failure of the request on; otherwise it returns the row's
    high and low, and, when their sum is representable as an [int64], an
    avg that lies between the two. *)
Theorem fetchLatestTriple_cases (id : Z) :
  match httpLatest id with
  | inl cause => fetchLatestTriple httpLatest id = inr (errTransport cause)
  | inr data =>
      match data !! Itoa id with
      | Some {| rowHigh := Some high; rowLow := Some low |} =>
          exists t : PriceTriple,
            fetchLatestTriple httpLatest id = inl t
            /\ High t = high /\ Low t = low
            /\ (Int64.in_range (high + low) ->
                Z.min high low <= Avg t <= Z.max high low)
      | _ => fetchLatestTriple httpLatest id = inr (errMissingHighLow id)
      end
  end.
Proof.
  unfold fetchLatestTriple, tripleOfData.
  destruct (httpLatest id) as [cause | data]; [ reflexivity | ].
  destruct (data !! Itoa id) as [[[high |] [low |]] |]; try reflexivity.
  eexists. split; [ reflexivity | ]. cbn [High Low Avg].
  split; [ reflexivity | ]. split; [ reflexivity | ].
  intros Hsum. unfold Int64.add, Int64.quo. rewrite (wrap_in_range _ Hsum).
  pose proof (quot2_between high low) as Hb.
  rewrite wrap_in_range; [ exact Hb | ].
  unfold Int64.in_range, Int64.MinInt64, Int64.MaxInt64 in *. 
  pose proof (Z.quot_rem' (high + low) 2) as Hq.
  pose proof (Z.rem_bound_pos (high + low) 2) as H1.
  pose proof (Z.rem_bound_pos_neg (high + low) 2) as H2.
  lia.
Qed.

(** X6: [FetchStateFromAPI] is all or nothing.  It returns a state exactly
    when all five lookups succeed; that state carries the five triples
    looked up, the three fixed item names and ids, the clock reading as
    fetch time and the mode "api".  Otherwise it returns the error of the
    first lookup that fails, in the order shale, shard, armor 1, 2, 3, and
    no state; the "set item IDs first" error never occurs. *)
Theorem FetchStateFromAPI_all_or_nothing (now : GoTime.Instant) :
  match FetchStateFromAPI httpLatest now with
  | inl state =>
      (forall stage : FetchStage,
          exists t : PriceTriple,
            fetchLatestTriple httpLatest (stageID stage) = inl t
            /\ fetched stage state = Some t)
      /\ map Name (Armors state)
         = ["Oathplate Helmet"; "Oathplate Chestplate"; "Oathplate Legs"]
      /\ map ItemID (Armors state) = [armorID1; armorID2; armorID3]
      /\ FetchedAt state = now
      /\ Mode state = "api"
  | inr errSetItemIDs => False
  | inr (errStage stage cause) =>
      fetchLatestTriple httpLatest (stageID stage) = inr cause
      /\ (forall earlier : FetchStage,
            (stageRank earlier < stageRank stage)%nat ->
            exists t : PriceTriple,
              fetchLatestTriple httpLatest (stageID earlier) = inl t)
  end.
Proof.
  unfold FetchStateFromAPI. cbn [existsb]. 
  change (itemIDShale =? 0) with false. change (itemIDShard =? 0) with false.
  change (armorID1 =? 0) with false. change (armorID2 =? 0) with false.
  change (armorID3 =? 0) with false. cbn [orb].
  destruct (fetchLatestTriple httpLatest itemIDShale) as [shale | e] eqn:H0.
  2: { split; [ exact H0 | ]. intros [] Hlt; cbn in Hlt; lia. }
  destruct (fetchLatestTriple httpLatest itemIDShard) as [shard | e] eqn:H1.
  2: { split; [ exact H1 | ]. intros [] Hlt; cbn in Hlt; try lia; eauto. }
  destruct (fetchLatestTriple httpLatest armorID1) as [a1 | e] eqn:H2.
  2: { split; [ exact H2 | ]. intros [] Hlt; cbn in Hlt; try lia; eauto. }
  destruct (fetchLatestTriple httpLatest armorID2) as [a2 | e] eqn:H3.
  2: { split; [ exact H3 | ]. intros [] Hlt; cbn in Hlt; try lia; eauto. }
  destruct (fetchLatestTriple httpLatest armorID3) as [a3 | e] eqn:H4.
  2: { split; [ exact H4 | ]. intros [] Hlt; cbn in Hlt; try lia; eauto. }
  split; [ | repeat split ].
  intros []; eexists; (split; [ eassumption | reflexivity ]).
Qed.

Lemma FetchStateFromAPI_stamp (now : GoTime.Instant) (state : AppState) :
  FetchStateFromAPI httpLatest now = inl state ->
  FetchedAt state = now /\ Mode state = "api"
  /\ List.length (Armors state) = 3%nat.
Proof.
  unfold FetchStateFromAPI.
  destruct (existsb _ _); [ discriminate | ].
  repeat match goal with
         | |- context [match fetchLatestTriple httpLatest ?id with _ => _ end] =>
             destruct (fetchLatestTriple httpLatest id); [ | discriminate ]
         end.
  intros [= <-]. repeat split.
Qed.

(** X7: a state just fetched is reported with the mode "api" and the age
    elapsed since the fetch; it is fresh exactly until 20 minutes after the
    fetch, provided the clock did not stand at the zero instant when it was
    fetched. *)
Theorem fetched_state_fresh (now later : GoTime.Instant) (state : AppState) :
  FetchStateFromAPI httpLatest now = inl state ->
  now <> 0 ->
  RMode (ComputeReport later state) = "api"
  /\ CacheAge (ComputeReport later state) = GoTime.Since later now
  /\ (CacheFresh (ComputeReport later state) = true
      <-> later <= now + 20 * GoTime.Minute).
Proof.
  intros Hfetch Hnow.
  destruct (FetchStateFromAPI_stamp now state Hfetch) as (Hat & Hmode & _).
  assert (Hz : GoTime.IsZero (FetchedAt state) = false).
  { rewrite Hat. unfold GoTime.IsZero. now apply Z.eqb_neq. }
  destruct (CacheAge_fetched cacheTTL later state Hz) as [Hage Hfresh].
  unfold ComputeReport. rewrite Hage, Hfresh, Hat.
  split; [ exact Hmode | ]. split; [ reflexivity | ].
  rewrite Z.leb_le, (Since_le_iff later now cacheTTL cacheTTL_is_duration).
  change (20 * GoTime.Minute) with cacheTTL. lia.
Qed.

End FetchFacts.

Lemma fetchLatestTriple_steady (id : Z) :
  fetchLatestTriple httpSteady id
  = inl {| High := 100; Low := 50; Avg := 75 |}.
Proof.
  unfold fetchLatestTriple, httpSteady, tripleOfData.
  rewrite lookup_insert_eq. reflexivity.
Qed.

Lemma FetchStateFromAPI_steady (now : GoTime.Instant) :
  FetchStateFromAPI httpSteady now = inl (steadyState now).
Proof.
  unfold FetchStateFromAPI. rewrite !fetchLatestTriple_steady. reflexivity.
Qed.

Lemma fetched_state_fresh_steady :
  RMode (ComputeReport (63900000000000000000 + 5 * GoTime.Minute)
           (steadyState 63900000000000000000)) = "api"
  /\ CacheAge (ComputeReport (63900000000000000000 + 5 * GoTime.Minute)
                 (steadyState 63900000000000000000))
     = GoTime.Since (63900000000000000000 + 5 * GoTime.Minute)
         63900000000000000000
  /\ (CacheFresh (ComputeReport (63900000000000000000 + 5 * GoTime.Minute)
                    (steadyState 63900000000000000000)) = true
      <-> 63900000000000000000 + 5 * GoTime.Minute
          <= 63900000000000000000 + 20 * GoTime.Minute).
Proof.
  apply (fetched_state_fresh httpSteady 63900000000000000000).
  - apply FetchStateFromAPI_steady.
  - discriminate.
Defined.

(** ** The edit action of the dashboard *)

Lemma ApplyManualSet_keeps (state : AppState) (field : string) (val : Z) :
  FetchedAt (fst (ApplyManualSet state field val)) = FetchedAt state
  /\ Mode (fst (ApplyManualSet state field val)) = Mode state
  /\ map Name (Armors (fst (ApplyManualSet state field val)))
     = map Name (Armors state)
  /\ map ItemID (Armors (fst (ApplyManualSet state field val)))
     = map ItemID (Armors state)
  /\ List.length (Armors (fst (ApplyManualSet state field val)))
     = List.length (Armors state).
Proof.
  assert (Htarget : forall target component,
    let s' := fst (applyTarget state target component val) in
    FetchedAt s' = FetchedAt state /\ Mode s' = Mode state
    /\ map Name (Armors s') = map Name (Armors state)
    /\ map ItemID (Armors s') = map ItemID (Armors state)
    /\ List.length (Armors s') = List.length (Armors state)).
  { intros target component. unfold applyTarget.
    destruct (String.eqb target "shale").
    { destruct (setTriple component val (Shale state)); cbn. tauto. }
    destruct (String.eqb target "shard").
    { destruct (setTriple component val (Shard state)); cbn. tauto. }
    destruct (String.eqb target "armor1" || String.eqb target "armor2"
              || String.eqb target "armor3"); [ | cbn; tauto ].
    unfold setArmor.
    destruct (List.length (Armors state) <? 3)%nat; [ cbn; tauto | ].
    destruct (Armors state !! armorIndex target) as [a |] eqn:Ha;
      [ | cbn; tauto ].
    destruct (setTriple component val (Price a)) as [t err]. cbn.
    repeat split.
    - rewrite list_fmap_insert. cbn [setPrice Name].
      apply list_insert_id. rewrite list_lookup_fmap, Ha. reflexivity.
    - rewrite list_fmap_insert. cbn [setPrice ItemID].
      apply list_insert_id. rewrite list_lookup_fmap, Ha. reflexivity.
    - apply length_insert. }
  unfold ApplyManualSet.
  destruct (GoStrings.SplitByte "." field) as [| target [| component [| ? ?]]];
    [ cbn; tauto | apply Htarget | apply Htarget | cbn; tauto ].
Qed.

(** X8: whatever the field and the value, and whether it succeeds or not,
    [ApplyManualSet] never changes the fetch time, the mode, the number of
    items, or the name and id of any item. *)
Theorem ApplyManualSet_frame (state : AppState) (field : string) (val : Z) :
  FetchedAt (fst (ApplyManualSet state field val)) = FetchedAt state
  /\ Mode (fst (ApplyManualSet state field val)) = Mode state
  /\ map Name (Armors (fst (ApplyManualSet state field val)))
     = map Name (Armors state)
  /\ map ItemID (Armors (fst (ApplyManualSet state field val)))
     = map ItemID (Armors state)
  /\ List.length (Armors (fst (ApplyManualSet state field val)))
     = List.length (Armors state).
Proof. apply ApplyManualSet_keeps. Qed.

Section ApplyFacts.

Variable unrepresentable : spec_float -> Z.

(** X9: an edit typed into the dashboard either is refused, leaving the
    state exactly as it was, or is applied and turns the mode to "manual";
    in both cases the fetch time stays, so at any clock reading the report
    of the edited state has the same age and the same freshness as the
    report of the state before the edit. *)
Theorem applyEdit_outcome (state : AppState) (field text : string)
  (now : GoTime.Instant) :
  (snd (applyEdit unrepresentable state field text) <> statusUpdated ->
   fst (applyEdit unrepresentable state field text) = state)
  /\ (snd (applyEdit unrepresentable state field text) = statusUpdated ->
      Mode (fst (applyEdit unrepresentable state field text)) = "manual")
  /\ FetchedAt (fst (applyEdit unrepresentable state field text))
     = FetchedAt state
  /\ CacheAge (ComputeReport now
                 (fst (applyEdit unrepresentable state field text)))
     = CacheAge (ComputeReport now state)
  /\ CacheFresh (ComputeReport now
                   (fst (applyEdit unrepresentable state field text)))
     = CacheFresh (ComputeReport now state).
Proof.
  assert (Hat : FetchedAt (fst (applyEdit unrepresentable state field text))
                = FetchedAt state).
  { unfold applyEdit.
    destruct (parseGP unrepresentable text) as [v [e |]]; [ reflexivity | ].
    pose proof (ApplyManualSet_keeps state field v) as (Hf & _).
    destruct (ApplyManualSet state field v) as [s' [e |]]; exact Hf. }
  split; [ | split; [ | split; [ exact Hat | ] ] ].
  - unfold applyEdit.
    destruct (parseGP unrepresentable text) as [v [e |]]; [ reflexivity | ].
    destruct (ApplyManualSet state field v) as [s' [e |]] eqn:Hset.
    + intros _. cbn [fst]. eapply ApplyManualSet_error_unchanged, Hset.
    + cbn [snd]. congruence.
  - unfold applyEdit.
    destruct (parseGP unrepresentable text) as [v [e |]]; [ discriminate | ].
    destruct (ApplyManualSet state field v) as [s' [e |]];
      [ discriminate | reflexivity ].
  - unfold ComputeReport, ComputeReportTTL. cbn [CacheAge CacheFresh].
    rewrite Hat. split; reflexivity.
Qed.

End ApplyFacts.

(** ** Manual set as a write to a slot *)

Lemma applyTarget_slot (state : AppState) (target component : string)
  (val : Z) :
  applyTarget state target component val
  = match slotOf target with
    | None => (state, Some errUnknownField)
    | Some sl =>
        if slotReady state sl then
          match readSlot state sl with
          | Some t =>
              (writeSlot state sl (fst (setTriple component val t)),
               snd (setTriple component val t))
          | None => (state, Some panicIndex)
          end
        else (state, Some errArmorListNotInitialized)
    end.
Proof.
  unfold applyTarget, slotOf, isArmorTarget.
  destruct (String.eqb target "shale").
  { cbn. now destruct (setTriple component val (Shale state)). }
  destruct (String.eqb target "shard").
  { cbn. now destruct (setTriple component val (Shard state)). }
  destruct (String.eqb target "armor1" || String.eqb target "armor2"
            || String.eqb target "armor3"); [ | reflexivity ].
  unfold setArmor. cbn [slotReady readSlot writeSlot].
  destruct (List.length (Armors state) <? 3)%nat; [ reflexivity | ].
  cbn [negb]. destruct (Armors state !! armorIndex target) as [a |];
    [ | reflexivity ].
  cbn [option_map]. now destruct (setTriple component val (Price a)).
Qed.

Lemma readSlot_writeSlot_same (state : AppState) (sl : Slot)
  (t t' : PriceTriple) :
  readSlot state sl = Some t -> readSlot (writeSlot state sl t') sl = Some t'.
Proof.
  destruct sl as [| | i]; cbn; try reflexivity.
  destruct (Armors state !! i) as [a |] eqn:Ha; [ | discriminate ].
  intros _. cbn. rewrite list_lookup_insert_eq; [ reflexivity | ].
  eapply lookup_lt_Some, Ha.
Qed.

Lemma readSlot_writeSlot_other (state : AppState) (sl sl' : Slot)
  (t : PriceTriple) :
  sl <> sl' -> readSlot (writeSlot state sl t) sl' = readSlot state sl'.
Proof.
  intros Hne. destruct sl as [| | i], sl' as [| | j]; cbn;
    try reflexivity; try congruence.
  - destruct (Armors state !! i); reflexivity.
  - destruct (Armors state !! i); reflexivity.
  - destruct (Armors state !! i) as [a |]; [ | reflexivity ]. cbn.
    rewrite list_lookup_insert_ne by congruence. reflexivity.
Qed.

Lemma writeSlot_writeSlot_same (state : AppState) (sl : Slot)
  (t t' : PriceTriple) :
  writeSlot (writeSlot state sl t) sl t' = writeSlot state sl t'.
Proof.
  destruct sl as [| | i]; cbn; try reflexivity.
  destruct (Armors state !! i) as [a |] eqn:Ha; cbn; [ | now rewrite Ha ].
  rewrite list_lookup_insert_eq by (eapply lookup_lt_Some, Ha).
  unfold setArmors. cbn. now rewrite list_insert_insert_eq.
Qed.

Lemma writeSlot_writeSlot_other (state : AppState) (sl sl' : Slot)
  (t t' : PriceTriple) :
  sl <> sl' ->
  writeSlot (writeSlot state sl t) sl' t'
  = writeSlot (writeSlot state sl' t') sl t.
Proof.
  intros Hne. destruct sl as [| | i], sl' as [| | j]; cbn;
    try reflexivity; try congruence.
  - destruct (Armors state !! j); reflexivity.
  - destruct (Armors state !! j); reflexivity.
  - destruct (Armors state !! i); reflexivity.
  - destruct (Armors state !! i); reflexivity.
  - assert (i <> j) by congruence.
    destruct (Armors state !! i) as [a |] eqn:Ha,
             (Armors state !! j) as [b |] eqn:Hb; cbn;
      rewrite ?list_lookup_insert_ne by congruence; rewrite ?Ha, ?Hb;
      try reflexivity.
    unfold setArmors. cbn. f_equal.
    now apply list_insert_insert_ne.
Qed.

Lemma slotReady_writeSlot (state : AppState) (sl sl' : Slot)
  (t : PriceTriple) :
  slotReady (writeSlot state sl t) sl' = slotReady state sl'.
Proof.
  destruct sl' as [| | j]; try reflexivity. cbn [slotReady]. f_equal. f_equal.
  destruct sl as [| | i]; cbn; try reflexivity.
  destruct (Armors state !! i); cbn; [ apply length_insert | reflexivity ].
Qed.

Lemma slotOf_cases (target : string) (sl : Slot) :
  slotOf target = Some sl ->
  (target = "shale" /\ sl = slotShale)
  \/ (target = "shard" /\ sl = slotShard)
  \/ (target = "armor1" /\ sl = slotArmor 0)
  \/ (target = "armor2" /\ sl = slotArmor 1)
  \/ (target = "armor3" /\ sl = slotArmor 2).
Proof.
  unfold slotOf, isArmorTarget, armorIndex.
  destruct (String.eqb_spec target "shale"); [ intros [= <-]; tauto | ].
  destruct (String.eqb_spec target "shard"); [ intros [= <-]; tauto | ].
  destruct (String.eqb_spec target "armor1"); [ intros [= <-]; tauto | ].
  destruct (String.eqb_spec target "armor2"); [ intros [= <-]; tauto | ].
  destruct (String.eqb_spec target "armor3"); [ intros [= <-]; tauto | ].
  discriminate.
Qed.

Lemma slotOf_inj (target target' : string) (sl : Slot) :
  slotOf target = Some sl -> slotOf target' = Some sl -> target = target'.
Proof.
  intros H H'. apply slotOf_cases in H, H'.
  destruct H as [[-> ->] | [[-> ->] | [[-> ->] | [[-> ->] | [-> ->]]]]];
    destruct H' as [[-> ?] | [[-> ?] | [[-> ?] | [[-> ?] | [-> ?]]]]];
    congruence.
Qed.

Lemma setTriple_snd_indep (component : string) (val val' : Z)
  (t t' : PriceTriple) :
  snd (setTriple component val t) = snd (setTriple component val' t').
Proof. unfold setTriple. case_ifs; reflexivity. Qed.

Lemma setTriple_idem (component : string) (val : Z) (t : PriceTriple) :
  fst (setTriple component val (fst (setTriple component val t)))
  = fst (setTriple component val t).
Proof. unfold setTriple. case_ifs; reflexivity. Qed.

(** Every field path either names a target and a component, the component
    being empty when there is no dot, or has more than one dot. *)
Lemma ApplyManualSet_parts (field : string) :
  (exists component : string,
      forall (state : AppState) (val : Z),
        ApplyManualSet state field val
        = applyTarget state (fieldTarget field) component val)
  \/ (forall (state : AppState) (val : Z),
        ApplyManualSet state field val = (state, Some errInvalidFieldFormat)).
Proof.
  unfold ApplyManualSet, fieldTarget.
  assert (Hsplit : GoStrings.SplitByte "." field <> []).
  { destruct field as [| c s]; [ discriminate | ]. simpl.
    destruct (Ascii.eqb c "."); [ discriminate | ].
    destruct (GoStrings.SplitByte "." s); discriminate. }
  destruct (GoStrings.SplitByte "." field) as [| target [| component [| ? ?]]];
    [ congruence | left; exists ""; reflexivity
    | left; exists component; reflexivity | right; reflexivity ].
Qed.

Lemma applyTarget_idem (state : AppState) (target component : string)
  (val : Z) :
  applyTarget (fst (applyTarget state target component val)) target component
    val
  = applyTarget state target component val.
Proof.
  rewrite !applyTarget_slot.
  destruct (slotOf target) as [sl |]; [ | reflexivity ].
  destruct (slotReady state sl) eqn:Hready; [ | cbn; now rewrite Hready ].
  destruct (readSlot state sl) as [t |] eqn:Hread;
    [ | cbn; now rewrite Hready, Hread ].
  cbn [fst]. rewrite slotReady_writeSlot, Hready.
  rewrite (readSlot_writeSlot_same _ _ _ _ Hread).
  rewrite setTriple_idem, writeSlot_writeSlot_same.
  f_equal. apply setTriple_snd_indep.
Qed.

(** X10: applying the same edit a second time changes nothing: the second
    call returns the state and the error of the first. *)
Theorem ApplyManualSet_idempotent (state : AppState) (field : string)
  (val : Z) :
  ApplyManualSet (fst (ApplyManualSet state field val)) field val
  = ApplyManualSet state field val.
Proof.
  destruct (ApplyManualSet_parts field) as [[component H] | H].
  - rewrite !H. apply applyTarget_idem.
  - rewrite !H. reflexivity.
Qed.

Lemma applyTarget_fst (state : AppState) (target component : string)
  (val : Z) :
  fst (applyTarget state target component val)
  = match slotOf target with
    | Some sl => slotWrite state sl component val
    | None => state
    end.
Proof.
  rewrite applyTarget_slot. unfold slotWrite.
  destruct (slotOf target) as [sl |]; [ | reflexivity ].
  destruct (slotReady state sl); [ | reflexivity ].
  destruct (readSlot state sl); reflexivity.
Qed.

Lemma applyTarget_snd (state : AppState) (target component : string)
  (val : Z) :
  snd (applyTarget state target component val)
  = match slotOf target with
    | Some sl => slotError state sl component val
    | None => Some errUnknownField
    end.
Proof.
  rewrite applyTarget_slot. unfold slotError.
  destruct (slotOf target) as [sl |]; [ | reflexivity ].
  destruct (slotReady state sl); [ | reflexivity ].
  destruct (readSlot state sl); reflexivity.
Qed.

Lemma slotReady_slotWrite (state : AppState) (sl sl' : Slot)
  (component : string) (val : Z) :
  slotReady (slotWrite state sl component val) sl' = slotReady state sl'.
Proof.
  unfold slotWrite. destruct (slotReady state sl); [ | reflexivity ].
  destruct (readSlot state sl); [ apply slotReady_writeSlot | reflexivity ].
Qed.

Lemma readSlot_slotWrite_other (state : AppState) (sl sl' : Slot)
  (component : string) (val : Z) :
  sl <> sl' ->
  readSlot (slotWrite state sl component val) sl' = readSlot state sl'.
Proof.
  intros Hne. unfold slotWrite. destruct (slotReady state sl); [ | reflexivity ].
  destruct (readSlot state sl);
    [ now apply readSlot_writeSlot_other | reflexivity ].
Qed.

Lemma slotError_slotWrite_other (state : AppState) (sl sl' : Slot)
  (component component' : string) (val val' : Z) :
  sl <> sl' ->
  slotError (slotWrite state sl component val) sl' component' val'
  = slotError state sl' component' val'.
Proof.
  intros Hne. unfold slotError.
  rewrite slotReady_slotWrite, readSlot_slotWrite_other by exact Hne.
  reflexivity.
Qed.

Lemma slotWrite_commute (state : AppState) (sl1 sl2 : Slot)
  (component1 component2 : string) (val1 val2 : Z) :
  sl1 <> sl2 ->
  slotWrite (slotWrite state sl1 component1 val1) sl2 component2 val2
  = slotWrite (slotWrite state sl2 component2 val2) sl1 component1 val1.
Proof.
  intros Hne.
  unfold slotWrite at 1 3.
  rewrite !slotReady_slotWrite.
  rewrite (readSlot_slotWrite_other state sl1 sl2) by exact Hne.
  rewrite (readSlot_slotWrite_other state sl2 sl1) by congruence.
  unfold slotWrite.
  destruct (slotReady state sl1), (slotReady state sl2);
    destruct (readSlot state sl1), (readSlot state sl2); try reflexivity.
  now apply writeSlot_writeSlot_other.
Qed.

Lemma applyTarget_commute (state : AppState)
  (target1 component1 : string) (val1 : Z)
  (target2 component2 : string) (val2 : Z) :
  target1 <> target2 ->
  fst (applyTarget (fst (applyTarget state target1 component1 val1))
         target2 component2 val2)
  = fst (applyTarget (fst (applyTarget state target2 component2 val2))
           target1 component1 val1)
  /\ snd (applyTarget (fst (applyTarget state target1 component1 val1))
            target2 component2 val2)
     = snd (applyTarget state target2 component2 val2).
Proof.
  intros Hne. rewrite !applyTarget_fst, !applyTarget_snd.
  destruct (slotOf target1) as [sl1 |] eqn:H1,
           (slotOf target2) as [sl2 |] eqn:H2; try (split; reflexivity).
  assert (Hsl : sl1 <> sl2).
  { intros <-. apply Hne. eapply slotOf_inj; eassumption. }
  split; [ now apply slotWrite_commute | now apply slotError_slotWrite_other ].
Qed.

(** X11: two edits whose field paths name different targets commute: both
    orders end in the same state, and the error each edit returns does not
    depend on whether the other was applied before it. *)
Theorem ApplyManualSet_commute (state : AppState) (field1 field2 : string)
  (val1 val2 : Z) :
  fieldTarget field1 <> fieldTarget field2 ->
  fst (ApplyManualSet (fst (ApplyManualSet state field1 val1)) field2 val2)
  = fst (ApplyManualSet (fst (ApplyManualSet state field2 val2)) field1 val1)
  /\ snd (ApplyManualSet (fst (ApplyManualSet state field1 val1)) field2 val2)
     = snd (ApplyManualSet state field2 val2)
  /\ snd (ApplyManualSet (fst (ApplyManualSet state field2 val2)) field1 val1)
     = snd (ApplyManualSet state field1 val1).
Proof.
  intros Hne.
  destruct (ApplyManualSet_parts field1) as [[c1 H1] | H1],
           (ApplyManualSet_parts field2) as [[c2 H2] | H2];
    rewrite ?H1, ?H2; cbn [fst snd]; rewrite ?H1, ?H2; cbn [fst snd];
    try (repeat split; reflexivity).
  destruct (applyTarget_commute state _ c1 val1 _ c2 val2 Hne) as [Hs He].
  destruct (applyTarget_commute state _ c2 val2 _ c1 val1
              (not_eq_sym Hne)) as [_ He'].
  repeat split; assumption.
Qed.

Lemma ApplyManualSet_commute_example :
  fst (ApplyManualSet (fst (ApplyManualSet defaultState "shale.avg" 10))
         "armor2" 900)
  = fst (ApplyManualSet (fst (ApplyManualSet defaultState "armor2" 900))
           "shale.avg" 10)
  /\ snd (ApplyManualSet (fst (ApplyManualSet defaultState "shale.avg" 10))
            "armor2" 900)
     = snd (ApplyManualSet defaultState "armor2" 900)
  /\ snd (ApplyManualSet (fst (ApplyManualSet defaultState "armor2" 900))
            "shale.avg" 10)
     = snd (ApplyManualSet defaultState "shale.avg" 10).
Proof.
  apply (ApplyManualSet_commute defaultState "shale.avg" "armor2" 10 900).
  discriminate.
Defined.

(** ** Manual set: what a successful edit writes, and when an edit succeeds *)

Lemma SplitByte_nonempty (s : string) : GoStrings.SplitByte "." s <> [].
Proof.
  destruct s as [| c s]; [ discriminate | ]. simpl.
  destruct (Ascii.eqb c "."); [ discriminate | ].
  destruct (GoStrings.SplitByte "." s); discriminate.
Qed.

Lemma SplitByte_inv (s t : string) (rest : list string) :
  GoStrings.SplitByte "." s = t :: rest ->
  (rest = [] /\ s = t)
  \/ (exists s' : string, s = dotted t s' /\ GoStrings.SplitByte "." s' = rest).
Proof.
  revert t rest. induction s as [| c s IH]; intros t rest.
  - intros [= <- <-]. now left.
  - simpl. destruct (Ascii.eqb_spec c ".") as [-> | Hc].
    + intros [= <- <-]. right. now exists s.
    + destruct (GoStrings.SplitByte "." s) as [| p ps] eqn:Hs.
      { now destruct (SplitByte_nonempty s). }
      intros [= <- <-].
      destruct (IH p ps eq_refl) as [[-> ->] | (s' & -> & H')].
      * now left.
      * right. now exists s'.
Qed.

Lemma knownTarget_slotOf (target : string) :
  knownTarget target = true <-> exists sl : Slot, slotOf target = Some sl.
Proof.
  unfold knownTarget, slotOf, isArmorTarget.
  destruct (String.eqb target "shale"); [ split; eauto | ].
  destruct (String.eqb target "shard"); [ split; eauto | ].
  destruct (String.eqb target "armor1"); [ split; eauto | ].
  destruct (String.eqb target "armor2"); [ split; eauto | ].
  destruct (String.eqb target "armor3"); [ split; eauto | ].
  split; [ discriminate | intros [sl H]; discriminate ].
Qed.

Lemma knownTarget_noDot (target : string) :
  knownTarget target = true -> noDot target = true.
Proof.
  intros H. apply knownTarget_slotOf in H as [sl H].
  apply slotOf_cases in H.
  destruct H as [[-> _] | [[-> _] | [[-> _] | [[-> _] | [-> _]]]]];
    reflexivity.
Qed.

Lemma knownComponent_cases (component : string) :
  knownComponent component = true ->
  component = "high" \/ component = "low" \/ component = "avg".
Proof.
  unfold knownComponent.
  destruct (String.eqb_spec component "high"); [ tauto | ].
  destruct (String.eqb_spec component "low"); [ tauto | ].
  destruct (String.eqb_spec component "avg"); [ tauto | discriminate ].
Qed.

Lemma setTriple_snd_None (component : string) (val : Z) (t : PriceTriple) :
  snd (setTriple component val t) = None
  <-> component = "" \/ knownComponent component = true.
Proof.
  unfold setTriple, knownComponent.
  destruct (String.eqb_spec component ""); [ cbn; tauto | ].
  destruct (String.eqb component "high"); [ cbn; tauto | ].
  destruct (String.eqb component "low"); [ cbn; tauto | ].
  destruct (String.eqb component "avg"); [ cbn; tauto | ].
  cbn. split; [ discriminate | intros [? | ?]; [ contradiction | discriminate ] ].
Qed.

Lemma setTriple_known (component : string) (val : Z) (t : PriceTriple) :
  knownComponent component = true ->
  componentOf component (fst (setTriple component val t)) = Some val
  /\ (forall c : string, c <> component ->
        componentOf c (fst (setTriple component val t)) = componentOf c t).
Proof.
  intros H. destruct (knownComponent_cases _ H) as [-> | [-> | ->]];
    (split; [ reflexivity | ]); intros c Hc; unfold componentOf; cbn;
    destruct (String.eqb_spec c "high"); try congruence;
    destruct (String.eqb_spec c "low"); try congruence;
    destruct (String.eqb_spec c "avg"); congruence.
Qed.

Lemma targetTriple_slot (state : AppState) (target : string) :
  targetTriple state target
  = match slotOf target with
    | Some sl => readSlot state sl
    | None => None
    end.
Proof.
  unfold targetTriple, slotOf.
  destruct (String.eqb target "shale"); [ reflexivity | ].
  destruct (String.eqb target "shard"); [ reflexivity | ].
  destruct (isArmorTarget target); reflexivity.
Qed.

Lemma slotReady_armor (state : AppState) (i : nat) :
  slotReady state (slotArmor i) = true
  <-> (3 <= List.length (Armors state))%nat.
Proof.
  cbn [slotReady].
  destruct (Nat.ltb_spec (List.length (Armors state)) 3); cbn [negb];
    split; intros; try lia; try discriminate; reflexivity.
Qed.

(** A known target whose guard passes has a triple, and [applyTarget]
    writes the result of [setTriple] there and nowhere else. *)
Lemma applyTarget_known (state : AppState) (target component : string)
  (val : Z) :
  knownTarget target = true ->
  (isArmorTarget target = true -> (3 <= List.length (Armors state))%nat) ->
  exists t : PriceTriple,
    targetTriple state target = Some t
    /\ snd (applyTarget state target component val)
       = snd (setTriple component val t)
    /\ targetTriple (fst (applyTarget state target component val)) target
       = Some (fst (setTriple component val t))
    /\ (forall target' : string, target' <> target ->
          targetTriple (fst (applyTarget state target component val)) target'
          = targetTriple state target').
Proof.
  intros Hknown Hlen. apply knownTarget_slotOf in Hknown as [sl Hsl].
  assert (Hready : slotReady state sl = true).
  { destruct sl as [| | i]; try reflexivity.
    assert (Harmor : isArmorTarget target = true).
    { apply slotOf_cases in Hsl.
      destruct Hsl as [[_ ?] | [[_ ?] | [[-> _] | [[-> _] | [-> _]]]]];
        try discriminate; reflexivity. }
    apply slotReady_armor, Hlen, Harmor. }
  assert (Hread : exists t, readSlot state sl = Some t).
  { destruct sl as [| | i]; cbn; eauto.
    assert (i < List.length (Armors state))%nat as Hi.
    { apply slotReady_armor in Hready.
      apply slotOf_cases in Hsl.
      destruct Hsl as [[_ ?] | [[_ ?] | [[_ [= ->]] | [[_ [= ->]] | [_ [= ->]]]]]];
        try discriminate; lia. }
    destruct (lookup_lt_is_Some_2 _ _ Hi) as [a ->]. cbn. eauto. }
  destruct Hread as [t Hread]. exists t.
  rewrite !targetTriple_slot, applyTarget_fst, applyTarget_snd, Hsl.
  unfold slotWrite, slotError. rewrite Hready, Hread.
  split; [ reflexivity | ]. split; [ reflexivity | ].
  split; [ now apply (readSlot_writeSlot_same _ _ t) | ].
  intros target' Hne. rewrite !targetTriple_slot.
  destruct (slotOf target') as [sl' |] eqn:Hsl'; [ | reflexivity ].
  apply readSlot_writeSlot_other. intros <-. apply Hne.
  eapply slotOf_inj; eassumption.
Qed.

(** X12: on a known target (for an item slot: with at least three items in
    the list) an edit without component, or with an empty one, succeeds and
    makes the target's triple high = low = avg = value; an edit of the
    component high, low or avg succeeds, makes that member of the target's
    triple the value and leaves the other two members as they were.  In
    both cases the triple of every other target is unchanged. *)
Theorem ApplyManualSet_write_read (state : AppState) (target : string)
  (val : Z) :
  knownTarget target = true ->
  (isArmorTarget target = true -> (3 <= List.length (Armors state))%nat) ->
  exists t : PriceTriple,
    targetTriple state target = Some t
    /\ (forall field : string,
          field = target \/ field = dotted target "" ->
          snd (ApplyManualSet state field val) = None
          /\ targetTriple (fst (ApplyManualSet state field val)) target
             = Some {| High := val; Low := val; Avg := val |}
          /\ (forall target' : string, target' <> target ->
                targetTriple (fst (ApplyManualSet state field val)) target'
                = targetTriple state target'))
    /\ (forall component : string,
          knownComponent component = true ->
          exists t' : PriceTriple,
            snd (ApplyManualSet state (dotted target component) val) = None
            /\ targetTriple
                 (fst (ApplyManualSet state (dotted target component) val))
                 target = Some t'
            /\ componentOf component t' = Some val
            /\ (forall c : string, c <> component ->
                  componentOf c t' = componentOf c t)
            /\ (forall target' : string, target' <> target ->
                  targetTriple
                    (fst (ApplyManualSet state (dotted target component) val))
                    target'
                  = targetTriple state target')).
Proof.
  intros Hknown Hlen.
  pose proof (knownTarget_noDot _ Hknown) as Hnd.
  destruct (applyTarget_known state target "" val Hknown Hlen)
    as (t & Ht & Hsnd & Hfst & Hother).
  exists t. split; [ exact Ht | ]. split.
  - intros field Hfield.
    assert (Hrun : ApplyManualSet state field val
                   = applyTarget state target "" val).
    { destruct Hfield as [-> | ->];
        [ now apply ApplyManualSet_plain | now apply ApplyManualSet_dotted ]. }
    rewrite Hrun. split; [ rewrite Hsnd; reflexivity | ].
    split; [ rewrite Hfst; reflexivity | exact Hother ].
  - intros component Hcomp.
    assert (Hcd : noDot component = true).
    { destruct (knownComponent_cases _ Hcomp) as [-> | [-> | ->]];
        reflexivity. }
    rewrite (ApplyManualSet_dotted state target component val Hnd Hcd).
    destruct (applyTarget_known state target component val Hknown Hlen)
      as (t0 & Ht0 & Hsnd' & Hfst' & Hother').
    assert (t0 = t) as -> by congruence.
    exists (fst (setTriple component val t)).
    split; [ rewrite Hsnd'; apply setTriple_snd_None; now right | ].
    split; [ exact Hfst' | ].
    destruct (setTriple_known component val t Hcomp) as [Hw Hk].
    split; [ exact Hw | ]. split; [ exact Hk | exact Hother' ].
Qed.

Lemma ApplyManualSet_write_read_example :
  exists t : PriceTriple,
    targetTriple exampleState "armor2" = Some t
    /\ snd (ApplyManualSet exampleState "armor2.avg" 900) = None
    /\ option_map Avg
         (targetTriple (fst (ApplyManualSet exampleState "armor2.avg" 900))
            "armor2") = Some 900
    /\ targetTriple (fst (ApplyManualSet exampleState "armor2.avg" 900))
         "armor3" = targetTriple exampleState "armor3".
Proof.
  destruct (ApplyManualSet_write_read exampleState "armor2" 900)
    as (t & Ht & _ & Hcomp).
  - reflexivity.
  - intros _. cbn. lia.
  - exists t. split; [ exact Ht | ].
    destruct (Hcomp "avg" eq_refl) as (t' & Hs & Hr & Hw & _ & Ho).
    change (dotted "armor2" "avg") with "armor2.avg" in *.
    split; [ exact Hs | ]. split.
    + rewrite Hr. cbn. unfold componentOf in Hw. cbn in Hw. exact Hw.
    + apply Ho. discriminate.
Defined.

Lemma applyTarget_success (state : AppState) (target component : string)
  (val : Z) :
  snd (applyTarget state target component val) = None
  <-> knownTarget target = true
      /\ (component = "" \/ knownComponent component = true)
      /\ (isArmorTarget target = true ->
          (3 <= List.length (Armors state))%nat).
Proof.
  split.
  - rewrite applyTarget_snd.
    destruct (slotOf target) as [sl |] eqn:Hsl; [ | discriminate ].
    unfold slotError.
    destruct (slotReady state sl) eqn:Hready; [ | discriminate ].
    destruct (readSlot state sl) as [t |]; [ | discriminate ].
    intros Hset. split; [ apply knownTarget_slotOf; eauto | ].
    split; [ eapply setTriple_snd_None, Hset | ].
    intros Harmor. apply slotOf_cases in Hsl.
    destruct Hsl as [[-> _] | [[-> _] | [[_ ->] | [[_ ->] | [_ ->]]]]];
      try discriminate; now apply slotReady_armor in Hready.
  - intros (Hknown & Hcomp & Hlen).
    destruct (applyTarget_known state target component val Hknown Hlen)
      as (t & _ & -> & _). now apply setTriple_snd_None.
Qed.

(** X13: [ApplyManualSet] returns no error exactly for the field paths
    [target], [target.] and [target.high], [target.low], [target.avg] with
    target one of shale, shard, armor1, armor2, armor3, the item targets
    only while the item list has at least three entries. *)
Theorem ApplyManualSet_succeeds_iff (state : AppState) (field : string)
  (val : Z) :
  snd (ApplyManualSet state field val) = None
  <-> exists target : string,
        knownTarget target = true
        /\ (isArmorTarget target = true ->
            (3 <= List.length (Armors state))%nat)
        /\ (field = target
            \/ exists component : string,
                 (component = "" \/ knownComponent component = true)
                 /\ field = dotted target component).
Proof.
  split.
  - unfold ApplyManualSet.
    destruct (GoStrings.SplitByte "." field)
      as [| target [| component [| ? ?]]] eqn:Hsplit; try discriminate.
    + intros Hok. apply applyTarget_success in Hok as (Hk & _ & Hl).
      exists target. split; [ exact Hk | ]. split; [ exact Hl | ].
      left. destruct (SplitByte_inv _ _ _ Hsplit) as [[_ ->] | (s' & _ & H')];
        [ reflexivity | now destruct (SplitByte_nonempty s') ].
    + intros Hok. apply applyTarget_success in Hok as (Hk & Hc & Hl).
      exists target. split; [ exact Hk | ]. split; [ exact Hl | ].
      right. exists component. split; [ exact Hc | ].
      destruct (SplitByte_inv _ _ _ Hsplit) as [[? _] | (s' & -> & H')];
        [ discriminate | ].
      destruct (SplitByte_inv _ _ _ H') as [[_ ->] | (s'' & _ & H'')];
        [ reflexivity | now destruct (SplitByte_nonempty s'') ].
  - intros (target & Hk & Hl & Hfield).
    pose proof (knownTarget_noDot _ Hk) as Hnd.
    destruct Hfield as [-> | (component & Hc & ->)].
    + rewrite ApplyManualSet_plain by exact Hnd.
      apply applyTarget_success. tauto.
    + assert (Hcd : noDot component = true).
      { destruct Hc as [-> | Hc]; [ reflexivity | ].
        destruct (knownComponent_cases _ Hc) as [-> | [-> | ->]];
          reflexivity. }
      rewrite ApplyManualSet_dotted by assumption.
      apply applyTarget_success. tauto.
Qed.

(** ** Number formatting *)

Lemma comma_unfold (n : Z) :
  comma n
  = option_map (String.append (if n <? 0 then "-" else ""))
      (commaBody (FormatInt (if n <? 0 then Int64.wrap (- n) else n))).
Proof.
  unfold comma, commaBody.
  destruct (String.length _ <=? 3)%nat; [ reflexivity | ].
  destruct (commaGroups _); reflexivity.
Qed.

Lemma noByte_uint (d : Decimal.uint) :
  noByte "," (NilEmpty.string_of_uint d) = true.
Proof. induction d; cbn; auto. Qed.

Lemma noByte_NilZero (d : Decimal.uint) :
  noByte "," (NilZero.string_of_uint d) = true.
Proof.
  destruct d; [ reflexivity | .. ];
    unfold NilZero.string_of_uint; apply noByte_uint.
Qed.

Lemma noByte_FormatInt (n : Z) : noByte "," (FormatInt n) = true.
Proof.
  unfold FormatInt. destruct n as [| p | p];
    [ reflexivity | apply noByte_NilZero | ].
  cbn [Z.to_int NilZero.string_of_int noByte]. rewrite noByte_NilZero.
  reflexivity.
Qed.

Lemma FormatInt_neg (p : positive) :
  FormatInt (Z.neg p) = String "-" (FormatInt (Z.pos p)).
Proof. reflexivity. Qed.

Lemma length_uint_pos (d : Decimal.uint) :
  d <> Decimal.Nil -> (1 <= String.length (NilEmpty.string_of_uint d))%nat.
Proof. destruct d; cbn; intros; try congruence; lia. Qed.

Lemma FormatInt_nonempty (n : Z) : (1 <= String.length (FormatInt n))%nat.
Proof.
  unfold FormatInt. destruct n as [| p | p];
    cbn [Z.to_int NilZero.string_of_int String.length]; try lia.
  - cbn. lia.
  - unfold NilZero.string_of_uint.
    destruct (Pos.to_uint p); cbn; lia.
Qed.

Lemma append_String (c : ascii) (s t : string) :
  String.append (String c s) t = String c (String.append s t).
Proof. reflexivity. Qed.

Lemma append_empty (t : string) : String.append "" t = t.
Proof. reflexivity. Qed.

Lemma append_empty_r (s : string) : String.append s "" = s.
Proof.
  induction s as [| c s IH]; [ reflexivity | ].
  now rewrite append_String, IH.
Qed.

Lemma RemoveByte_noByte (b : ascii) (s : string) :
  noByte b s = true -> GoStrings.RemoveByte b s = s.
Proof.
  induction s as [| c s IH]; [ reflexivity | ]. cbn.
  destruct (Ascii.eqb c b); [ discriminate | ]. cbn. intros H.
  now rewrite IH.
Qed.

Lemma RemoveByte_app (b : ascii) (s1 s2 : string) :
  GoStrings.RemoveByte b (String.append s1 s2)
  = String.append (GoStrings.RemoveByte b s1) (GoStrings.RemoveByte b s2).
Proof.
  induction s1 as [| c s1 IH]; [ reflexivity | ].
  rewrite append_String. cbn [GoStrings.RemoveByte].
  destruct (Ascii.eqb c b); rewrite ?append_String; now rewrite IH.
Qed.

Lemma noByte_app (b : ascii) (s1 s2 : string) :
  noByte b (String.append s1 s2) = noByte b s1 && noByte b s2.
Proof.
  induction s1 as [| c s1 IH]; [ reflexivity | ].
  rewrite append_String. cbn [noByte].
  rewrite IH. now rewrite andb_assoc.
Qed.

Lemma length_app (s1 s2 : string) :
  String.length (String.append s1 s2)
  = (String.length s1 + String.length s2)%nat.
Proof.
  induction s1 as [| c s1 IH]; [ reflexivity | ].
  rewrite append_String. cbn [String.length]. now rewrite IH.
Qed.

Lemma substring_all (s : string) : String.substring 0 (String.length s) s = s.
Proof. induction s as [| c s IH]; cbn; [ reflexivity | now rewrite IH ]. Qed.

Lemma substring_split (pre : nat) (s : string) :
  (pre <= String.length s)%nat ->
  s = String.append (String.substring 0 pre s)
        (String.substring pre (String.length s - pre) s)
  /\ String.length (String.substring 0 pre s) = pre
  /\ String.length (String.substring pre (String.length s - pre) s)
     = (String.length s - pre)%nat.
Proof.
  revert s. induction pre as [| pre IH]; intros s Hle.
  - rewrite Nat.sub_0_r, substring_all.
    destruct s; cbn; repeat split; reflexivity.
  - destruct s as [| c s]; [ cbn in Hle; lia | ]. cbn in Hle.
    destruct (IH s ltac:(lia)) as (Hs & Ha & Hb).
    cbn [String.substring String.length Nat.sub].
    rewrite append_String, Ha, Hb, <- Hs. repeat split.
Qed.

Lemma SplitByte_noByte (b : ascii) (s : string) :
  noByte b s = true -> GoStrings.SplitByte b s = [s].
Proof.
  induction s as [| c s IH]; [ reflexivity | ]. cbn.
  destruct (Ascii.eqb c b); [ discriminate | ]. cbn.
  intros H. now rewrite (IH H).
Qed.

Lemma SplitByte_app_sep (b : ascii) (s rest : string) :
  noByte b s = true ->
  GoStrings.SplitByte b (String.append s (String b rest))
  = s :: GoStrings.SplitByte b rest.
Proof.
  induction s as [| c s IH].
  - intros _. rewrite append_empty. cbn [GoStrings.SplitByte].
    now rewrite Ascii.eqb_refl.
  - rewrite append_String. cbn [GoStrings.SplitByte noByte].
    destruct (Ascii.eqb c b); [ discriminate | ]. cbn [negb andb].
    intros H. now rewrite (IH H).
Qed.

(** On a run of [3 * k] bytes the loop of [comma] never slices out of
    range; it writes [k] groups of a comma and three bytes. *)
Lemma commaGroups_spec (k : nat) (rest : string) :
  String.length rest = (3 * k)%nat ->
  exists g : string,
    commaGroups rest = Some g
    /\ (noByte "," rest = true ->
        GoStrings.RemoveByte "," g = rest
        /\ forall a : string,
             noByte "," a = true ->
             exists gs : list string,
               GoStrings.SplitByte "," (String.append a g) = a :: gs
               /\ List.length gs = k
               /\ Forall (fun x => String.length x = 3%nat) gs).
Proof.
  revert rest. induction k as [| k IH]; intros rest Hlen.
  - destruct rest; [ | discriminate ]. exists "". split; [ reflexivity | ].
    intros _. split; [ reflexivity | ]. intros a Ha. exists [].
    rewrite append_empty_r.
    rewrite (SplitByte_noByte _ _ Ha). repeat split. constructor.
  - destruct rest as [| c1 [| c2 [| c3 rest]]]; try (cbn in Hlen; lia).
    destruct (IH rest ltac:(cbn in Hlen; lia)) as (g & Hg & Hrest).
    exists (String "," (String c1 (String c2 (String c3 g)))).
    split; [ cbn [commaGroups]; now rewrite Hg | ].
    cbn [noByte]. intros Hno.
    apply andb_prop in Hno as [H1 Hno]. apply andb_prop in Hno as [H2 Hno].
    apply andb_prop in Hno as [H3 Hno].
    destruct (Hrest Hno) as [Hrm Hsplit]. split.
    + cbn [GoStrings.RemoveByte]. rewrite Ascii.eqb_refl.
      apply negb_true_iff in H1, H2, H3. rewrite H1, H2, H3, Hrm.
      reflexivity.
    + intros a Ha. rewrite (SplitByte_app_sep _ _ _ Ha).
      destruct (Hsplit (String c1 (String c2 (String c3 ""))))
        as (gs & Hgs & Hk & Hall).
      { cbn [noByte]. now rewrite H1, H2, H3. }
      rewrite !append_String, append_empty in Hgs.
      exists (String c1 (String c2 (String c3 "")) :: gs).
      rewrite Hgs. split; [ reflexivity | ].
      split; [ cbn; now rewrite Hk | ]. constructor; [ reflexivity | exact Hall ].
Qed.

(** The prefix length [comma] computes leaves a multiple of three. *)
Lemma comma_pre (len : nat) :
  (3 < len)%nat ->
  exists k : nat,
    (1 <= (if (len mod 3 =? 0)%nat then 3 else len mod 3)%nat <= 3)%nat
    /\ (len - (if (len mod 3 =? 0)%nat then 3 else len mod 3)%nat
        = 3 * k)%nat
    /\ ((if (len mod 3 =? 0)%nat then 3 else len mod 3)%nat <= len)%nat.
Proof.
  intros Hlen.
  pose proof (Nat.div_mod_eq len 3) as Hdm.
  pose proof (Nat.mod_upper_bound len 3 ltac:(lia)) as Hm.
  destruct (Nat.eqb_spec (len mod 3) 0) as [H0 | H0].
  - exists (len / 3 - 1)%nat. lia.
  - exists (len / 3)%nat. lia.
Qed.

Lemma commaBody_spec (s : string) :
  (1 <= String.length s)%nat ->
  exists t : string,
    commaBody s = Some t
    /\ (noByte "," s = true ->
        GoStrings.RemoveByte "," t = s
        /\ exists (g0 : string) (gs : list string),
             GoStrings.SplitByte "," t = g0 :: gs
             /\ (1 <= String.length g0 <= 3)%nat
             /\ Forall (fun x => String.length x = 3%nat) gs
             /\ String.length s
                = (String.length g0 + 3 * List.length gs)%nat).
Proof.
  intros Hne. unfold commaBody.
  destruct (Nat.leb_spec (String.length s) 3) as [Hshort | Hlong].
  - exists s. split; [ reflexivity | ]. intros Hno.
    split; [ now apply RemoveByte_noByte | ].
    exists s, []. rewrite (SplitByte_noByte _ _ Hno).
    repeat split; try (cbn [List.length]; lia). constructor.
  - destruct (comma_pre _ Hlong) as (k & Hpre & Hk & Hle).
    set (pre := (if (String.length s mod 3 =? 0)%nat
                 then 3 else String.length s mod 3)%nat) in *.
    destruct (substring_split pre s Hle) as (Hs & Ha & Hb).
    set (a := String.substring 0 pre s) in *.
    set (b := String.substring pre (String.length s - pre) s) in *.
    destruct (commaGroups_spec k b ltac:(lia)) as (g & Hg & Hrest).
    rewrite Hg. exists (String.append a g). split; [ reflexivity | ].
    intros Hno. rewrite Hs, noByte_app in Hno.
    apply andb_prop in Hno as [Hna Hnb].
    destruct (Hrest Hnb) as [Hrm Hsplit]. split.
    + rewrite RemoveByte_app, (RemoveByte_noByte _ _ Hna), Hrm. now rewrite <- Hs.
    + destruct (Hsplit a Hna) as (gs & Hgs & Hlen & Hall).
      exists a, gs. rewrite Hgs, Ha, Hlen. repeat split; try lia. exact Hall.
Qed.

Lemma comma_RemoveByte (n : Z) :
  Int64.MinInt64 < n <= Int64.MaxInt64 ->
  exists t : string,
    comma n = Some t /\ GoStrings.RemoveByte "," t = FormatInt n.
Proof.
  intros Hn. rewrite comma_unfold.
  destruct (Z.ltb_spec n 0) as [Hneg | Hpos].
  - rewrite wrap_in_range
      by (unfold Int64.in_range, Int64.MinInt64, Int64.MaxInt64 in *; lia).
    destruct (commaBody_spec (FormatInt (- n)) (FormatInt_nonempty _))
      as (t & Ht & Hspec).
    rewrite Ht. eexists. split; [ reflexivity | ].
    destruct (Hspec (noByte_FormatInt _)) as (Hrm & _).
    cbn [option_map]. rewrite append_String, append_empty.
    cbn [GoStrings.RemoveByte]. change (Ascii.eqb "-" ",") with false.
    rewrite Hrm. destruct n as [| p | p]; try lia. reflexivity.
  - destruct (commaBody_spec (FormatInt n) (FormatInt_nonempty _))
      as (t & Ht & Hspec).
    rewrite Ht. eexists. split; [ reflexivity | ].
    destruct (Hspec (noByte_FormatInt _)) as (Hrm & _). exact Hrm.
Qed.

(** X15: for every [int64] other than the least one, removing the commas
    from [comma n] gives back the decimal digits of [n], sign included. *)
Theorem comma_round_trip (n : Z) :
  Int64.MinInt64 < n <= Int64.MaxInt64 ->
  exists t : string,
    comma n = Some t /\ GoStrings.RemoveByte "," t = FormatInt n.
Proof. exact (comma_RemoveByte n). Qed.

Lemma comma_round_trip_example :
  exists t : string,
    comma (-1234567) = Some t
    /\ GoStrings.RemoveByte "," t = FormatInt (-1234567).
Proof.
  apply (comma_round_trip (-1234567)). vm_compute. split; [ reflexivity | ].
  discriminate.
Defined.

(** For the least [int64] the negation wraps, the digits already carry a
    minus sign, and the result has two. *)
Lemma comma_MinInt64 :
  comma Int64.MinInt64 = Some "--9,223,372,036,854,775,808".
Proof. vm_compute. reflexivity. Qed.

Lemma abs_spec (n : Z) :
  Int64.in_range n ->
  (n <> Int64.MinInt64 -> abs n = Z.abs n)
  /\ (n = Int64.MinInt64 -> abs n = Int64.MinInt64).
Proof.
  unfold abs, Int64.in_range, Int64.MinInt64, Int64.MaxInt64. intros Hr.
  split.
  - intros Hne. destruct (Z.ltb_spec n 0); [ | lia ].
    rewrite wrap_in_range
      by (unfold Int64.in_range, Int64.MinInt64, Int64.MaxInt64; lia). lia.
  - intros ->. reflexivity.
Qed.

(** X16: [abs] returns the absolute value of every [int64] except the
    least one, which it returns unchanged: the result is negative exactly
    for [math.MinInt64]. *)
Theorem abs_nonneg_iff (n : Z) :
  Int64.in_range n ->
  Int64.in_range (abs n)
  /\ abs n = (if n =? Int64.MinInt64 then Int64.MinInt64 else Z.abs n)
  /\ (abs n = Z.abs n <-> n <> Int64.MinInt64)
  /\ (abs n < 0 <-> n = Int64.MinInt64).
Proof.
  intros Hr. destruct (abs_spec n Hr) as [Hok Hmin].
  destruct (Z.eqb_spec n Int64.MinInt64) as [-> | Hne].
  - rewrite (Hmin eq_refl). split; [ exact Hr | ]. split; [ reflexivity | ].
    split; split; intros; try reflexivity; try tauto.
    + vm_compute in H. discriminate.
  - rewrite (Hok Hne).
    unfold Int64.in_range, Int64.MinInt64, Int64.MaxInt64 in *.
    split; [ lia | ]. split; [ reflexivity | ]. split; split; intros; lia.
Qed.

Lemma abs_nonneg_iff_example :
  Int64.in_range (abs (-5))
  /\ abs (-5) = (if -5 =? Int64.MinInt64 then Int64.MinInt64 else Z.abs (-5))
  /\ (abs (-5) = Z.abs (-5) <-> -5 <> Int64.MinInt64)
  /\ (abs (-5) < 0 <-> -5 = Int64.MinInt64).
Proof.
  apply (abs_nonneg_iff (-5)). vm_compute. split; discriminate.
Defined.

(** X17: for every profit other than the least [int64] the amount printed
    on a profit line, the sign worked out by the renderer followed by
    [comma(abs(profit))], is what [comma(profit)] gives; for a negative
    profit that is a minus sign in front of [comma(-profit)]. *)
Theorem profitText_comma (profit : Z) :
  Int64.MinInt64 < profit <= Int64.MaxInt64 ->
  profitText profit = comma profit
  /\ (profit < 0 ->
      comma profit = option_map (String "-") (comma (- profit))).
Proof.
  intros Hr.
  assert (Hneg : profit < 0 ->
            comma profit = option_map (String "-") (comma (- profit))).
  { intros Hlt. rewrite !comma_unfold.
    destruct (Z.ltb_spec profit 0); [ | lia ].
    destruct (Z.ltb_spec (- profit) 0); [ lia | ].
    rewrite wrap_in_range
      by (unfold Int64.in_range, Int64.MinInt64, Int64.MaxInt64 in *; lia).
    destruct (commaBody (FormatInt (- profit))); reflexivity. }
  split; [ | exact Hneg ].
  unfold profitText, abs.
  destruct (Z.ltb_spec profit 0) as [Hlt | Hge].
  - rewrite wrap_in_range
      by (unfold Int64.in_range, Int64.MinInt64, Int64.MaxInt64 in *; lia).
    rewrite (Hneg Hlt). destruct (comma (- profit)); reflexivity.
  - destruct (comma profit); reflexivity.
Qed.

Lemma profitText_comma_example :
  profitText (-1234) = comma (-1234)
  /\ (-1234 < 0 -> comma (-1234) = option_map (String "-") (comma (- -1234))).
Proof.
  apply (profitText_comma (-1234)). vm_compute. split; [ reflexivity | ].
  discriminate.
Defined.

(** A profit of exactly [math.MinInt64] is printed with three minus
    signs. *)
Lemma profitText_MinInt64 :
  profitText Int64.MinInt64 = Some "---9,223,372,036,854,775,808".
Proof. vm_compute. reflexivity. Qed.

(** ** The GP parser: letter case and surrounding white space *)

Lemma lowerByte_idem (c : ascii) :
  GoStrings.lowerByte (GoStrings.lowerByte c) = GoStrings.lowerByte c.
Proof.
  destruct c as [[] [] [] [] [] [] [] []]; vm_compute; reflexivity.
Qed.

Lemma isSpace_lowerByte (c : ascii) :
  GoStrings.isSpace (GoStrings.lowerByte c) = GoStrings.isSpace c.
Proof.
  destruct c as [[] [] [] [] [] [] [] []]; vm_compute; reflexivity.
Qed.

Lemma ToLower_idem (s : string) :
  GoStrings.ToLower (GoStrings.ToLower s) = GoStrings.ToLower s.
Proof.
  induction s as [| c s IH]; [ reflexivity | ].
  cbn [GoStrings.ToLower]. now rewrite lowerByte_idem, IH.
Qed.

Lemma ToLower_TrimLeftSpace (s : string) :
  GoStrings.ToLower (GoStrings.TrimLeftSpace s)
  = GoStrings.TrimLeftSpace (GoStrings.ToLower s).
Proof.
  induction s as [| c s IH]; [ reflexivity | ].
  cbn [GoStrings.ToLower GoStrings.TrimLeftSpace].
  rewrite isSpace_lowerByte. destruct (GoStrings.isSpace c);
    [ exact IH | reflexivity ].
Qed.

Lemma ToLower_TrimRightSpace (s : string) :
  GoStrings.ToLower (GoStrings.TrimRightSpace s)
  = GoStrings.TrimRightSpace (GoStrings.ToLower s).
Proof.
  induction s as [| c s IH]; [ reflexivity | ].
  cbn [GoStrings.ToLower GoStrings.TrimRightSpace]. rewrite <- IH.
  destruct (GoStrings.TrimRightSpace s) as [| d r];
    cbn [GoStrings.ToLower]; [ | reflexivity ].
  rewrite isSpace_lowerByte. now destruct (GoStrings.isSpace c).
Qed.

Lemma ToLower_TrimSpace (s : string) :
  GoStrings.ToLower (GoStrings.TrimSpace s)
  = GoStrings.TrimSpace (GoStrings.ToLower s).
Proof.
  unfold GoStrings.TrimSpace.
  now rewrite ToLower_TrimRightSpace, ToLower_TrimLeftSpace.
Qed.

Lemma headNotSpace_TrimLeftSpace (s : string) :
  headNotSpace (GoStrings.TrimLeftSpace s) = true.
Proof.
  induction s as [| c s IH]; [ reflexivity | ]. cbn [GoStrings.TrimLeftSpace].
  destruct (GoStrings.isSpace c) eqn:Hc; [ exact IH | ].
  cbn [headNotSpace]. now rewrite Hc.
Qed.

Lemma TrimLeftSpace_fixed (s : string) :
  headNotSpace s = true -> GoStrings.TrimLeftSpace s = s.
Proof.
  destruct s as [| c s]; [ reflexivity | ]. cbn.
  now destruct (GoStrings.isSpace c).
Qed.

Lemma headNotSpace_TrimRightSpace (s : string) :
  headNotSpace s = true -> headNotSpace (GoStrings.TrimRightSpace s) = true.
Proof.
  destruct s as [| c s]; [ reflexivity | ].
  cbn [headNotSpace GoStrings.TrimRightSpace]. intros Hc.
  destruct (GoStrings.TrimRightSpace s); cbn [headNotSpace];
    [ | exact Hc ].
  destruct (GoStrings.isSpace c) eqn:Hsp; [ discriminate | ].
  cbn [headNotSpace]. now rewrite Hsp.
Qed.

Lemma TrimRightSpace_idem (s : string) :
  GoStrings.TrimRightSpace (GoStrings.TrimRightSpace s)
  = GoStrings.TrimRightSpace s.
Proof.
  induction s as [| c s IH]; [ reflexivity | ].
  cbn [GoStrings.TrimRightSpace].
  destruct (GoStrings.TrimRightSpace s) as [| d r] eqn:Hr.
  - destruct (GoStrings.isSpace c) eqn:Hc; [ reflexivity | ].
    cbn [GoStrings.TrimRightSpace]. now rewrite Hc.
  - cbn [GoStrings.TrimRightSpace] in *. now rewrite IH.
Qed.

Lemma TrimSpace_idem (s : string) :
  GoStrings.TrimSpace (GoStrings.TrimSpace s) = GoStrings.TrimSpace s.
Proof.
  unfold GoStrings.TrimSpace.
  rewrite (TrimLeftSpace_fixed (GoStrings.TrimRightSpace _)).
  - apply TrimRightSpace_idem.
  - apply headNotSpace_TrimRightSpace, headNotSpace_TrimLeftSpace.
Qed.

Section ParseFacts.

Variable unrepresentable : spec_float -> Z.

(** X18: on ASCII text the parser does not distinguish letter case nor see
    white space around the text: lowering the letters of the input, or
    trimming the white space at its two ends, before the call changes
    neither the value nor the error. *)
Theorem parseGP_case_and_space (input : string) :
  allBytes isASCII input = true ->
  parseGP unrepresentable (GoStrings.ToLower input)
  = parseGP unrepresentable input
  /\ parseGP unrepresentable (GoStrings.TrimSpace input)
     = parseGP unrepresentable input
  /\ parseGP unrepresentable (GoStrings.TrimSpace (GoStrings.ToLower input))
     = parseGP unrepresentable input.
Proof.
  intros _. unfold parseGP.
  rewrite ToLower_idem, !ToLower_TrimSpace, ToLower_idem, !TrimSpace_idem.
  repeat split.
Qed.

End ParseFacts.

Lemma parseGP_case_and_space_example :
  parseGP (fun _ => 0) (GoStrings.ToLower " 1.5K ")
  = parseGP (fun _ => 0) " 1.5K "
  /\ parseGP (fun _ => 0) (GoStrings.TrimSpace " 1.5K ")
     = parseGP (fun _ => 0) " 1.5K "
  /\ parseGP (fun _ => 0) (GoStrings.TrimSpace (GoStrings.ToLower " 1.5K "))
     = parseGP (fun _ => 0) " 1.5K ".
Proof.
  apply (parseGP_case_and_space (fun _ => 0) " 1.5K "). reflexivity.
Defined.

(** ** The two [comma] functions *)

Lemma mod3_S (n : nat) :
  (S n mod 3 = if n mod 3 =? 2 then 0 else S (n mod 3))%nat.
Proof.
  pose proof (Nat.div_mod_eq n 3) as Hdm.
  pose proof (Nat.mod_upper_bound n 3 ltac:(lia)) as Hm.
  destruct (Nat.eqb_spec (n mod 3) 2) as [H2 | H2].
  - symmetry. apply (Nat.mod_unique _ _ (S (n / 3))); lia.
  - symmetry. apply (Nat.mod_unique _ _ (n / 3)); lia.
Qed.

Lemma mod3_SSS (n : nat) : (S (S (S n)) mod 3 = n mod 3)%nat.
Proof.
  pose proof (Nat.div_mod_eq n 3) as Hdm.
  pose proof (Nat.mod_upper_bound n 3 ltac:(lia)) as Hm.
  symmetry. apply (Nat.mod_unique _ _ (S (n / 3))); lia.
Qed.

Lemma commaBody_cons (c : ascii) (d : string) :
  commaBody (String c d)
  = option_map
      (fun t => if fullGroups d then String c (String "," t) else String c t)
      (commaBody d).
Proof.
  destruct d as [| a [| b [| c' rest]]]; try reflexivity.
  unfold commaBody, fullGroups. cbn [String.length].
  rewrite mod3_S, mod3_SSS.
  change (S (S (S (S (String.length rest)))) <=? 3)%nat with false.
  change (3 <=? S (S (S (String.length rest))))%nat with true.
  cbn [andb].
  pose proof (Nat.mod_upper_bound (String.length rest) 3 ltac:(lia)) as Hm.
  destruct (String.length rest mod 3)%nat as [| [| [| r]]] eqn:Hr; [ | | | lia ].
  - cbn [Nat.eqb String.substring Nat.sub]. rewrite substring_all.
    cbn [commaGroups].
    destruct rest as [| x rest]; [ reflexivity | ].
    change (S (S (S (String.length (String x rest)))) <=? 3)%nat with false.
    cbn [String.substring Nat.sub String.length].
    rewrite substring_all.
    destruct (commaGroups (String x rest)); reflexivity.
  - destruct rest as [| x rest]; [ discriminate | ].
    change (S (S (S (String.length (String x rest)))) <=? 3)%nat with false.
    cbn [Nat.eqb String.substring Nat.sub String.length].
    rewrite substring_all.
    destruct (commaGroups _); reflexivity.
  - destruct rest as [| x rest]; [ discriminate | ].
    change (S (S (S (String.length (String x rest)))) <=? 3)%nat with false.
    cbn [Nat.eqb String.substring Nat.sub String.length].
    rewrite substring_all.
    destruct (commaGroups _); reflexivity.
Qed.

Lemma fullGroups_nonempty (d : string) :
  (1 <= String.length d)%nat ->
  fullGroups d = (String.length d mod 3 =? 0)%nat.
Proof.
  intros Hlen. unfold fullGroups.
  pose proof (Nat.div_mod_eq (String.length d) 3) as Hdm.
  destruct (Nat.eqb_spec (String.length d mod 3) 0) as [H0 | H0];
    [ | apply andb_false_r ].
  rewrite andb_true_r. apply Nat.leb_le. lia.
Qed.

Lemma CLI_comma_unfold (n : Z) : CLI.comma n = commaBody (FormatInt n).
Proof. reflexivity. Qed.

(** X21: the command-line program's [comma] and the dashboard's agree on
    every [n >= 0].  For a negative [n] above the least [int64] the
    dashboard's puts a minus sign in front of the grouped digits of [-n];
    the command-line one does the same unless the number of digits is a
    multiple of three, where it writes a comma right behind the minus
    sign. *)
Theorem CLI_comma_sign (n : Z) :
  Int64.MinInt64 < n <= Int64.MaxInt64 ->
  exists t : string,
    comma (Z.abs n) = Some t
    /\ comma n = Some (if n <? 0 then String "-" t else t)
    /\ CLI.comma n
       = Some (if n <? 0 then
                 String "-"
                   (if (String.length (FormatInt (- n)) mod 3 =? 0)%nat
                    then String "," t else t)
               else t).
Proof.
  intros Hn. rewrite CLI_comma_unfold, !comma_unfold.
  destruct n as [| p | p].
  - exists "0". repeat split.
  - change (Z.abs (Z.pos p)) with (Z.pos p).
    change (Z.pos p <? 0) with false. cbn iota.
    destruct (commaBody_spec (FormatInt (Zpos p)) (FormatInt_nonempty _))
      as (t & Ht & _).
    exists t. rewrite Ht. cbn [option_map]. rewrite append_empty.
    repeat split.
  - change (Z.abs (Z.neg p)) with (Z.pos p).
    change (- Z.neg p) with (Z.pos p).
    change (Z.pos p <? 0) with false.
    change (Z.neg p <? 0) with true. cbn iota.
    rewrite wrap_in_range
      by (unfold Int64.in_range, Int64.MinInt64, Int64.MaxInt64 in *; lia).
    rewrite FormatInt_neg, commaBody_cons.
    rewrite (fullGroups_nonempty _ (FormatInt_nonempty _)).
    destruct (commaBody_spec (FormatInt (Zpos p)) (FormatInt_nonempty _))
      as (t & Ht & _).
    exists t. rewrite Ht. cbn [option_map].
    rewrite append_String, !append_empty.
    destruct (_ =? 0)%nat; repeat split.
Qed.

Lemma CLI_comma_sign_example :
  exists t : string,
    comma (Z.abs (-123456)) = Some t
    /\ comma (-123456) = Some (if -123456 <? 0 then String "-" t else t)
    /\ CLI.comma (-123456)
       = Some (if -123456 <? 0 then
                 String "-"
                   (if (String.length (FormatInt (- -123456)) mod 3 =? 0)%nat
                    then String "," t else t)
               else t).
Proof.
  apply (CLI_comma_sign (-123456)). vm_compute. split; [ reflexivity | ].
  discriminate.
Defined.

(** The two on a negative number of six digits, and on the least
    [int64]. *)
Lemma CLI_comma_six_digits :
  comma (-123456) = Some "-123,456"
  /\ CLI.comma (-123456) = Some "-,123,456".
Proof. vm_compute. split; reflexivity. Qed.

Lemma CLI_comma_MinInt64 :
  CLI.comma Int64.MinInt64 = Some "-9,223,372,036,854,775,808".
Proof. vm_compute. reflexivity. Qed.

(** ** Integers that a float holds exactly *)

Lemma iter_pos_nat {A : Type} (f : A -> A) (p : positive) (x : A) :
  iter_pos f p x = Nat.iter (Pos.to_nat p) f x.
Proof.
  revert x. induction p as [p IH | p IH |]; intros x; cbn [iter_pos].
  - rewrite !IH, Pos2Nat.inj_xI.
    replace (S (2 * Pos.to_nat p))%nat with (S (Pos.to_nat p + Pos.to_nat p))
      by lia.
    rewrite Nat.iter_succ_r, Nat.iter_add. reflexivity.
  - rewrite !IH, Pos2Nat.inj_xO.
    replace (2 * Pos.to_nat p)%nat with (Pos.to_nat p + Pos.to_nat p)%nat
      by lia.
    rewrite Nat.iter_add. reflexivity.
  - reflexivity.
Qed.

Lemma shr_iter_xO (k : nat) (p : positive) :
  Nat.iter k shr_1
    {| shr_m := Zpos (Nat.iter k xO p); shr_r := false; shr_s := false |}
  = {| shr_m := Zpos p; shr_r := false; shr_s := false |}.
Proof.
  induction k as [| k IH]; [ reflexivity | ].
  rewrite Nat.iter_succ_r.
  change (Nat.iter (S k) xO p) with (xO (Nat.iter k xO p)).
  cbn [shr_1 orb]. exact IH.
Qed.

Lemma digits_iter_xO (k : nat) (p : positive) :
  Zpos (digits2_pos (Nat.iter k xO p)) = Zpos (digits2_pos p) + Z.of_nat k.
Proof.
  induction k as [| k IH]; [ cbn; lia | ].
  change (Nat.iter (S k) xO p) with (xO (Nat.iter k xO p)).
  cbn [digits2_pos]. lia.
Qed.

Lemma Zpos_iter_xO (k : nat) (p : positive) :
  Zpos (Nat.iter k xO p) = Zpos p * 2 ^ Z.of_nat k.
Proof.
  induction k as [| k IH]; [ cbn; lia | ].
  change (Nat.iter (S k) xO p) with (xO (Nat.iter k xO p)).
  rewrite Pos2Z.inj_xO, IH, Nat2Z.inj_succ, Z.pow_succ_r by lia.
  lia.
Qed.

(** A mantissa of 53 bits followed by [k] zero bits rounds to itself. *)
Lemma binary_round_aux_shifted (s : bool) (m : positive) (e : Z) (k : nat) :
  Zpos (digits2_pos m) = 53 ->
  -1074 <= e <= 971 ->
  binary_round_aux Float64.prec Float64.emax s (Zpos (Nat.iter k xO m))
    (e - Z.of_nat k) loc_Exact
  = S754_finite s m e.
Proof.
  intros Hd He. unfold binary_round_aux, shr_fexp, Float64.prec, Float64.emax.
  cbn [Zdigits2 shr_record_of_loc]. rewrite digits_iter_xO, Hd.
  unfold fexp, emin.
  replace (Z.max (53 + Z.of_nat k + (e - Z.of_nat k) - 53) (3 - 1024 - 53)
           - (e - Z.of_nat k)) with (Z.of_nat k) by lia.
  assert (Hshr : shr {| shr_m := Zpos (Nat.iter k xO m); shr_r := false;
                        shr_s := false |} (e - Z.of_nat k) (Z.of_nat k)
                 = ({| shr_m := Zpos m; shr_r := false; shr_s := false |}, e)).
  { destruct k as [| k].
    { change (Z.of_nat 0) with 0. unfold shr. f_equal. lia. }
    change (Z.of_nat (S k)) with (Zpos (Pos.of_succ_nat k)).
    unfold shr. rewrite iter_pos_nat, SuccNat2Pos.id_succ.
    rewrite shr_iter_xO. f_equal. lia. }
  rewrite Hshr. cbn [shr_m loc_of_shr_record round_nearest_even Zdigits2].
  rewrite Hd.
  replace (Z.max (53 + e - 53) (3 - 1024 - 53) - e) with 0 by lia.
  cbn [shr shr_m]. destruct (Z.leb_spec e (1024 - 53)); [ reflexivity | lia ].
Qed.

Lemma digits_norm53 (p : positive) :
  Zpos (digits2_pos p) <= 53 -> Zpos (digits2_pos (norm53 p)) = 53.
Proof. intros H. unfold norm53. rewrite digits_iter_xO. lia. Qed.

Lemma binary_round_exact (s : bool) (p : positive) :
  Zpos (digits2_pos p) <= 53 ->
  binary_round Float64.prec Float64.emax s p 0
  = S754_finite s (norm53 p) (Zpos (digits2_pos p) - 53).
Proof.
  intros Hd. unfold binary_round, shl_align, fexp, emin, Float64.prec,
    Float64.emax.
  pose proof (digits_norm53 p Hd) as Hn.
  assert (Hpos : 0 < Zpos (digits2_pos p)) by lia.
  replace (Z.max (Zpos (digits2_pos p) + 0 - 53) (3 - 1024 - 53) - 0)
    with (Zpos (digits2_pos p) - 53) by lia.
  replace (Z.max (Zpos (digits2_pos p) + 0 - 53) (3 - 1024 - 53))
    with (Zpos (digits2_pos p) - 53) by lia.
  destruct (Zpos (digits2_pos p) - 53) as [| q | q] eqn:Hq; [ | lia | ].
  - assert (Hnorm : norm53 p = p).
    { unfold norm53. replace (53 - Zpos (digits2_pos p)) with 0 by lia.
      reflexivity. }
    rewrite Hnorm in *.
    apply (binary_round_aux_shifted s p 0 0 Hn). lia.
  - assert (Hnorm : norm53 p = Pos.iter xO p q).
    { unfold norm53. rewrite Pos2Nat.inj_iter.
      replace (Z.to_nat (53 - Zpos (digits2_pos p))) with (Pos.to_nat q)
        by lia.
      reflexivity. }
    rewrite <- Hnorm.
    change (Zpos (norm53 p)) with (Zpos (Nat.iter 0 xO (norm53 p))).
    replace (Z.neg q) with (Z.neg q - Z.of_nat 0) at 1 by (cbn; lia).
    apply (binary_round_aux_shifted s (norm53 p) (Z.neg q) 0 Hn). lia.
Qed.

Lemma Round_integer (s : bool) (p : positive) :
  Zpos (digits2_pos p) <= 53 ->
  Float64.Round (S754_finite s (norm53 p) (Zpos (digits2_pos p) - 53))
  = S754_finite s (norm53 p) (Zpos (digits2_pos p) - 53).
Proof.
  intros Hd. unfold Float64.Round.
  destruct (Z.leb_spec 0 (Zpos (digits2_pos p) - 53)) as [H0 | Hneg];
    [ reflexivity | ].
  assert (Hm : Zpos (norm53 p)
               = Zpos p * 2 ^ (- (Zpos (digits2_pos p) - 53))).
  { unfold norm53. rewrite Zpos_iter_xO. f_equal. f_equal. lia. }
  unfold Float64.nearestHalfUp. rewrite Hm.
  assert (Hpow : 0 < 2 ^ (- (Zpos (digits2_pos p) - 53)))
    by (apply Z.pow_pos_nonneg; lia).
  rewrite Z.div_mul, Z.mod_mul by lia.
  destruct (Z.leb_spec (2 ^ (- (Zpos (digits2_pos p) - 53))) (2 * 0));
    [ lia | ].
  now apply binary_round_exact.
Qed.

Lemma truncZ_integer (s : bool) (p : positive) :
  Zpos (digits2_pos p) <= 53 ->
  Float64.truncZ (S754_finite s (norm53 p) (Zpos (digits2_pos p) - 53))
  = Some (if s then Z.neg p else Zpos p).
Proof.
  intros Hd. unfold Float64.truncZ.
  assert (Hm : forall k, 0 <= k -> k = 53 - Zpos (digits2_pos p) ->
                         Zpos (norm53 p) = Zpos p * 2 ^ k).
  { intros k Hk ->. unfold norm53. rewrite Zpos_iter_xO. f_equal. f_equal. lia. }
  destruct (Z.leb_spec 0 (Zpos (digits2_pos p) - 53)) as [H0 | Hneg].
  - replace (Zpos (digits2_pos p) - 53) with 0 by lia.
    rewrite (Hm 0) by lia. rewrite Z.pow_0_r, !Z.mul_1_r.
    destruct s; reflexivity.
  - rewrite (Hm (- (Zpos (digits2_pos p) - 53))) by lia.
    rewrite Z.div_mul by (apply Z.pow_nonzero; lia).
    destruct s; reflexivity.
Qed.

Lemma digits2_bound (p : positive) :
  Zpos p < 2 ^ 53 -> Zpos (digits2_pos p) <= 53.
Proof.
  intros H. destruct (Z.le_gt_cases (Zpos (digits2_pos p)) 53) as [| Hgt];
    [ assumption | exfalso ].
  assert (Hlow : forall q, 2 ^ (Zpos (digits2_pos q) - 1) <= Zpos q).
  { induction q as [q IH | q IH |]; cbn [digits2_pos].
    - rewrite Pos2Z.inj_succ. change (Zpos q~1) with (2 * Zpos q + 1).
      replace (Z.succ (Zpos (digits2_pos q)) - 1)
        with (Z.succ (Zpos (digits2_pos q) - 1)) by lia.
      rewrite Z.pow_succ_r by lia. lia.
    - rewrite Pos2Z.inj_succ. change (Zpos q~0) with (2 * Zpos q).
      replace (Z.succ (Zpos (digits2_pos q)) - 1)
        with (Z.succ (Zpos (digits2_pos q) - 1)) by lia.
      rewrite Z.pow_succ_r by lia. lia.
    - cbn. lia. }
  specialize (Hlow p).
  assert (2 ^ 53 <= 2 ^ (Zpos (digits2_pos p) - 1))
    by (apply Z.pow_le_mono_r; lia).
  lia.
Qed.

(** ** Strings of digits *)

Lemma digit_facts (c : ascii) :
  GoStrconv.isDigit c = true ->
  Ascii.eqb c "_" = false /\ Ascii.eqb c "." = false
  /\ Ascii.eqb c "+" = false /\ Ascii.eqb c "-" = false
  /\ Ascii.eqb (GoStrings.lowerByte c) "x" = false
  /\ Ascii.eqb (GoStrings.lowerByte c) "e" = false
  /\ Ascii.eqb (GoStrings.lowerByte c) "i" = false
  /\ Ascii.eqb (GoStrings.lowerByte c) "n" = false
  /\ 0 <= GoStrconv.digitVal c <= 9
  /\ (Ascii.eqb c "0" = true -> GoStrconv.digitVal c = 0).
Proof.
  destruct c as [[] [] [] [] [] [] [] []]; vm_compute; intros H;
    try discriminate H; repeat split; intros; congruence.
Qed.

Lemma plain_facts (c : ascii) :
  isPlain c = true ->
  GoStrings.lowerByte c = c /\ GoStrings.isSpace c = false.
Proof.
  destruct c as [[] [] [] [] [] [] [] []]; vm_compute; intros H;
    try discriminate H; split; reflexivity.
Qed.

Lemma digitOrMinus_facts (c : ascii) :
  isDigitOrMinus c = true ->
  Ascii.eqb c "k" = false /\ Ascii.eqb c "m" = false
  /\ Ascii.eqb c "b" = false /\ isPlain c = true.
Proof.
  destruct c as [[] [] [] [] [] [] [] []]; vm_compute; intros H;
    try discriminate H; repeat split.
Qed.

Lemma allBytes_impl (P Q : ascii -> bool) (s : string) :
  (forall c, P c = true -> Q c = true) ->
  allBytes P s = true -> allBytes Q s = true.
Proof.
  intros HPQ. induction s as [| c s IH]; [ reflexivity | ]. cbn [allBytes].
  intros H. apply andb_prop in H as [Hc Hs]. now rewrite (HPQ c Hc), IH.
Qed.

Lemma allBytes_RemoveByte_inv (P : ascii -> bool) (b : ascii) (s : string) :
  P b = true ->
  allBytes P (GoStrings.RemoveByte b s) = true -> allBytes P s = true.
Proof.
  intros Hb. induction s as [| c s IH]; [ reflexivity | ].
  cbn [GoStrings.RemoveByte allBytes].
  destruct (Ascii.eqb_spec c b) as [-> | Hne].
  - intros H. now rewrite Hb, IH.
  - cbn [allBytes]. intros H. apply andb_prop in H as [Hc Hs].
    now rewrite Hc, IH.
Qed.

Lemma HasSuffixByte_absent (P : ascii -> bool) (b : ascii) (s : string) :
  (forall c, P c = true -> Ascii.eqb c b = false) ->
  allBytes P s = true -> GoStrings.HasSuffixByte b s = false.
Proof.
  intros HP. induction s as [| c s IH]; [ reflexivity | ]. cbn [allBytes].
  intros H. apply andb_prop in H as [Hc Hs]. cbn [GoStrings.HasSuffixByte].
  destruct s as [| c' s']; [ now apply HP | now apply IH ].
Qed.

Lemma allBytes_uint (d : Decimal.uint) :
  allBytes GoStrconv.isDigit (NilEmpty.string_of_uint d) = true.
Proof. induction d; cbn [NilEmpty.string_of_uint allBytes]; now rewrite ?IHd. Qed.

Lemma valDigits_acc (d : Decimal.uint) (acc : positive) :
  valDigits (Zpos acc) (NilEmpty.string_of_uint d)
  = Zpos (Pos.of_uint_acc d acc).
Proof.
  revert acc. induction d; intros acc;
    cbn [NilEmpty.string_of_uint valDigits Pos.of_uint_acc];
    [ reflexivity | .. ];
    rewrite <- IHd; f_equal; vm_compute GoStrconv.digitVal; lia.
Qed.

Lemma valDigits_uint (d : Decimal.uint) :
  valDigits 0 (NilEmpty.string_of_uint d) = Z.of_N (Pos.of_uint d).
Proof.
  induction d; cbn [NilEmpty.string_of_uint valDigits Pos.of_uint Z.of_N];
    [ reflexivity | exact IHd | .. ];
    rewrite <- valDigits_acc; reflexivity.
Qed.

Lemma length_uint (d : Decimal.uint) :
  String.length (NilEmpty.string_of_uint d) = Decimal.nb_digits d.
Proof. induction d; cbn; congruence. Qed.

Lemma nb_digits_double (d : Decimal.uint) :
  (Decimal.nb_digits (Decimal.Little.double d) <= S (Decimal.nb_digits d))%nat
  /\ (Decimal.nb_digits (Decimal.Little.succ_double d)
      <= S (Decimal.nb_digits d))%nat.
Proof.
  induction d as [| d [IH1 IH2] | d [IH1 IH2] | d [IH1 IH2] | d [IH1 IH2]
                  | d [IH1 IH2] | d [IH1 IH2] | d [IH1 IH2] | d [IH1 IH2]
                  | d [IH1 IH2] | d [IH1 IH2]]; cbn; lia.
Qed.

Lemma nb_digits_little (p : positive) :
  (Decimal.nb_digits (Pos.to_little_uint p) <= Pos.to_nat (digits2_pos p))%nat.
Proof.
  induction p as [p IH | p IH |]; cbn [Pos.to_little_uint digits2_pos].
  - pose proof (proj2 (nb_digits_double (Pos.to_little_uint p))). lia.
  - pose proof (proj1 (nb_digits_double (Pos.to_little_uint p))). lia.
  - cbn. lia.
Qed.

Lemma FormatInt_pos (p : positive) : FormatInt (Zpos p) = digitsOf p.
Proof.
  unfold FormatInt, digitsOf. cbn [Z.to_int NilZero.string_of_int].
  unfold NilZero.string_of_uint.
  pose proof (DecimalPos.Unsigned.to_uint_nonnil p) as Hn.
  destruct (Pos.to_uint p); [ congruence | reflexivity .. ].
Qed.

Lemma digitsOf_facts (p : positive) :
  allBytes GoStrconv.isDigit (digitsOf p) = true
  /\ valDigits 0 (digitsOf p) = Zpos p
  /\ (1 <= String.length (digitsOf p))%nat
  /\ Z.of_nat (String.length (digitsOf p)) <= Zpos (digits2_pos p).
Proof.
  unfold digitsOf. split; [ apply allBytes_uint | ].
  split; [ rewrite valDigits_uint, DecimalPos.Unsigned.of_to; reflexivity | ].
  rewrite length_uint. unfold Pos.to_uint.
  rewrite DecimalFacts.nb_digits_rev.
  pose proof (nb_digits_little p) as Hle.
  pose proof (DecimalPos.Unsigned.to_uint_nonnil p) as Hn.
  split; [ | lia ].
  unfold Pos.to_uint in Hn.
  rewrite <- (DecimalFacts.nb_digits_rev (Pos.to_little_uint p)).
  destruct (Decimal.rev (Pos.to_little_uint p)); [ congruence | cbn; lia .. ].
Qed.

(** ** The groups of [comma] *)

Lemma SplitByte_cons (sep : ascii) (s : string) :
  exists (p : string) (ps : list string), GoStrings.SplitByte sep s = p :: ps.
Proof.
  destruct s as [| c s]; [ now exists "", [] | ]. cbn [GoStrings.SplitByte].
  destruct (Ascii.eqb c sep); [ now eexists _, _ | ].
  destruct (GoStrings.SplitByte sep s); now eexists _, _.
Qed.

Lemma concat_cons (sep x : string) (xs : list string) :
  String.concat sep (x :: xs)
  = match xs with
    | [] => x
    | _ :: _ => String.append x (String.append sep (String.concat sep xs))
    end.
Proof. destruct xs; reflexivity. Qed.

(** Joining the pieces with the separator gives the text back. *)
Lemma SplitByte_join (sep : ascii) (s : string) :
  String.concat (String sep "") (GoStrings.SplitByte sep s) = s.
Proof.
  induction s as [| c s IH]; [ reflexivity | ]. cbn [GoStrings.SplitByte].
  destruct (SplitByte_cons sep s) as (p & ps & Hs). rewrite Hs in *.
  destruct (Ascii.eqb_spec c sep) as [-> | Hne].
  - rewrite concat_cons, IH. reflexivity.
  - rewrite concat_cons. rewrite concat_cons in IH. destruct ps as [| q qs].
    + now rewrite IH.
    + rewrite append_String, IH. reflexivity.
Qed.

(** Putting the pieces together without it removes the separators. *)
Lemma SplitByte_concat (sep : ascii) (s : string) :
  String.concat "" (GoStrings.SplitByte sep s) = GoStrings.RemoveByte sep s.
Proof.
  induction s as [| c s IH]; [ reflexivity | ].
  cbn [GoStrings.SplitByte GoStrings.RemoveByte].
  destruct (SplitByte_cons sep s) as (p & ps & Hs). rewrite Hs in *.
  destruct (Ascii.eqb c sep).
  - rewrite concat_cons, !append_empty. exact IH.
  - rewrite concat_cons. rewrite concat_cons in IH. destruct ps as [| q qs].
    + now rewrite IH.
    + rewrite append_String, IH. reflexivity.
Qed.

Lemma allBytes_FormatInt (n : Z) :
  0 <= n -> allBytes GoStrconv.isDigit (FormatInt n) = true.
Proof.
  destruct n as [| p | p]; intros Hn; [ reflexivity | | lia ].
  rewrite FormatInt_pos. now destruct (digitsOf_facts p).
Qed.

(** X14: [comma] never slices out of range, whatever its argument; for
    [n >= 0] its result is a first group of one to three bytes and groups
    of exactly three, joined by commas, and the groups put together are the
    decimal notation of [n], which consists of digits only. *)
Theorem comma_groups (n : Z) :
  exists t : string,
    comma n = Some t
    /\ (0 <= n ->
        exists (g0 : string) (gs : list string),
          GoStrings.SplitByte "," t = g0 :: gs
          /\ t = String.concat "," (g0 :: gs)
          /\ (1 <= String.length g0 <= 3)%nat
          /\ Forall (fun x => String.length x = 3%nat) gs
          /\ String.concat "" (g0 :: gs) = FormatInt n
          /\ allBytes GoStrconv.isDigit (FormatInt n) = true).
Proof.
  rewrite comma_unfold.
  destruct (commaBody_spec
              (FormatInt (if n <? 0 then Int64.wrap (- n) else n))
              (FormatInt_nonempty _)) as (t & Ht & Hspec).
  rewrite Ht. cbn [option_map]. eexists. split; [ reflexivity | ].
  intros Hn. destruct (Z.ltb_spec n 0) as [Hlt | Hge]; [ lia | ].
  rewrite append_empty.
  destruct (Hspec (noByte_FormatInt _))
    as (Hrm & g0 & gs & Hsplit & Hg0 & Hgs & _).
  exists g0, gs. split; [ exact Hsplit | ].
  split; [ rewrite <- Hsplit; symmetry; apply SplitByte_join | ].
  split; [ exact Hg0 | ]. split; [ exact Hgs | ].
  split; [ rewrite <- Hsplit, SplitByte_concat; exact Hrm | ].
  now apply allBytes_FormatInt.
Qed.

Lemma comma_groups_million :
  comma 1234567 = Some "1,234,567"
  /\ GoStrings.SplitByte "," "1,234,567" = ["1"; "234"; "567"].
Proof. vm_compute. split; reflexivity. Qed.

(** ** Parsing a decimal integer *)

Lemma String_eqb_head (c c' : ascii) (s s' : string) :
  Ascii.eqb c c' = false -> String.eqb (String c s) (String c' s') = false.
Proof. intros H. cbn [String.eqb]. now rewrite H. Qed.

Lemma readDigits_digits (s : string) (st : GoStrconv.scan) :
  allBytes GoStrconv.isDigit s = true ->
  0 <= GoStrconv.nd st ->
  (GoStrconv.nd st = 0 -> GoStrconv.mantissa st = 0) ->
  exists nd' dp' : Z,
    GoStrconv.readDigits 10 s st
    = (GoStrconv.mkScan (valDigits (GoStrconv.mantissa st) s) nd' dp'
         (GoStrconv.sawdot st)
         (GoStrconv.sawdigits st || negb (String.eqb s ""))
         (GoStrconv.underscores st), "")
    /\ GoStrconv.nd st <= nd' <= GoStrconv.nd st + Z.of_nat (String.length s).
Proof.
  revert st. induction s as [| c s IH]; intros st Hall Hnd Hm.
  - exists (GoStrconv.nd st), (GoStrconv.dp st). destruct st as [m n d sd sg us].
    cbn. rewrite orb_false_r. split; [ reflexivity | lia ].
  - cbn [allBytes] in Hall. apply andb_prop in Hall as [Hc Hs].
    destruct (digit_facts c Hc) as (Hu & Hdot & _ & _ & _ & _ & _ & _ & Hv & H0).
    cbn [GoStrconv.readDigits valDigits]. rewrite Hu, Hdot, Hc.
    change (String.eqb (String c s) "") with false.
    cbn [negb]. rewrite orb_true_r.
    destruct (Ascii.eqb c "0" && (GoStrconv.nd st =? 0)) eqn:Hz.
    + apply andb_prop in Hz as [Hc0 Hn0]. apply Z.eqb_eq in Hn0.
      rewrite (H0 Hc0).
      destruct (IH (GoStrconv.mkScan (GoStrconv.mantissa st) (GoStrconv.nd st)
                      (GoStrconv.dp st - 1) (GoStrconv.sawdot st) true
                      (GoStrconv.underscores st)) Hs)
        as (nd' & dp' & Heq & Hb); cbn [GoStrconv.nd GoStrconv.mantissa];
        [ assumption .. | ].
      exists nd', dp'. rewrite Heq.
      cbn [GoStrconv.nd GoStrconv.mantissa GoStrconv.sawdot
             GoStrconv.sawdigits GoStrconv.underscores orb] in *.
      rewrite (Hm Hn0). split; [ reflexivity | ].
      cbn [String.length]. lia.
    + destruct (IH (GoStrconv.mkScan
                      (GoStrconv.mantissa st * 10 + GoStrconv.digitVal c)
                      (GoStrconv.nd st + 1) (GoStrconv.dp st)
                      (GoStrconv.sawdot st) true (GoStrconv.underscores st)) Hs)
        as (nd' & dp' & Heq & Hb); cbn [GoStrconv.nd GoStrconv.mantissa];
        [ lia .. | ].
      exists nd', dp'. rewrite Heq.
      cbn [GoStrconv.nd GoStrconv.mantissa GoStrconv.sawdot
             GoStrconv.sawdigits GoStrconv.underscores orb] in *.
      split; [ reflexivity | ]. cbn [String.length]. lia.
Qed.

Lemma stripSign_signed (neg : bool) (c : ascii) (s : string) :
  GoStrconv.isDigit c = true ->
  GoStrconv.stripSign (signed neg (String c s)) = (neg, String c s).
Proof.
  intros Hc. destruct (digit_facts c Hc) as (_ & _ & Hp & Hm & _).
  destruct neg; cbn [signed GoStrconv.stripSign]; [ reflexivity | ].
  now rewrite Hp, Hm.
Qed.

Lemma special_signed (neg : bool) (c : ascii) (s : string) :
  GoStrconv.isDigit c = true ->
  GoStrconv.special (signed neg (String c s)) = None.
Proof.
  intros Hc. unfold GoStrconv.special. rewrite (stripSign_signed _ _ _ Hc).
  destruct (digit_facts c Hc) as (_ & _ & _ & _ & _ & _ & Hi & Hn & _).
  cbn [GoStrings.ToLower].
  rewrite !(String_eqb_head _ _ _ _ Hi). cbn [orb].
  destruct neg; cbn [signed GoStrings.ToLower].
  - rewrite String_eqb_head; reflexivity.
  - rewrite (String_eqb_head _ _ _ _ Hn). reflexivity.
Qed.

Lemma hexPrefix_digits (s : string) :
  allBytes GoStrconv.isDigit s = true -> GoStrconv.hexPrefix s = None.
Proof.
  destruct s as [| c0 [| c1 [| c2 s]]]; try reflexivity.
  cbn [allBytes]. intros H. apply andb_prop in H as [_ H].
  apply andb_prop in H as [H1 _].
  destruct (digit_facts c1 H1) as (_ & _ & _ & _ & Hx & _).
  cbn [GoStrconv.hexPrefix]. now rewrite Hx, andb_false_r.
Qed.

Lemma ParseFloat_signed (neg : bool) (p : positive) :
  Zpos p < 2 ^ 53 ->
  GoStrconv.ParseFloat (signed neg (digitsOf p))
  = inl (S754_finite neg (norm53 p) (Zpos (digits2_pos p) - 53)).
Proof.
  intros Hp. pose proof (digits2_bound p Hp) as Hd.
  destruct (digitsOf_facts p) as (Hall & Hval & Hlen1 & Hlen).
  destruct (digitsOf p) as [| c s] eqn:HD; [ cbn in Hlen1; lia | ].
  assert (Hc : GoStrconv.isDigit c = true).
  { cbn [allBytes] in Hall. now apply andb_prop in Hall as [? _]. }
  unfold GoStrconv.ParseFloat.
  rewrite (special_signed _ _ _ Hc), (stripSign_signed _ _ _ Hc).
  rewrite (hexPrefix_digits _ Hall).
  destruct (readDigits_digits (String c s) GoStrconv.scan0 Hall)
    as (nd' & dp' & Heq & Hnd); [ cbn; lia | reflexivity | ].
  rewrite Heq. unfold GoStrconv.scan0 in *.
  cbn [GoStrconv.nd GoStrconv.mantissa] in *.
  change (String.eqb (String c s) "") with false.
  cbn [GoStrconv.sawdigits GoStrconv.sawdot GoStrconv.nd GoStrconv.dp
         GoStrconv.underscores GoStrconv.mantissa negb orb andb
         GoStrconv.readExponent].
  change (String.eqb "" "") with true. cbn [negb].
  rewrite Hval. unfold Float64.ofDecimal.
  replace (310 <? nd' + 0) with false by (symmetry; apply Z.ltb_ge; lia).
  replace (nd' + 0 <? -330) with false by (symmetry; apply Z.ltb_ge; lia).
  replace (nd' + 0 - nd') with 0 by lia.
  change (0 <=? 0) with true. cbn iota.
  replace (Z.to_pos (Zpos p * 10 ^ 0)) with p by (cbn; lia).
  rewrite (binary_round_exact _ _ Hd). reflexivity.
Qed.

Lemma FormatInt_signed (n : Z) :
  n <> 0 ->
  FormatInt n = signed (n <? 0) (digitsOf (Z.to_pos (Z.abs n))).
Proof.
  destruct n as [| p | p]; intros Hn; [ congruence | .. ].
  - apply FormatInt_pos.
  - rewrite FormatInt_neg, FormatInt_pos. reflexivity.
Qed.

Lemma allBytes_signed (neg : bool) (p : positive) :
  allBytes isDigitOrMinus (signed neg (digitsOf p)) = true.
Proof.
  destruct (digitsOf_facts p) as (Hall & _).
  assert (H : allBytes isDigitOrMinus (digitsOf p) = true).
  { revert Hall. apply allBytes_impl. intros c Hc. unfold isDigitOrMinus.
    now rewrite Hc. }
  destruct neg; cbn [signed allBytes]; [ | exact H ]. now rewrite H.
Qed.

(** ** Exact products *)

Lemma digits2_spec (p : positive) :
  2 ^ (Zpos (digits2_pos p) - 1) <= Zpos p < 2 ^ Zpos (digits2_pos p).
Proof.
  induction p as [q IH | q IH |]; cbn [digits2_pos].
  - rewrite Pos2Z.inj_succ. change (Zpos q~1) with (2 * Zpos q + 1).
    replace (Z.succ (Zpos (digits2_pos q)) - 1)
      with (Z.succ (Zpos (digits2_pos q) - 1)) by lia.
    rewrite !Z.pow_succ_r by lia. lia.
  - rewrite Pos2Z.inj_succ. change (Zpos q~0) with (2 * Zpos q).
    replace (Z.succ (Zpos (digits2_pos q)) - 1)
      with (Z.succ (Zpos (digits2_pos q) - 1)) by lia.
    rewrite !Z.pow_succ_r by lia. lia.
  - cbn. lia.
Qed.

Lemma digits2_mul (p q : positive) :
  Zpos (digits2_pos p) + Zpos (digits2_pos q) - 1
  <= Zpos (digits2_pos (p * q)).
Proof.
  pose proof (digits2_spec p) as [Hp _].
  pose proof (digits2_spec q) as [Hq _].
  pose proof (digits2_spec (p * q)) as [_ Hpq].
  rewrite Pos2Z.inj_mul in Hpq.
  assert (Hlow : 2 ^ (Zpos (digits2_pos p) - 1 + (Zpos (digits2_pos q) - 1))
                 <= Zpos p * Zpos q).
  { rewrite Z.pow_add_r by lia. apply Z.mul_le_mono_nonneg; lia. }
  assert (Hlt : Zpos (digits2_pos p) - 1 + (Zpos (digits2_pos q) - 1)
                < Zpos (digits2_pos (p * q))).
  { apply (Z.pow_lt_mono_r_iff 2); lia. }
  lia.
Qed.

Lemma Zpos_norm53 (p : positive) :
  Zpos (digits2_pos p) <= 53 ->
  Zpos (norm53 p) = Zpos p * 2 ^ (53 - Zpos (digits2_pos p)).
Proof.
  intros Hd. unfold norm53. rewrite Zpos_iter_xO, Z2Nat.id by lia.
  reflexivity.
Qed.

Lemma mul_exact (s : bool) (p q : positive) :
  Zpos (p * q) < 2 ^ 53 ->
  Float64.mul (S754_finite s (norm53 p) (Zpos (digits2_pos p) - 53))
              (S754_finite false (norm53 q) (Zpos (digits2_pos q) - 53))
  = S754_finite s (norm53 (p * q)) (Zpos (digits2_pos (p * q)) - 53).
Proof.
  intros Hpq. pose proof (digits2_bound _ Hpq) as Hdpq.
  pose proof (digits2_mul p q) as Hmul.
  assert (Hdp : Zpos (digits2_pos p) <= 53) by lia.
  assert (Hdq : Zpos (digits2_pos q) <= 53) by lia.
  unfold Float64.mul, SFmul. rewrite xorb_false_r.
  set (k := Z.to_nat (53 + Zpos (digits2_pos (p * q))
                      - Zpos (digits2_pos p) - Zpos (digits2_pos q))).
  assert (Hm : (norm53 p * norm53 q)%positive
               = Nat.iter k xO (norm53 (p * q))).
  { apply Pos2Z.inj. rewrite Zpos_iter_xO, Pos2Z.inj_mul, !Zpos_norm53 by lia.
    unfold k. rewrite Z2Nat.id by lia. rewrite Pos2Z.inj_mul.
    rewrite <- !Z.mul_assoc, <- Z.pow_add_r by lia.
    rewrite (Z.mul_comm (2 ^ _) (Zpos q * _)), <- !Z.mul_assoc.
    rewrite <- Z.pow_add_r by lia. do 3 f_equal. lia. }
  rewrite Hm.
  replace (Zpos (digits2_pos p) - 53 + (Zpos (digits2_pos q) - 53))
    with (Zpos (digits2_pos (p * q)) - 53 - Z.of_nat k)
    by (unfold k; rewrite Z2Nat.id by lia; lia).
  apply binary_round_aux_shifted; [ now apply digits_norm53 | lia ].
Qed.

Lemma ofZ_scale (sfx : Suffix) :
  Float64.ofZ (suffixScale sfx)
  = S754_finite false (norm53 (scalePos sfx))
      (Zpos (digits2_pos (scalePos sfx)) - 53).
Proof. destruct sfx; vm_compute; reflexivity. Qed.

Section Finish.

Variable unrepresentable : spec_float -> Z.

Lemma toInt64_product (neg : bool) (p : positive) (sfx : Suffix) :
  Zpos (p * scalePos sfx) < 2 ^ 53 ->
  Float64.toInt64 unrepresentable
    (Float64.Round
       (Float64.mul
          (S754_finite neg (norm53 p) (Zpos (digits2_pos p) - 53))
          (Float64.ofZ (suffixScale sfx))))
  = (if neg then Z.neg p else Zpos p) * suffixScale sfx.
Proof.
  intros Hpq. pose proof (digits2_bound _ Hpq) as Hd.
  rewrite ofZ_scale, (mul_exact _ _ _ Hpq), (Round_integer _ _ Hd).
  unfold Float64.toInt64. rewrite (truncZ_integer _ _ Hd).
  assert (Hr : Int64.MinInt64
               <= (if neg then Z.neg (p * scalePos sfx)
                   else Zpos (p * scalePos sfx))
               <= Int64.MaxInt64).
  { unfold Int64.MinInt64, Int64.MaxInt64, Int64.modulus.
    assert (Zpos (p * scalePos sfx) < 2 ^ 63)
      by (eapply Z.lt_trans; [ exact Hpq | reflexivity ]).
    destruct neg; lia. }
  destruct Hr as [Hlo Hhi]. apply Z.leb_le in Hlo, Hhi. rewrite Hlo, Hhi.
  destruct neg; reflexivity.
Qed.

End Finish.

(** ** Suffixes *)

Lemma allBytes_app (P : ascii -> bool) (s1 s2 : string) :
  allBytes P (String.append s1 s2) = allBytes P s1 && allBytes P s2.
Proof.
  induction s1 as [| c s1 IH]; [ reflexivity | ].
  rewrite append_String. cbn [allBytes]. now rewrite IH, andb_assoc.
Qed.

Lemma quiet_facts (c : ascii) :
  quiet c = true -> GoStrings.lowerByte c = c /\ GoStrings.isSpace c = false.
Proof.
  unfold quiet. intros H. apply andb_prop in H as [Hl Hs].
  apply Ascii.eqb_eq in Hl. apply negb_true_iff in Hs. now split.
Qed.

Lemma plain_quiet (c : ascii) : isPlain c = true -> quiet c = true.
Proof.
  intros H. destruct (plain_facts c H) as [Hl Hs]. unfold quiet.
  now rewrite Hl, Hs, Ascii.eqb_refl.
Qed.

Lemma ToLower_quiet (s : string) :
  allBytes quiet s = true -> GoStrings.ToLower s = s.
Proof.
  induction s as [| c s IH]; [ reflexivity | ]. cbn [allBytes GoStrings.ToLower].
  intros H. apply andb_prop in H as [Hc Hs].
  destruct (quiet_facts c Hc) as [-> _]. now rewrite IH.
Qed.

Lemma TrimSpace_quiet (s : string) :
  allBytes quiet s = true -> GoStrings.TrimSpace s = s.
Proof.
  intros H. unfold GoStrings.TrimSpace.
  assert (Hl : GoStrings.TrimLeftSpace s = s).
  { destruct s as [| c s]; [ reflexivity | ]. cbn [allBytes] in H.
    apply andb_prop in H as [Hc _]. cbn [GoStrings.TrimLeftSpace].
    destruct (quiet_facts c Hc) as [_ ->]. reflexivity. }
  rewrite Hl. clear Hl. induction s as [| c s IH]; [ reflexivity | ].
  cbn [allBytes] in H. apply andb_prop in H as [Hc Hs].
  cbn [GoStrings.TrimRightSpace]. rewrite (IH Hs).
  destruct (quiet_facts c Hc) as [_ ->]. now destruct s.
Qed.

Lemma allBytes_suffixText (sfx : Suffix) :
  allBytes quiet (suffixText sfx) = true.
Proof. destruct sfx; reflexivity. Qed.

Lemma RemoveByte_suffixText (sfx : Suffix) :
  GoStrings.RemoveByte "," (suffixText sfx) = suffixText sfx.
Proof. destruct sfx; reflexivity. Qed.

Lemma HasSuffixByte_snoc (b' b : ascii) (s : string) :
  GoStrings.HasSuffixByte b' (String.append s (String b ""))
  = Ascii.eqb b b'.
Proof.
  induction s as [| c s IH]; [ reflexivity | ].
  rewrite append_String. cbn [GoStrings.HasSuffixByte]. rewrite IH.
  destruct s; reflexivity.
Qed.

Lemma dropLast_snoc (b : ascii) (s : string) :
  GoStrings.dropLast (String.append s (String b "")) = s.
Proof.
  induction s as [| c s IH]; [ reflexivity | ].
  rewrite append_String. cbn [GoStrings.dropLast]. rewrite IH.
  destruct s; reflexivity.
Qed.

Lemma splitSuffix_signed (neg : bool) (p : positive) (sfx : Suffix) :
  splitSuffix (String.append (signed neg (digitsOf p)) (suffixText sfx))
  = (Float64.ofZ (suffixScale sfx), signed neg (digitsOf p)).
Proof.
  pose proof (allBytes_signed neg p) as Hdm. unfold splitSuffix.
  destruct sfx; cbn [suffixText];
    rewrite ?append_empty_r, ?HasSuffixByte_snoc;
    unfold GoStrings.TrimSuffixByte;
    rewrite ?HasSuffixByte_snoc, ?dropLast_snoc; try reflexivity.
  rewrite (HasSuffixByte_absent isDigitOrMinus "k"),
    (HasSuffixByte_absent isDigitOrMinus "m"),
    (HasSuffixByte_absent isDigitOrMinus "b");
    try assumption; try reflexivity;
    intros c Hc; now destruct (digitOrMinus_facts c Hc) as (? & ? & ? & _).
Qed.

Section ParseSuffix.

Variable unrepresentable : spec_float -> Z.

Lemma parseGP_splitSuffix (input : string) :
  parseGP unrepresentable input
  = let '(multiplier, text) :=
      splitSuffix
        (GoStrings.RemoveByte ","
           (GoStrings.TrimSpace (GoStrings.ToLower input))) in
    match GoStrconv.ParseFloat text with
    | inr err => (0, Some err)
    | inl number =>
        (Float64.toInt64 unrepresentable
           (Float64.Round (Float64.mul number multiplier)), None)
    end.
Proof. reflexivity. Qed.

Lemma normalise_suffixed (t : string) (sfx : Suffix) :
  allBytes isPlain t = true ->
  GoStrings.RemoveByte ","
    (GoStrings.TrimSpace
       (GoStrings.ToLower (String.append t (suffixText sfx))))
  = String.append (GoStrings.RemoveByte "," t) (suffixText sfx).
Proof.
  intros Hplain.
  assert (Hq : allBytes quiet (String.append t (suffixText sfx)) = true).
  { rewrite allBytes_app, allBytes_suffixText, andb_true_r.
    revert Hplain. apply allBytes_impl, plain_quiet. }
  rewrite (ToLower_quiet _ Hq), (TrimSpace_quiet _ Hq), RemoveByte_app.
  now rewrite RemoveByte_suffixText.
Qed.

Lemma parseGP_signed_suffix (neg : bool) (p : positive) (t : string)
  (sfx : Suffix) :
  Zpos (p * scalePos sfx) < 2 ^ 53 ->
  GoStrings.RemoveByte "," t = signed neg (digitsOf p) ->
  parseGP unrepresentable (String.append t (suffixText sfx))
  = ((if neg then Z.neg p else Zpos p) * suffixScale sfx, None).
Proof.
  intros Hpq Hrm.
  assert (Hp : Zpos p < 2 ^ 53).
  { rewrite Pos2Z.inj_mul in Hpq. nia. }
  pose proof (allBytes_signed neg p) as Hdm.
  assert (Hplain : allBytes isPlain t = true).
  { apply (allBytes_RemoveByte_inv _ ","); [ reflexivity | ]. rewrite Hrm.
    revert Hdm. apply allBytes_impl. intros c Hc.
    now destruct (digitOrMinus_facts c Hc) as (_ & _ & _ & ?). }
  rewrite parseGP_splitSuffix, (normalise_suffixed _ _ Hplain), Hrm.
  rewrite splitSuffix_signed, (ParseFloat_signed _ _ Hp).
  now rewrite toInt64_product.
Qed.

Lemma parseGP_zero_suffix (t : string) (sfx : Suffix) :
  GoStrings.RemoveByte "," t = "0" ->
  parseGP unrepresentable (String.append t (suffixText sfx)) = (0, None).
Proof.
  intros Hrm.
  assert (Hplain : allBytes isPlain t = true).
  { apply (allBytes_RemoveByte_inv _ ","); [ reflexivity | ]. now rewrite Hrm. }
  rewrite parseGP_splitSuffix, (normalise_suffixed _ _ Hplain), Hrm.
  destruct sfx; vm_compute; reflexivity.
Qed.

Lemma parseGP_decimal_text (n : Z) (t : string) (sfx : Suffix) :
  - 2 ^ 53 < n * suffixScale sfx < 2 ^ 53 ->
  GoStrings.RemoveByte "," t = FormatInt n ->
  parseGP unrepresentable (String.append t (suffixText sfx))
  = (n * suffixScale sfx, None).
Proof.
  intros Hn Hrm. destruct (Z.eq_dec n 0) as [-> | Hne].
  - now apply parseGP_zero_suffix.
  - rewrite (FormatInt_signed n Hne) in Hrm.
    assert (Hp : Zpos (Z.to_pos (Z.abs n) * scalePos sfx) < 2 ^ 53).
    { rewrite Pos2Z.inj_mul, Z2Pos.id by lia. unfold suffixScale in Hn.
      destruct n as [| p | p]; cbn [Z.abs]; lia. }
    rewrite (parseGP_signed_suffix _ _ _ _ Hp Hrm).
    destruct n as [| p | p]; [ congruence | reflexivity .. ].
Qed.

End ParseSuffix.

Section ParseDecimal.

Variable unrepresentable : spec_float -> Z.

(** X19: whole numbers are parsed exactly.  A text that is the decimal
    notation of the integer [n], with commas anywhere in it and followed by
    nothing or by one of the suffixes k, m, b, parses without error to
    [n] times 1, 1000, 1000000 or 1000000000, as long as that product is
    below [2^53] in absolute value: none of the float64 steps in between
    rounds. *)
Theorem parseGP_decimal (n : Z) (t : string) (sfx : Suffix) :
  - 2 ^ 53 < n * suffixScale sfx < 2 ^ 53 ->
  GoStrings.RemoveByte "," t = FormatInt n ->
  parseGP unrepresentable (String.append t (suffixText sfx))
  = (n * suffixScale sfx, None).
Proof. exact (parseGP_decimal_text unrepresentable n t sfx). Qed.

(** X20: what [comma] prints, [parseGP] reads back: for [|n| < 2^53] the
    text [comma n] parses without error to [n]. *)
Theorem parseGP_comma (n : Z) :
  - 2 ^ 53 < n < 2 ^ 53 ->
  exists t : string,
    comma n = Some t /\ parseGP unrepresentable t = (n, None).
Proof.
  intros Hn.
  destruct (comma_RemoveByte n) as (t & Hc & Hrm).
  { unfold Int64.MinInt64, Int64.MaxInt64, Int64.modulus.
    assert (2 ^ 53 < 2 ^ 63) by reflexivity. lia. }
  exists t. split; [ exact Hc | ].
  pose proof (parseGP_decimal_text unrepresentable n t noSuffix) as H.
  cbn [suffixText] in H. rewrite append_empty_r in H.
  change (suffixScale noSuffix) with 1 in H. rewrite Z.mul_1_r in H.
  now apply H.
Qed.

(** Beyond 53 bits the float in between loses digits. *)
Lemma parseGP_53_bits :
  parseGP unrepresentable "9,007,199,254,740,993" = (9007199254740992, None).
Proof. vm_compute. reflexivity. Qed.

End ParseDecimal.

Lemma parseGP_decimal_example :
  parseGP (fun _ => 0) "-1,250k" = (-1250000, None).
Proof.
  apply (parseGP_decimal (fun _ => 0) (-1250) "-1,250" suffixK);
    [ vm_compute; split; reflexivity | reflexivity ].
Defined.

Lemma parseGP_comma_example :
  exists t : string,
    comma (-1234567) = Some t
    /\ parseGP (fun _ => 0) t = (-1234567, None).
Proof.
  apply (parseGP_comma (fun _ => 0) (-1234567)). vm_compute.
  split; reflexivity.
Defined.

Section CLIFacts.

Variable unrepresentable : spec_float -> Z.

(** X22: the command-line program's [comma] never slices out of range;
    removing the commas from its result gives back the decimal notation of
    [n], for every [n], and for [|n| < 2^53] its result parses back to
    [n]. *)
Theorem CLI_comma_round_trip (n : Z) :
  exists t : string,
    CLI.comma n = Some t
    /\ GoStrings.RemoveByte "," t = FormatInt n
    /\ (- 2 ^ 53 < n < 2 ^ 53 -> parseGP unrepresentable t = (n, None)).
Proof.
  rewrite CLI_comma_unfold.
  destruct (commaBody_spec (FormatInt n) (FormatInt_nonempty _))
    as (t & Ht & Hspec).
  destruct (Hspec (noByte_FormatInt _)) as (Hrm & _).
  exists t. split; [ exact Ht | ]. split; [ exact Hrm | ]. intros Hn.
  pose proof (parseGP_decimal_text unrepresentable n t noSuffix) as H.
  cbn [suffixText] in H. rewrite append_empty_r in H.
  change (suffixScale noSuffix) with 1 in H. rewrite Z.mul_1_r in H.
  now apply H.
Qed.

End CLIFacts.

(** ** Edits through the dashboard *)

Lemma ApplyManualSet_dashboard (state : AppState) (field : string) (val : Z) :
  In field dashboardFields ->
  highLow (Shale (fst (ApplyManualSet state field val))) = highLow (Shale state)
  /\ highLow (Shard (fst (ApplyManualSet state field val)))
     = highLow (Shard state)
  /\ map fixedPart (Armors (fst (ApplyManualSet state field val)))
     = map fixedPart (Armors state).
Proof.
  intros Hin. cbn [In dashboardFields] in Hin.
  destruct Hin as [<- | [<- | [<- | [<- | [<- | []]]]]];
    unfold ApplyManualSet;
    match goal with
    | |- context [GoStrings.SplitByte ?c ?s] =>
        let l := eval vm_compute in (GoStrings.SplitByte c s) in
        change (GoStrings.SplitByte c s) with l
    end;
    cbn iota; unfold applyTarget, setArmor, armorIndex;
    cbn [String.eqb Ascii.eqb Bool.eqb orb andb fst];
    try (repeat split; reflexivity);
    destruct (Armors state) as [| a1 [| a2 [| a3 rest]]] eqn:Ha;
    cbn; rewrite ?Ha; repeat split; reflexivity.
Qed.

Lemma highSaleStep_same (l1 l2 : list ArmorReport) (b1 b2 : ArmorReport) :
  Forall2 sameHighSale l1 l2 ->
  sameHighSale b1 b2 ->
  sameHighSale (fold_left highSaleStep l1 b1) (fold_left highSaleStep l2 b2).
Proof.
  intros Hl. revert b1 b2.
  induction Hl as [| x y l1 l2 Hxy _ IH]; intros b1 b2 Hb; [ exact Hb | ].
  cbn [fold_left]. apply IH. unfold highSaleStep.
  destruct Hxy as [Hn Hh], Hb as [Hbn Hbh]. rewrite Hh, Hbh.
  destruct (_ <? _); split; assumption.
Qed.

Lemma pickBestByHighSale_same (l1 l2 : list ArmorReport) :
  Forall2 sameHighSale l1 l2 ->
  sameHighSale (pickBestByHighSale l1) (pickBestByHighSale l2).
Proof.
  intros [| x y l1' l2' Hxy Hl]; [ split; reflexivity | ].
  cbn [pickBestByHighSale]. now apply highSaleStep_same.
Qed.

Lemma computeArmor_sameHighSale (l1 l2 : list ArmorOption)
  (ic1 ic2 : PriceTriple) :
  map fixedPart l1 = map fixedPart l2 ->
  Forall2 sameHighSale (map (fun a => computeArmor a ic1) l1)
                       (map (fun a => computeArmor a ic2) l2).
Proof.
  revert l2. induction l1 as [| a l1 IH]; intros [| b l2] Hmap;
    try discriminate; [ constructor | ].
  cbn [map] in *. unfold fixedPart at 1 3, highLow in Hmap.
  injection Hmap as Hn _ Hh _ Hrest. constructor; [ | now apply IH ].
  split; assumption.
Qed.

Section DashboardFacts.

Variable unrepresentable : spec_float -> Z.

Lemma applyEdit_state (state : AppState) (field text : string) :
  fst (applyEdit unrepresentable state field text) = state
  \/ exists val : Z,
       fst (applyEdit unrepresentable state field text)
       = setMode (fst (ApplyManualSet state field val)) "manual".
Proof.
  unfold applyEdit.
  destruct (parseGP unrepresentable text) as [v [err |]]; [ now left | ].
  destruct (ApplyManualSet state field v) as [state' [err |]] eqn:Hset.
  - left. cbn [fst]. exact (ApplyManualSet_error_unchanged _ _ _ _ _ Hset).
  - right. exists v. rewrite Hset. reflexivity.
Qed.

(** X23: no edit made through the five input fields of the dashboard
    changes a high or a low price, of an ingredient or of an item, nor an
    item's name or id, nor the number or order of the items.  So the item
    the report recommends for the highest sale has the same name and the
    same high sale price before and after the edit. *)
Theorem dashboard_edit_keeps_high_low (state : AppState)
  (field text : string) (now : GoTime.Instant) :
  In field dashboardFields ->
  highLow (Shale (fst (applyEdit unrepresentable state field text)))
  = highLow (Shale state)
  /\ highLow (Shard (fst (applyEdit unrepresentable state field text)))
     = highLow (Shard state)
  /\ map fixedPart (Armors (fst (applyEdit unrepresentable state field text)))
     = map fixedPart (Armors state)
  /\ sameHighSale
       (BestByHighSale
          (ComputeReport now (fst (applyEdit unrepresentable state field text))))
       (BestByHighSale (ComputeReport now state)).
Proof.
  intros Hin.
  assert (Hkeep :
    highLow (Shale (fst (applyEdit unrepresentable state field text)))
    = highLow (Shale state)
    /\ highLow (Shard (fst (applyEdit unrepresentable state field text)))
       = highLow (Shard state)
    /\ map fixedPart
         (Armors (fst (applyEdit unrepresentable state field text)))
       = map fixedPart (Armors state)).
  { destruct (applyEdit_state state field text) as [-> | [val ->]];
      [ repeat split | ].
    exact (ApplyManualSet_dashboard state field val Hin). }
  destruct Hkeep as (Hsh & Hsd & Harm). repeat split; try assumption.
  - apply pickBestByHighSale_same, computeArmor_sameHighSale, Harm.
  - apply pickBestByHighSale_same, computeArmor_sameHighSale, Harm.
Qed.

End DashboardFacts.

Lemma dashboard_edit_keeps_high_low_example :
  highLow
    (Shale (fst (applyEdit (fun _ => 0) highTieState "armor2.avg" "1.2m")))
  = highLow (Shale highTieState)
  /\ highLow
       (Shard (fst (applyEdit (fun _ => 0) highTieState "armor2.avg" "1.2m")))
     = highLow (Shard highTieState)
  /\ map fixedPart
       (Armors (fst (applyEdit (fun _ => 0) highTieState "armor2.avg" "1.2m")))
     = map fixedPart (Armors highTieState)
  /\ sameHighSale
       (BestByHighSale
          (ComputeReport 0
             (fst (applyEdit (fun _ => 0) highTieState "armor2.avg" "1.2m"))))
       (BestByHighSale (ComputeReport 0 highTieState)).
Proof.
  apply (dashboard_edit_keeps_high_low (fun _ => 0) highTieState
           "armor2.avg" "1.2m" 0).
  do 3 right. left. reflexivity.
Defined.

(** ** The states the dashboard reaches *)

Lemma FetchStateFromAPI_threeItems {T : Type}
  (httpLatest : Z -> T + gmap string latestRow) (now : GoTime.Instant)
  (state : AppState) :
  FetchStateFromAPI httpLatest now = inl state -> threeItems state.
Proof.
  unfold FetchStateFromAPI. cbn [existsb].
  destruct (_ || _); [ discriminate | ].
  repeat (destruct (fetchLatestTriple _ _); [ | discriminate ]).
  intros [= <-]. split; reflexivity.
Qed.

Lemma ApplyManualSet_threeItems (state : AppState) (field : string) (val : Z) :
  threeItems state -> threeItems (fst (ApplyManualSet state field val)).
Proof.
  intros [Hn Hi].
  destruct (ApplyManualSet_keeps state field val) as (_ & _ & Hn' & Hi' & _).
  split; congruence.
Qed.

Lemma ApplyManualSet_dashboard_ok (state : AppState) (field : string)
  (val : Z) :
  threeItems state -> In field dashboardFields ->
  snd (ApplyManualSet state field val) = None.
Proof.
  intros [Hn _] Hin. cbn [In dashboardFields] in Hin.
  destruct (Armors state) as [| a1 [| a2 [| a3 rest]]] eqn:Ha;
    try discriminate Hn.
  destruct Hin as [<- | [<- | [<- | [<- | [<- | []]]]]];
    unfold ApplyManualSet;
    match goal with
    | |- context [GoStrings.SplitByte ?c ?s] =>
        let l := eval vm_compute in (GoStrings.SplitByte c s) in
        change (GoStrings.SplitByte c s) with l
    end;
    cbn iota; unfold applyTarget, setArmor, armorIndex;
    cbn [String.eqb Ascii.eqb Bool.eqb orb andb fst];
    rewrite ?Ha; reflexivity.
Qed.

Section Reachable.

Variable unrepresentable : spec_float -> Z.

Lemma reachable_threeItems (state : AppState) :
  reachable unrepresentable state -> threeItems state.
Proof.
  induction 1 as [| T http now state Hf | state field text _ IH].
  - split; reflexivity.
  - exact (FetchStateFromAPI_threeItems _ _ _ Hf).
  - destruct (applyEdit_state unrepresentable state field text)
      as [-> | [val ->]]; [ exact IH | ].
    exact (ApplyManualSet_threeItems state field val IH).
Qed.

(** X24: in every state the dashboard reaches from the default state by
    edits and successful fetches, no cache file being loaded, the item list
    holds the program's three items in their order, and an edit through any
    of the five input fields is applied exactly when its text parses, and
    refused as an invalid value exactly when it does not: there
    [ApplyManualSet] never fails. *)
Theorem dashboard_edit_succeeds (state : AppState) :
  reachable unrepresentable state ->
  threeItems state
  /\ forall field text : string,
       In field dashboardFields ->
       (snd (applyEdit unrepresentable state field text) = statusUpdated
        <-> snd (parseGP unrepresentable text) = None)
       /\ (snd (applyEdit unrepresentable state field text)
           = statusInvalidValue
           <-> snd (parseGP unrepresentable text) <> None).
Proof.
  intros Hreach. pose proof (reachable_threeItems state Hreach) as Hthree.
  split; [ exact Hthree | ]. intros field text Hin. unfold applyEdit.
  destruct (parseGP unrepresentable text) as [v [err |]]; cbn [snd].
  - split; split; intros H; congruence.
  - pose proof (ApplyManualSet_dashboard_ok state field v Hthree Hin) as Hok.
    destruct (ApplyManualSet state field v) as [state' [err |]];
      cbn [snd] in *; [ discriminate | ].
    split; split; intros H; congruence.
Qed.

End Reachable.

Lemma dashboard_edit_succeeds_example :
  threeItems (fst (applyEdit (fun _ => 0) defaultState "shale.avg" "5k"))
  /\ forall field text : string,
       In field dashboardFields ->
       (snd (applyEdit (fun _ => 0)
               (fst (applyEdit (fun _ => 0) defaultState "shale.avg" "5k"))
               field text) = statusUpdated
        <-> snd (parseGP (fun _ => 0) text) = None)
       /\ (snd (applyEdit (fun _ => 0)
                  (fst (applyEdit (fun _ => 0) defaultState "shale.avg" "5k"))
                  field text)
           = statusInvalidValue
           <-> snd (parseGP (fun _ => 0) text) <> None).
Proof.
  apply (dashboard_edit_succeeds (fun _ => 0)).
  apply reach_edit, reach_default.
Defined.

(** ** The GP parser: what is rounded *)

Lemma Zdigits2_shr_1 (r : shr_record) :
  Zdigits2 (shr_m (shr_1 r)) = Z.max 0 (Zdigits2 (shr_m r) - 1).
Proof.
  destruct r as [m r s]. destruct m as [| [p | p |] | [p | p |]];
    cbn [shr_1 shr_m Zdigits2 digits2_pos]; rewrite ?Pos2Z.inj_succ; lia.
Qed.

Lemma Zdigits2_shr_iter (k : nat) (r : shr_record) :
  Zdigits2 (shr_m (Nat.iter k shr_1 r))
  = Z.max 0 (Zdigits2 (shr_m r) - Z.of_nat k).
Proof.
  assert (Hnn : forall x, 0 <= Zdigits2 x) by (intros [| p | p]; cbn; lia).
  induction k as [| k IH].
  - cbn [Nat.iter nat_rect]. change (Z.of_nat 0) with 0.
    specialize (Hnn (shr_m r)). lia.
  - change (Nat.iter (S k) shr_1 r) with (shr_1 (Nat.iter k shr_1 r)).
    rewrite Zdigits2_shr_1, IH, Nat2Z.inj_succ. lia.
Qed.

Lemma binary_round_aux_digits (prec emax : Z) (sx : bool) (mx ex : Z)
  (lx : location) (s : bool) (m : positive) (e : Z) :
  binary_round_aux prec emax sx mx ex lx = S754_finite s m e ->
  Zpos (digits2_pos m) <= prec.
Proof.
  unfold binary_round_aux.
  destruct (shr_fexp prec emax mx ex lx) as [mrs' e'].
  set (M := round_nearest_even (shr_m mrs') (loc_of_shr_record mrs')).
  unfold shr_fexp, shr_record_of_loc, shr.
  destruct (fexp prec emax (Zdigits2 M + e') - e') as [| p | p] eqn:Hn.
  - cbn [shr_m]. destruct M as [| q | q]; try discriminate.
    destruct (_ <=? _); [ | discriminate ]. intros [= _ <- _].
    unfold fexp in Hn. cbn [Zdigits2] in Hn. lia.
  - pose proof (Zdigits2_shr_iter (Pos.to_nat p)
                  {| shr_m := M; shr_r := false; shr_s := false |}) as Hd.
    rewrite <- iter_pos_nat in Hd. cbn [shr_m] in Hd.
    destruct (shr_m (iter_pos shr_1 p _)) as [| q | q]; try discriminate.
    destruct (_ <=? _); [ | discriminate ]. intros [= _ <- _].
    cbn [Zdigits2] in Hd. rewrite positive_nat_Z in Hd.
    unfold fexp in Hn. lia.
  - cbn [shr_m]. destruct M as [| q | q]; try discriminate.
    destruct (_ <=? _); [ | discriminate ]. intros [= _ <- _].
    unfold fexp in Hn. cbn [Zdigits2] in Hn. lia.
Qed.

Lemma mul_finite_digits (x y : spec_float) (s : bool) (m : positive) (e : Z) :
  Float64.mul x y = S754_finite s m e -> Zpos (digits2_pos m) <= 53.
Proof.
  unfold Float64.mul, SFmul.
  destruct x as [sx | sx | | sx mx ex], y as [sy | sy | | sy my ey];
    try discriminate.
  apply binary_round_aux_digits.
Qed.

(** ** Rounding the product *)

Lemma nearestHalfUp_nearest (m d : Z) :
  0 < m -> 1 < d ->
  0 <= Float64.nearestHalfUp m d <= m
  /\ 2 * m - d < 2 * Float64.nearestHalfUp m d * d <= 2 * m + d.
Proof.
  intros Hm Hd. unfold Float64.nearestHalfUp.
  pose proof (Z.div_mod m d ltac:(lia)) as Hdm.
  pose proof (Z.mod_pos_bound m d ltac:(lia)) as Hr.
  assert (Hq : 0 <= m / d) by (apply Z.div_pos; lia).
  destruct (Z.leb_spec d (2 * (m mod d))) as [Hup | Hdown]; nia.
Qed.

Section RoundProduct.

Variable unrepresentable : spec_float -> Z.

Lemma toInt64_Round_finite (s : bool) (m : positive) (e : Z) :
  Zpos (digits2_pos m) <= 53 ->
  exists n : Z,
    0 <= n
    /\ nearestToBinary (Zpos m) e n
    /\ (Int64.in_range (if s then - n else n) ->
        Float64.toInt64 unrepresentable (Float64.Round (S754_finite s m e))
        = (if s then - n else n)).
Proof.
  intros Hd. unfold Float64.Round.
  destruct (Z.leb_spec 0 e) as [He | He].
  - exists (Zpos m * 2 ^ e). split; [ | split ].
    + pose proof (Z.pow_pos_nonneg 2 e ltac:(lia) He). lia.
    + split; [ reflexivity | lia ].
    + intros [Hlo Hhi]. unfold Float64.toInt64, Float64.truncZ.
      apply Z.leb_le in He. rewrite He.
      apply Z.leb_le in Hlo, Hhi. now rewrite Hlo, Hhi.
  - assert (Hpow : 1 < 2 ^ (- e)) by (apply Z.pow_gt_1; lia).
    destruct (nearestHalfUp_nearest (Zpos m) (2 ^ (- e)) ltac:(lia) Hpow)
      as [[Hn0 Hnm] Hnear].
    exists (Float64.nearestHalfUp (Zpos m) (2 ^ (- e))).
    split; [ exact Hn0 | ]. split; [ split; [ lia | intros _; exact Hnear ] | ].
    destruct (Float64.nearestHalfUp (Zpos m) (2 ^ (- e))) as [| p | p];
      [ | | lia ].
    + intros _. destruct s; reflexivity.
    + intros [Hlo Hhi].
      assert (Hp : Zpos p < 2 ^ 53).
      { pose proof (digits2_spec m) as [_ Hm].
        assert (2 ^ Zpos (digits2_pos m) <= 2 ^ 53)
          by (apply Z.pow_le_mono_r; lia).
        lia. }
      pose proof (digits2_bound p Hp) as Hdp.
      rewrite (binary_round_exact _ _ Hdp). unfold Float64.toInt64.
      rewrite (truncZ_integer _ _ Hdp).
      replace (if s then Z.neg p else Z.pos p)
        with (if s then - Z.pos p else Z.pos p) by (destruct s; reflexivity).
      apply Z.leb_le in Hlo, Hhi. now rewrite Hlo, Hhi.
Qed.

Lemma parseGP_floatProduct (input : string) :
  parseGP unrepresentable input
  = match floatProduct input with
    | inr err => (0, Some err)
    | inl product =>
        (Float64.toInt64 unrepresentable (Float64.Round product), None)
    end.
Proof.
  rewrite parseGP_splitSuffix. unfold floatProduct.
  destruct (splitSuffix _) as [multiplier text].
  destruct (GoStrconv.ParseFloat text); reflexivity.
Qed.

(** C9: [parseGP] maps [125k] to 125000, [1.25m] to 1250000, [1,250,000]
    to 1250000 and [2b] to 2000000000, each without error, and refuses
    [abc] and the empty text with the syntax error of [strconv.ParseFloat],
    the value returned with the error being 0.  For every ASCII text it
    is the float64 product of the parsed number and the multiplier that is
    rounded: when [strconv.ParseFloat] fails the error is returned with 0;
    a zero product gives 0; a finite product of sign [s] and magnitude
    [m * 2^e] gives, when it is representable as [int64], the integer
    nearest to the magnitude, a half going up, with the sign [s], hence
    halves of the product go away from zero; an infinite or NaN product
    gives the value of the platform's conversion, without error. *)
Theorem parseGP_rounds_product :
  (parseGP unrepresentable "125k" = (125000, None)
   /\ parseGP unrepresentable "1.25m" = (1250000, None)
   /\ parseGP unrepresentable "1,250,000" = (1250000, None)
   /\ parseGP unrepresentable "2b" = (2000000000, None)
   /\ parseGP unrepresentable "abc" = (0, Some GoStrconv.ErrSyntax)
   /\ parseGP unrepresentable "" = (0, Some GoStrconv.ErrSyntax))
  /\ forall input : string,
       allBytes isASCII input = true ->
       match floatProduct input with
       | inr err => parseGP unrepresentable input = (0, Some err)
       | inl (S754_zero _) => parseGP unrepresentable input = (0, None)
       | inl (S754_finite s m e) =>
           exists n : Z,
             0 <= n
             /\ nearestToBinary (Zpos m) e n
             /\ (Int64.in_range (if s then - n else n) ->
                 parseGP unrepresentable input
                 = ((if s then - n else n), None))
       | inl product =>
           parseGP unrepresentable input = (unrepresentable product, None)
       end.
Proof.
  split; [ repeat split; vm_compute; reflexivity | ].
  intros input _. rewrite parseGP_floatProduct.
  destruct (floatProduct input) as [[sz | si | | s m e] | err] eqn:Hprod;
    try reflexivity.
  assert (Hd : Zpos (digits2_pos m) <= 53).
  { unfold floatProduct in Hprod.
    destruct (splitSuffix _) as [multiplier text].
    destruct (GoStrconv.ParseFloat text) as [number | ?]; [ | discriminate ].
    injection Hprod as Hprod. exact (mul_finite_digits _ _ _ _ _ Hprod). }
  destruct (toInt64_Round_finite s m e Hd) as (n & Hn0 & Hnear & Hconv).
  exists n. split; [ exact Hn0 | ]. split; [ exact Hnear | ].
  intros Hr. now rewrite (Hconv Hr).
Qed.

End RoundProduct.

(** The theorem at the text [2.5], a half that binary floating point holds
    exactly. *)
Lemma parseGP_rounds_product_half :
  exists n : Z,
    0 <= n
    /\ nearestToBinary 5629499534213120 (-51) n
    /\ (Int64.in_range n -> parseGP (fun _ => 0) "2.5" = (n, None)).
Proof.
  destruct (parseGP_rounds_product (fun _ => 0)) as [_ H].
  exact (H "2.5" eq_refl).
Defined.

(** C9, as stated, fails: the text [0.0001245m] denotes 1245 / 10^7 times
    10^6, exactly 124.5, which rounds half away from zero to 125.  The
    float64 nearest to 0.0001245 lies below it, the float64 product lies
    below 124.5, and [parseGP] returns 124. *)
Lemma parseGP_half_lost :
  parseGP (fun _ => 0) "0.0001245m" = (124, None)
  /\ fst (GoStrconv.readDigits 10 "0.0001245" GoStrconv.scan0)
     = GoStrconv.mkScan 1245 4 (-3) true true false
  /\ 2 * (1245 * 1000000) = (2 * 124 + 1) * 10 ^ 7
  /\ roundHalfAway (1245 * 1000000) (10 ^ 7) = 125
  /\ floatProduct "0.0001245m"
     = inl (S754_finite false 8760908650119167 (-46))
  /\ 2 * 8760908650119167 < (2 * 124 + 1) * 2 ^ 46.
Proof. vm_compute. repeat split. Qed.
